(** * Unit rankings of the class portal: the storage layer's
      [getUnitRankings] and [completeAssignment], embedded and verified.

    The embedding follows [DatabaseStorage] (server/storage.ts) and the
    table declarations of shared/schema.ts. *)

From Stdlib Require Import ZArith QArith Qround Qpower Qabs.
From Stdlib Require Import NArith Ascii String List Bool Lia Lqa.
From Stdlib Require Import Permutation Sorted.
Import ListNotations.

Local Open Scope Z_scope.

(** ** JavaScript numbers

    A JS [number] is an IEEE-754 binary64 value.  Every number that the
    ranking code handles is finite (time values of valid [Date]s, array
    lengths, and sums, differences and quotients of those), so a number is
    represented by the rational it denotes, and each arithmetic operation
    is the exact operation followed by rounding to 53 significant bits,
    ties to even.  The exponent range is not modelled: time values are
    bounded by 8.64e15 and array lengths by 2^32, which keeps every result
    far from overflow and from the subnormal range. *)

Module Number.

Definition number := Q.

(** Largest [k] with [2^k <= x], for positive [x]. *)
Definition ilog2 (x : Q) : Z :=
  let k0 := Z.log2 (Qnum x) - Z.log2 (Zpos (Qden x)) in
  if Qle_bool (2 ^ k0)%Q x then k0 else k0 - 1.

(** Nearest integer, ties to the even one. *)
Definition rne (y : Q) : Z :=
  let f := Qfloor y in
  match ((y - inject_Z f) ?= 1 # 2)%Q with
  | Lt => f
  | Gt => f + 1
  | Eq => if Z.even f then f else f + 1
  end.

(** Rounding of a positive rational to a 53-bit significand. *)
Definition round_pos (x : Q) : Q :=
  let e := ilog2 x - 52 in
  (inject_Z (rne (x * 2 ^ (- e))) * 2 ^ e)%Q.

Definition round53 (x : Q) : number :=
  match Qnum x with
  | Z0 => 0%Q
  | Zpos _ => Qred (round_pos (Qred x))
  | Zneg _ => Qred (- round_pos (Qred (- x)))
  end.

Definition add (a b : number) : number := round53 (a + b).
Definition sub (a b : number) : number := round53 (a - b).
Definition div (a b : number) : number := round53 (a / b).

(** An integer-valued number: [getTime()] of a valid date, the [length]
    of an array. *)
Definition of_Z (z : Z) : number := inject_Z z.

(** [a < b] on numbers. *)
Definition ltb (a b : number) : bool := negb (Qle_bool b a).

End Number.

Definition number : Type := Number.number.

(** ** Rows of the tables (shared/schema.ts)

    A [timestamp] column read through the driver is a valid [Date]; it is
    represented by its time value, the integer count of milliseconds since
    the epoch (at most 8.64e15 in magnitude, so [getTime] returns it
    exactly). *)

Definition Date := Z.

Definition getTime (d : Date) : number := Number.of_Z d.

(** [new Date(n)] for a number [n]: the time value is [n] truncated
    towards zero. *)
Definition newDate (n : number) : Date := Z.quot (Qnum n) (Zpos (Qden n)).

Module User.
Record t := mk {
  id : Z;
  name : string;
  admissionNumber : string;
  password : string;
  profileImageUrl : option string;
  rank : option Z;
  role : option string
}.
End User.

Module Assignment.
Record t := mk {
  id : Z;
  title : string;
  description : string;
  deadline : Date;
  fileUrl : option string;
  unitCode : string;
  userId : Z;
  createdAt : Date
}.
End Assignment.

Module CompletedAssignment.
Record t := mk {
  id : Z;
  assignmentId : Z;
  userId : Z;
  completedAt : Date
}.
End CompletedAssignment.

(** ** Values built by [getUnitRankings] *)

(** A row of the [userCompletions] query. *)
Module UserCompletion.
Record t := mk {
  userId : Z;
  name : string;
  profileImageUrl : option string;
  assignmentId : Z;
  completedAt : Date
}.
End UserCompletion.

(** An element of [userData.completions]. *)
Module Completion.
Record t := mk {
  assignmentId : Z;
  completedAt : Date;
  createdAt : Date;
  title : string;
  completionTime : string
}.
End Completion.

(** A value of [userCompletionMap]. *)
Module UserData.
Record t := mk {
  userId : Z;
  name : string;
  profileImageUrl : option string;
  completions : list Completion.t
}.
End UserData.

(** An element of [rankings].  The object literal pushed in the
    [forEach] has no [position] property; the last loop adds it. *)
Module Ranking.
Record t := mk {
  userId : Z;
  name : string;
  profileImageUrl : option string;
  completedAssignments : nat;
  averageCompletionTime : string;
  totalMilliseconds : number;
  recentCompletions : list Completion.t;
  overallRank : nat;
  position : option nat
}.
End Ranking.

(** ** A JS [Map] with number keys: entries in insertion order *)

Module JsMap.

Definition t (V : Type) := list (Z * V).

Definition empty {V} : t V := [].

Definition has {V} (k : Z) (m : t V) : bool :=
  existsb (fun kv => fst kv =? k) m.

Definition get {V} (k : Z) (m : t V) : option V :=
  option_map snd (find (fun kv => fst kv =? k) m).

(** [set] keeps the position of a key that is present and appends a new
    key at the end. *)
Fixpoint set {V} (k : Z) (v : V) (m : t V) : t V :=
  match m with
  | [] => [(k, v)]
  | (k', v') :: m' =>
      if k' =? k then (k, v) :: m' else (k', v') :: set k v m'
  end.

(** The values in iteration ([forEach]) order. *)
Definition values {V} (m : t V) : list V := map snd m.

Definition keys {V} (m : t V) : list Z := map fst m.

(** The map with the keys [ks] in this order, each [k] bound to [f k]. *)
Definition tab {V} (f : Z -> V) (ks : list Z) : t V :=
  map (fun k => (k, f k)) ks.

Definition mem (k : Z) (ks : list Z) : bool := existsb (fun k' => k' =? k) ks.

End JsMap.

(** ** [Array.prototype.sort] with a comparator

    The comparator returns a number: negative puts its first argument
    first, positive its second.  The sort is stable (ECMAScript 2019), and
    for a consistent comparator the stable sorted order of an array is
    unique, so the straight insertion sort below returns what any
    conforming engine returns. *)

Section ArraySort.
Context {A : Type}.
Variable compareFn : A -> A -> number.

Fixpoint insert (x : A) (l : list A) : list A :=
  match l with
  | [] => [x]
  | y :: l' =>
      if Number.ltb 0%Q (compareFn x y) then y :: insert x l' else x :: l
  end.

Definition sort (l : list A) : list A := fold_right insert [] l.

End ArraySort.

(** Ascending order of a rational key. *)
Definition key_le {A} (key : A -> Q) (x y : A) : Prop :=
  (key x <= key y)%Q.

(** ** The body of [getUnitRankings] after its two queries *)

Section Rankings.

(** [formatDistance] of date-fns, applied to two valid dates. *)
Variable formatDistance : Date -> Date -> string.

Definition findAssignment (unitAssignments : list Assignment.t)
    (assignmentId : Z) : option Assignment.t :=
  find (fun a => Assignment.id a =? assignmentId) unitAssignments.

Definition push {T} (arr : list T) (x : T) : list T := arr ++ [x].

Definition pushCompletion (userData : UserData.t) (c : Completion.t)
    : UserData.t :=
  UserData.mk (UserData.userId userData) (UserData.name userData)
    (UserData.profileImageUrl userData)
    (push (UserData.completions userData) c).

(** One iteration of [for (const completion of userCompletions)]. *)
Definition addCompletion (unitAssignments : list Assignment.t)
    (userCompletionMap : JsMap.t UserData.t)
    (completion : UserCompletion.t) : JsMap.t UserData.t :=
  match findAssignment unitAssignments
          (UserCompletion.assignmentId completion) with
  | None => userCompletionMap
  | Some assignment =>
      let completionTime :=
        formatDistance (UserCompletion.completedAt completion)
          (Assignment.createdAt assignment) in
      let uid := UserCompletion.userId completion in
      let m :=
        if JsMap.has uid userCompletionMap then userCompletionMap
        else JsMap.set uid
               (UserData.mk uid (UserCompletion.name completion)
                  (UserCompletion.profileImageUrl completion) [])
               userCompletionMap in
      match JsMap.get uid m with
      | Some userData =>
          (* [userData] aliases the value stored in the map: the push is
             seen through the map, at the key's position. *)
          JsMap.set uid
            (pushCompletion userData
               (Completion.mk (UserCompletion.assignmentId completion)
                  (UserCompletion.completedAt completion)
                  (Assignment.createdAt assignment)
                  (Assignment.title assignment)
                  completionTime))
            m
      | None => m
      end
  end.

Definition groupCompletions (unitAssignments : list Assignment.t)
    (userCompletions : list UserCompletion.t) : JsMap.t UserData.t :=
  fold_left (addCompletion unitAssignments) userCompletions JsMap.empty.

(** The term added by the [reduce] callback. *)
Definition latency (c : Completion.t) : number :=
  Number.sub (getTime (Completion.completedAt c))
             (getTime (Completion.createdAt c)).

Definition totalTimeMs (completions : list Completion.t) : number :=
  fold_left (fun sum c => Number.add sum (latency c)) completions 0%Q.

Definition avgTimeMs (completions : list Completion.t) : number :=
  if (0 <? length completions)%nat
  then Number.div (totalTimeMs completions)
                  (Number.of_Z (Z.of_nat (length completions)))
  else 0%Q.

Definition byCompletedAtDesc (a b : Completion.t) : number :=
  Number.sub (getTime (Completion.completedAt b))
             (getTime (Completion.completedAt a)).

Definition slice_0_3 {T} (arr : list T) : list T := firstn 3 arr.

(** The callback of [userCompletionMap.forEach]. *)
Definition rankingOf (userData : UserData.t) : Ranking.t :=
  let completions := UserData.completions userData in
  Ranking.mk (UserData.userId userData) (UserData.name userData)
    (UserData.profileImageUrl userData)
    (length completions)
    (formatDistance (newDate 0%Q) (newDate (avgTimeMs completions)))
    (avgTimeMs completions)
    (slice_0_3 (sort byCompletedAtDesc completions))
    0%nat
    None.

Definition byTotalMilliseconds (a b : Ranking.t) : number :=
  Number.sub (Ranking.totalMilliseconds a) (Ranking.totalMilliseconds b).

Definition setPosition (ranking : Ranking.t) (index : nat) : Ranking.t :=
  let position := (index + 1)%nat in
  Ranking.mk (Ranking.userId ranking) (Ranking.name ranking)
    (Ranking.profileImageUrl ranking)
    (Ranking.completedAssignments ranking)
    (Ranking.averageCompletionTime ranking)
    (Ranking.totalMilliseconds ranking)
    (Ranking.recentCompletions ranking)
    position
    (Some position).

(** [rankings.forEach((ranking, index) => ...)], from [index] on. *)
Fixpoint assignPositions (index : nat) (rankings : list Ranking.t)
    : list Ranking.t :=
  match rankings with
  | [] => []
  | ranking :: rest =>
      setPosition ranking index :: assignPositions (S index) rest
  end.

(** From [userCompletionMap] to the returned array. *)
Definition rankUsers (unitAssignments : list Assignment.t)
    (userCompletions : list UserCompletion.t) : list Ranking.t :=
  let userCompletionMap := groupCompletions unitAssignments userCompletions in
  let rankings := map rankingOf (JsMap.values userCompletionMap) in
  assignPositions 0 (sort byTotalMilliseconds rankings).

(** What [getUnitRankings] returns, as a function of the rows its two
    queries fetched. *)
Definition rankingsOf (unitAssignments : list Assignment.t)
    (userCompletions : list UserCompletion.t) : list Ranking.t :=
  if (length unitAssignments =? 0)%nat then []
  else rankUsers unitAssignments userCompletions.

End Rankings.

(** ** The database and the storage methods

    The tables are lists of rows; a query either fails (the driver throws)
    or returns a value and the next state of the database. *)

Record DB := mkDB {
  users : list User.t;
  assignments : list Assignment.t;
  completedAssignments : list CompletedAssignment.t;
  completedAssignments_id_seq : Z
}.

Definition Query (A : Type) : Type := DB -> option (A * DB).

Definition ret {A} (a : A) : Query A := fun db => Some (a, db).

Definition bind {A B} (q : Query A) (k : A -> Query B) : Query B :=
  fun db =>
    match q db with
    | Some (a, db') => k a db'
    | None => None
    end.

Notation "x <- q ;; k" := (bind q (fun x => k))
  (at level 61, q at next level, right associativity).

(** [db.select(...).from(...)...]: reads the state, never changes it. *)
Definition select {A} (rows : DB -> list A) : Query (list A) :=
  fun db => Some (rows db, db).

(** [db.insert(completedAssignments).values({...}).returning()].  The
    table declares a serial primary key and two foreign keys, and no
    unique index on (assignment_id, user_id). *)
Definition insertCompletedAssignment (assignmentId userId : Z)
    (completedAt : Date) : Query CompletedAssignment.t :=
  fun db =>
    let id := completedAssignments_id_seq db in
    if existsb (fun a => Assignment.id a =? assignmentId) (assignments db)
       && existsb (fun u => User.id u =? userId) (users db)
       && negb (existsb (fun c => CompletedAssignment.id c =? id)
                  (completedAssignments db))
    then
      let row := CompletedAssignment.mk id assignmentId userId completedAt in
      Some (row,
            mkDB (users db) (assignments db)
              (completedAssignments db ++ [row]) (id + 1))
    else None.

(** The method body is two comments. *)
Definition updateUserRank (userId : Z) : Query unit := ret tt.

Inductive CompleteResult :=
| AlreadyCompleted
| Completed (completion : CompletedAssignment.t)
    (assignment : option Assignment.t) (user : option User.t).

(** The (assignment, user) pair that a completion row records. *)
Definition pairOf (c : CompletedAssignment.t) : Z * Z :=
  (CompletedAssignment.assignmentId c, CompletedAssignment.userId c).

(** At most one completion row per (assignment, user) pair. *)
Definition uniquePairs (db : DB) : Prop :=
  NoDup (map pairOf (completedAssignments db)).

(** [completeAssignment]; [now] is the value of [new Date()]. *)
Definition completeAssignment (now : Date) (assignmentId userId : Z)
    : Query CompleteResult :=
  existing <- select (fun db =>
      filter (fun c =>
                (CompletedAssignment.assignmentId c =? assignmentId)
                && (CompletedAssignment.userId c =? userId))
             (completedAssignments db)) ;;
  match existing with
  | _ :: _ => ret AlreadyCompleted
  | [] =>
      let completedAt := now in
      completion <- insertCompletedAssignment assignmentId userId completedAt ;;
      assignment <- select (fun db =>
          filter (fun a => Assignment.id a =? assignmentId) (assignments db)) ;;
      user <- select (fun db =>
          filter (fun u => User.id u =? userId) (users db)) ;;
      _ <- updateUserRank userId ;;
      ret (Completed completion (hd_error assignment) (hd_error user))
  end.

(** *** Two calls that overlap

    Every [await] of [completeAssignment] lets another request run.  The
    method is its check followed by the rest; in two overlapping calls
    for one pair, both checks run before either insert. *)

(** The first [await]: the rows that [existingCompletion] is taken
    from. *)
Definition selectExistingCompletion (assignmentId userId : Z)
    : Query (list CompletedAssignment.t) :=
  select (fun db =>
      filter (fun c =>
                (CompletedAssignment.assignmentId c =? assignmentId)
                && (CompletedAssignment.userId c =? userId))
             (completedAssignments db)).

(** The method from [if (existingCompletion)] on. *)
Definition completeAfterCheck (now : Date) (assignmentId userId : Z)
    (existing : list CompletedAssignment.t) : Query CompleteResult :=
  match existing with
  | _ :: _ => ret AlreadyCompleted
  | [] =>
      let completedAt := now in
      completion <- insertCompletedAssignment assignmentId userId completedAt ;;
      assignment <- select (fun db =>
          filter (fun a => Assignment.id a =? assignmentId) (assignments db)) ;;
      user <- select (fun db =>
          filter (fun u => User.id u =? userId) (users db)) ;;
      _ <- updateUserRank userId ;;
      ret (Completed completion (hd_error assignment) (hd_error user))
  end.

(** Two calls, the second starting while the first awaits its check. *)
Definition completeAssignmentOverlapping (now1 now2 : Date)
    (assignmentId userId : Z) : Query (CompleteResult * CompleteResult) :=
  existing1 <- selectExistingCompletion assignmentId userId ;;
  existing2 <- selectExistingCompletion assignmentId userId ;;
  first <- completeAfterCheck now1 assignmentId userId existing1 ;;
  second <- completeAfterCheck now2 assignmentId userId existing2 ;;
  ret (first, second).

Section Storage.

Variable formatDistance : Date -> Date -> string.

(** The rows of [completedAssignments] inner-joined with [users] and
    [assignments], restricted to the unit.  The query has no ORDER BY; the
    rows come in the order of the nested scan. *)
Definition selectUserCompletions (unitCode : string) (db : DB)
    : list UserCompletion.t :=
  flat_map (fun c =>
    flat_map (fun u =>
      flat_map (fun a =>
        if (CompletedAssignment.userId c =? User.id u)
           && (CompletedAssignment.assignmentId c =? Assignment.id a)
           && String.eqb (Assignment.unitCode a) unitCode
        then [UserCompletion.mk (CompletedAssignment.userId c) (User.name u)
                (User.profileImageUrl u)
                (CompletedAssignment.assignmentId c)
                (CompletedAssignment.completedAt c)]
        else [])
      (assignments db))
    (users db))
  (completedAssignments db).

(** The rows of [assignments] that belong to the unit. *)
Definition selectUnitAssignments (unitCode : string) (db : DB)
    : list Assignment.t :=
  filter (fun a => String.eqb (Assignment.unitCode a) unitCode)
         (assignments db).

Definition getUnitRankings (unitCode : string) : Query (list Ranking.t) :=
  unitAssignments <- select (selectUnitAssignments unitCode) ;;
  if (length unitAssignments =? 0)%nat then ret []
  else
    userCompletions <- select (selectUserCompletions unitCode) ;;
    ret (rankUsers formatDistance unitAssignments userCompletions).

End Storage.


(** ** The grouping stated on the input rows

    What [groupCompletions] computes, written as a function of the rows:
    the users in order of first appearance among the rows that resolve,
    each with the rows that are theirs. *)

Section Grouping.

Variable formatDistance : Date -> Date -> string.
Variable unitAssignments : list Assignment.t.

(** The row's [assignmentId] is found in [unitAssignments]. *)
Definition resolves (c : UserCompletion.t) : bool :=
  match findAssignment unitAssignments (UserCompletion.assignmentId c) with
  | Some _ => true
  | None => false
  end.

Definition resolved (userCompletions : list UserCompletion.t)
    : list UserCompletion.t :=
  filter resolves userCompletions.

(** The [completions] element made from a row, if the row resolves. *)
Definition entryOf (c : UserCompletion.t) : option Completion.t :=
  match findAssignment unitAssignments (UserCompletion.assignmentId c) with
  | Some assignment =>
      Some (Completion.mk (UserCompletion.assignmentId c)
              (UserCompletion.completedAt c)
              (Assignment.createdAt assignment)
              (Assignment.title assignment)
              (formatDistance (UserCompletion.completedAt c)
                 (Assignment.createdAt assignment)))
  | None => None
  end.

Definition entriesOf (rows : list UserCompletion.t) : list Completion.t :=
  flat_map (fun c => match entryOf c with Some e => [e] | None => [] end) rows.

(** The distinct elements, in order of first occurrence. *)
Fixpoint uniq (l : list Z) : list Z :=
  match l with
  | [] => []
  | x :: l' => x :: filter (fun y => negb (y =? x)) (uniq l')
  end.

Definition userIdsOf (rows : list UserCompletion.t) : list Z :=
  uniq (map UserCompletion.userId rows).

Definition rowsOfUser (uid : Z) (rows : list UserCompletion.t)
    : list UserCompletion.t :=
  filter (fun c => UserCompletion.userId c =? uid) rows.

Definition groupOf (rows : list UserCompletion.t) (uid : Z) : UserData.t :=
  let mine := rowsOfUser uid rows in
  UserData.mk uid
    (match mine with c :: _ => UserCompletion.name c | [] => EmptyString end)
    (match mine with
     | c :: _ => UserCompletion.profileImageUrl c
     | [] => None
     end)
    (entriesOf mine).

Definition groupsOf (userCompletions : list UserCompletion.t)
    : JsMap.t UserData.t :=
  let rows := resolved userCompletions in
  JsMap.tab (groupOf rows) (userIdsOf rows).

(** The [rankings] array before it is sorted. *)
Definition unsorted (userCompletions : list UserCompletion.t)
    : list Ranking.t :=
  let rows := resolved userCompletions in
  map (fun uid => rankingOf formatDistance (groupOf rows uid))
      (userIdsOf rows).

(** Position in [userCompletions] of the first row of [uid] that
    resolves. *)
Fixpoint firstResolvedIndex (uid : Z) (userCompletions : list UserCompletion.t)
    : option nat :=
  match userCompletions with
  | [] => None
  | c :: rest =>
      if resolves c && (UserCompletion.userId c =? uid) then Some 0%nat
      else option_map S (firstResolvedIndex uid rest)
  end.

End Grouping.

(** ** Exact latencies

    The latency of a completion in whole milliseconds, and the exact
    rational average of a group, against which the computed number is
    compared. *)

Definition latencyMs (e : Completion.t) : Z :=
  Completion.completedAt e - Completion.createdAt e.

Definition sumLatencyMs (es : list Completion.t) : Z :=
  fold_right Z.add 0 (map latencyMs es).

Definition exactAverage (es : list Completion.t) : Q :=
  (inject_Z (sumLatencyMs es) / inject_Z (Z.of_nat (length es)))%Q.

(** The sum of the magnitudes of the latencies: while it is below [2^53]
    every partial sum of the [reduce] is an integer that a number holds
    exactly. *)
Definition magnitude (es : list Completion.t) : Z :=
  fold_right Z.add 0 (map (fun e => Z.abs (latencyMs e)) es).

(** Later completions first: the sort key of [recentCompletions]. *)
Definition recency (c : Completion.t) : Q :=
  (- inject_Z (Completion.completedAt c))%Q.

(** The order on completions that [recentCompletions] is sorted in. *)
Definition notEarlier (x y : Completion.t) : Prop :=
  Completion.completedAt y <= Completion.completedAt x.

(** [x] occurs in [l] before an occurrence of [y]. *)
Definition Before {A} (x y : A) (l : list A) : Prop :=
  exists l1 l2 l3, l = l1 ++ x :: l2 ++ y :: l3.
(** ** Sample data *)

Module Sample.
Local Open Scope string_scope.
Local Open Scope Z_scope.

(** A stand-in for date-fns: the distance in words, by whole minutes. *)
Definition minutes (a b : Date) : string :=
  match Z.abs (a - b) / 60000 with
  | 0 => "less than a minute"
  | 30 => "30 minutes"
  | 60 => "about 1 hour"
  | 75 => "about 1 hour"
  | 120 => "about 2 hours"
  | 180 => "about 3 hours"
  | _ => "a while"
  end.

Definition hour : Z := 3600000.
Definition T0 : Date := 1743442427420.

Definition assignment (id : Z) (createdAt : Date) : Assignment.t :=
  Assignment.mk id "Problem set" "Exercises" (createdAt + 24 * hour) None
    "MAT 2101" 1 createdAt.

Definition done (userId : Z) (name : string) (assignmentId : Z)
    (completedAt : Date) : UserCompletion.t :=
  UserCompletion.mk userId name None assignmentId completedAt.

Definition A1 := assignment 1 T0.
Definition A2 := assignment 2 (T0 + hour).
Definition A3 := assignment 3 (T0 + 2 * hour).

Definition unitAssignments : list Assignment.t := [A1; A2].

(** The row of Z refers to an assignment that was not fetched; Y and W
    have the same average, two hours; X averages 75 minutes. *)
Definition stale : UserCompletion.t := done 9 "Z" 3 (T0 + hour).

Definition userCompletions : list UserCompletion.t :=
  [done 8 "Y" 1 (T0 + 2 * hour);
   done 7 "X" 1 (T0 + 2 * hour);
   stale;
   done 7 "X" 2 (T0 + hour + 1800000);
   done 6 "W" 2 (T0 + 3 * hour)].

(** One user, three assignments, done after 1 s, 1 s and 2 s. *)
Definition thirds : list UserCompletion.t :=
  [done 5 "V" 1 (T0 + 1000);
   done 5 "V" 2 (T0 + hour + 1000);
   done 5 "V" 3 (T0 + 2 * hour + 2000)].

Definition teacher : User.t :=
  User.mk 1 "Teacher Account" "T001" "secret" None None (Some "teacher").

Definition student : User.t :=
  User.mk 7 "X" "S007" "secret" None (Some 2) (Some "student").

Definition db : DB := mkDB [teacher; student] [A1; A2] [] 1.

(** The entries of the sample ranking, and of the ranking of [thirds]. *)
Definition nobody : Ranking.t :=
  Ranking.mk 0 EmptyString None 0 EmptyString 0%Q [] 0 None.

Definition ranked : list Ranking.t :=
  Eval vm_compute in rankingsOf minutes unitAssignments userCompletions.

Definition entryX : Ranking.t := Eval vm_compute in nth 0 ranked nobody.
Definition entryY : Ranking.t := Eval vm_compute in nth 1 ranked nobody.
Definition entryW : Ranking.t := Eval vm_compute in nth 2 ranked nobody.

Definition entryV : Ranking.t :=
  Eval vm_compute in
    nth 0 (rankingsOf minutes [A1; A2; A3] thirds) nobody.

(** The outcome of X completing assignment 1 an hour after it was
    set. *)
Definition rowOnce : CompletedAssignment.t :=
  CompletedAssignment.mk 1 1 7 (T0 + hour).

Definition completedOnce : CompleteResult :=
  Completed rowOnce (Some A1) (Some student).

Definition dbOnce : DB := mkDB [teacher; student] [A1; A2] [rowOnce] 2.

(** The outcome of two such calls, a millisecond apart, that overlap. *)
Definition rowTwice : CompletedAssignment.t :=
  CompletedAssignment.mk 2 1 7 (T0 + hour + 1).

Definition dbTwice : DB :=
  mkDB [teacher; student] [A1; A2] [rowOnce; rowTwice] 3.

End Sample.


(** ** The other storage methods over [users], [assignments] and
       [completedAssignments] *)

(** [const [row] = await ...]: the first row, [undefined] if none. *)
Definition firstRow {A} (rows : list A) : option A := hd_error rows.

Definition getUser (id : Z) : Query (option User.t) :=
  rows <- select (fun db => filter (fun u => User.id u =? id) (users db)) ;;
  ret (firstRow rows).

Definition getUserByCredentials (name admissionNumber : string)
    : Query (option User.t) :=
  rows <- select (fun db =>
      filter (fun u => String.eqb (User.name u) name
                       && String.eqb (User.admissionNumber u) admissionNumber)
             (users db)) ;;
  ret (firstRow rows).

(** [db.update(users).set(...).where(eq(users.id, id)).returning()]: the
    rows with this id are replaced in place, and returned as updated. *)
Definition updateUsers (id : Z) (set : User.t -> User.t)
    : Query (list User.t) :=
  fun db =>
    Some (map set (filter (fun u => User.id u =? id) (users db)),
          mkDB (map (fun u => if User.id u =? id then set u else u)
                  (users db))
            (assignments db) (completedAssignments db)
            (completedAssignments_id_seq db)).

Definition setPassword (hashedPassword : string) (u : User.t) : User.t :=
  User.mk (User.id u) (User.name u) (User.admissionNumber u) hashedPassword
    (User.profileImageUrl u) (User.rank u) (User.role u).

Definition setProfileImageUrl (imageUrl : string) (u : User.t) : User.t :=
  User.mk (User.id u) (User.name u) (User.admissionNumber u)
    (User.password u) (Some imageUrl) (User.rank u) (User.role u).

Definition updateUserPassword (id : Z) (hashedPassword : string)
    : Query (option User.t) :=
  rows <- updateUsers id (setPassword hashedPassword) ;;
  ret (firstRow rows).

Definition updateUserProfileImage (id : Z) (imageUrl : string)
    : Query (option User.t) :=
  rows <- updateUsers id (setProfileImageUrl imageUrl) ;;
  ret (firstRow rows).


(** *** Joins, ORDER BY and LIMIT *)

Definition innerJoin {A B} (on : A -> B -> bool) (right : list B) (a : A)
    : list (A * B) :=
  map (pair a) (filter (on a) right).

(** A left row without a match is kept once, with NULLs on the right. *)
Definition leftJoin {A B} (on : A -> B -> bool) (right : list B) (a : A)
    : list (A * option B) :=
  match filter (on a) right with
  | [] => [(a, None)]
  | matches => map (fun b => (a, Some b)) matches
  end.

Section OrderBy.
Context {A : Type}.
Variable key : A -> Z.

Fixpoint insertBy (x : A) (l : list A) : list A :=
  match l with
  | [] => [x]
  | y :: l' => if key y <? key x then y :: insertBy x l' else x :: l
  end.

(** ORDER BY [key] ascending.  SQL leaves the order of equal keys open;
    here they keep the order of the scan. *)
Definition orderBy (l : list A) : list A := fold_right insertBy [] l.

(** The order that [orderBy] produces. *)
Definition ascending (x y : A) : Prop := key x <= key y.

End OrderBy.

Definition orderByDesc {A} (key : A -> Z) (l : list A) : list A :=
  orderBy (fun x => - key x) l.

Definition limit {A} (n : nat) (l : list A) : list A := firstn n l.

(** The completion rows of [userId] for the assignment: the ON clause of
    the left joins. *)
Definition completionOf (userId : Z) (a : Assignment.t)
    (c : CompletedAssignment.t) : bool :=
  (Assignment.id a =? CompletedAssignment.assignmentId c)
  && (CompletedAssignment.userId c =? userId).

(** A row of [getAssignmentsByUnit] and of [getUpcomingDeadlines]. *)
Module AssignmentRow.
Record t := mk {
  id : Z;
  title : string;
  description : string;
  deadline : Date;
  fileUrl : option string;
  unitCode : string;
  createdAt : Date;
  uploadedBy : string;
  completed : bool;
  completedAt : option Date
}.
End AssignmentRow.

Definition assignmentRow (a : Assignment.t) (u : User.t)
    (c : option CompletedAssignment.t) : AssignmentRow.t :=
  AssignmentRow.mk (Assignment.id a) (Assignment.title a)
    (Assignment.description a) (Assignment.deadline a)
    (Assignment.fileUrl a) (Assignment.unitCode a) (Assignment.createdAt a)
    (User.name u)
    (match c with Some _ => true | None => false end)
    (option_map CompletedAssignment.completedAt c).

(** [assignments] joined with the uploader and, on the left, with the
    completions of [userId], in the order of the scan. *)
Definition joinAssignments (userId : Z) (rows : list Assignment.t) (db : DB)
    : list AssignmentRow.t :=
  flat_map (fun a =>
    flat_map (fun au =>
      map (fun auc => assignmentRow a (snd au) (snd auc))
          (leftJoin (fun au' c => completionOf userId (fst au') c)
             (completedAssignments db) au))
      (innerJoin (fun a' u => Assignment.userId a' =? User.id u)
         (users db) a))
    rows.

Definition getAssignmentsByUnit (unitCode : string) (userId : Z)
    : Query (list AssignmentRow.t) :=
  select (fun db =>
    orderBy AssignmentRow.deadline
      (joinAssignments userId (selectUnitAssignments unitCode db) db)).

Definition getUpcomingDeadlines (userId : Z) : Query (list AssignmentRow.t) :=
  select (fun db =>
    limit 5 (orderBy AssignmentRow.deadline
               (joinAssignments userId (assignments db) db))).


(** ** The other tables, and the methods that use them *)

Module Unit.
Record t := mk {
  id : Z;
  unitCode : string;
  name : string;
  description : option string;
  category : string
}.
End Unit.

Module Note.
Record t := mk {
  id : Z;
  title : string;
  description : string;
  fileUrl : option string;
  unitCode : string;
  userId : Z;
  createdAt : Date
}.
End Note.

Module PastPaper.
Record t := mk {
  id : Z;
  title : string;
  description : string;
  year : string;
  fileUrl : option string;
  unitCode : string;
  userId : Z;
  createdAt : Date
}.
End PastPaper.

Module UserNoteView.
Record t := mk {
  id : Z;
  noteId : Z;
  userId : Z;
  viewedAt : Date
}.
End UserNoteView.

Module UserPaperView.
Record t := mk {
  id : Z;
  paperId : Z;
  userId : Z;
  viewedAt : Date
}.
End UserPaperView.

(** The whole database: the three tables of [DB], the five others, and
    the sequences of their serial keys. *)
Record Portal := mkPortal {
  base : DB;
  units : list Unit.t;
  notes : list Note.t;
  pastPapers : list PastPaper.t;
  userNoteViews : list UserNoteView.t;
  userPaperViews : list UserPaperView.t;
  assignments_id_seq : Z;
  userNoteViews_id_seq : Z;
  userPaperViews_id_seq : Z
}.

Definition withBase (p : Portal) (db : DB) : Portal :=
  mkPortal db (units p) (notes p) (pastPapers p) (userNoteViews p)
    (userPaperViews p) (assignments_id_seq p) (userNoteViews_id_seq p)
    (userPaperViews_id_seq p).

Definition Action (A : Type) : Type := Portal -> option (A * Portal).

Definition done {A} (a : A) : Action A := fun p => Some (a, p).

Definition andThen {A B} (q : Action A) (k : A -> Action B) : Action B :=
  fun p =>
    match q p with
    | Some (a, p') => k a p'
    | None => None
    end.

Notation "x <~ q ;; k" := (andThen q (fun x => k))
  (at level 61, q at next level, right associativity).

(** A read of the whole database. *)
Definition query {A} (rows : Portal -> A) : Action A :=
  fun p => Some (rows p, p).

(** A query on the three tables of [DB], run in the whole database. *)
Definition onBase {A} (q : Query A) : Action A :=
  fun p =>
    match q (base p) with
    | Some (a, db') => Some (a, withBase p db')
    | None => None
    end.

(** *** [markNoteAsViewed] *)

(** [db.insert(userNoteViews).values({...})]: a serial primary key, two
    foreign keys and the unique index [unique_note_view] on (note_id,
    user_id). *)
Definition insertUserNoteView (noteId userId : Z) (viewedAt : Date)
    : Action UserNoteView.t :=
  fun p =>
    let id := userNoteViews_id_seq p in
    if existsb (fun n => Note.id n =? noteId) (notes p)
       && existsb (fun u => User.id u =? userId) (users (base p))
       && negb (existsb (fun v => UserNoteView.id v =? id) (userNoteViews p))
       && negb (existsb (fun v => (UserNoteView.noteId v =? noteId)
                                  && (UserNoteView.userId v =? userId))
                  (userNoteViews p))
    then
      let row := UserNoteView.mk id noteId userId viewedAt in
      Some (row,
            mkPortal (base p) (units p) (notes p) (pastPapers p)
              (userNoteViews p ++ [row]) (userPaperViews p)
              (assignments_id_seq p) (id + 1) (userPaperViews_id_seq p))
    else None.

(** [markNoteAsViewed]; [now] is the value of [new Date()]. *)
Definition markNoteAsViewed (now : Date) (noteId userId : Z) : Action unit :=
  existing <~ query (fun p =>
      filter (fun v => (UserNoteView.noteId v =? noteId)
                       && (UserNoteView.userId v =? userId))
             (userNoteViews p)) ;;
  match firstRow existing with
  | Some _ => done tt
  | None =>
      _ <~ insertUserNoteView noteId userId now ;;
      done tt
  end.

(** The (note, user) pair of a view row. *)
Definition viewOf (v : UserNoteView.t) : Z * Z :=
  (UserNoteView.noteId v, UserNoteView.userId v).

Definition uniqueViews (p : Portal) : Prop :=
  NoDup (map viewOf (userNoteViews p)).

(** *** [getNotesByUnit] *)

Module NoteRow.
Record t := mk {
  id : Z;
  title : string;
  description : string;
  fileUrl : option string;
  unitCode : string;
  createdAt : Date;
  uploadedBy : string;
  uploaderImageUrl : option string;
  viewed : bool
}.
End NoteRow.

Definition noteRow (n : Note.t) (u : User.t) (v : option UserNoteView.t)
    : NoteRow.t :=
  NoteRow.mk (Note.id n) (Note.title n) (Note.description n)
    (Note.fileUrl n) (Note.unitCode n) (Note.createdAt n)
    (User.name u) (User.profileImageUrl u)
    (match v with Some _ => true | None => false end).

Definition viewOfNote (userId : Z) (n : Note.t) (v : UserNoteView.t) : bool :=
  (Note.id n =? UserNoteView.noteId v) && (UserNoteView.userId v =? userId).

Definition getNotesByUnit (unitCode : string) (userId : Z)
    : Action (list NoteRow.t) :=
  query (fun p =>
    orderByDesc NoteRow.createdAt
      (flat_map (fun n =>
         flat_map (fun nu =>
           map (fun nuv => noteRow n (snd nu) (snd nuv))
               (leftJoin (fun nu' v => viewOfNote userId (fst nu') v)
                  (userNoteViews p) nu))
           (innerJoin (fun n' u => Note.userId n' =? User.id u)
              (users (base p)) n))
         (filter (fun n => String.eqb (Note.unitCode n) unitCode)
            (notes p)))).

(** *** [createAssignment] *)

(** The validated body of the request, with the uploader. *)
Module InsertAssignment.
Record t := mk {
  title : string;
  description : string;
  deadline : Date;
  fileUrl : option string;
  unitCode : string;
  userId : Z
}.
End InsertAssignment.

(** [db.insert(assignments).values({...}).returning()]: a serial primary
    key, the foreign key to [users], and [created_at] defaulting to the
    time of the insert. *)
Definition insertAssignment (now : Date) (data : InsertAssignment.t)
    : Action Assignment.t :=
  fun p =>
    let db := base p in
    let id := assignments_id_seq p in
    if existsb (fun u => User.id u =? InsertAssignment.userId data) (users db)
       && negb (existsb (fun a => Assignment.id a =? id) (assignments db))
    then
      let row :=
        Assignment.mk id (InsertAssignment.title data)
          (InsertAssignment.description data)
          (InsertAssignment.deadline data) (InsertAssignment.fileUrl data)
          (InsertAssignment.unitCode data) (InsertAssignment.userId data)
          now in
      Some (row,
            mkPortal
              (mkDB (users db) (assignments db ++ [row])
                 (completedAssignments db) (completedAssignments_id_seq db))
              (units p) (notes p) (pastPapers p) (userNoteViews p)
              (userPaperViews p) (id + 1) (userNoteViews_id_seq p)
              (userPaperViews_id_seq p))
    else None.

(** What [createAssignment] returns: the inserted row, the uploader's
    name and [completed: false]. *)
Module CreatedAssignment.
Record t := mk {
  row : Assignment.t;
  uploadedBy : string;
  completed : bool
}.
End CreatedAssignment.

(** Reading [uploader.name] of [undefined] throws. *)
Definition createAssignment (now : Date) (data : InsertAssignment.t)
    : Action CreatedAssignment.t :=
  newAssignment <~ insertAssignment now data ;;
  uploader <~ onBase (select (fun db =>
      filter (fun u => User.id u =? InsertAssignment.userId data)
             (users db))) ;;
  match firstRow uploader with
  | Some u => done (CreatedAssignment.mk newAssignment (User.name u) false)
  | None => fun _ => None
  end.

(** *** [getDashboardStats] *)

(** Each count is the number of rows that the query counts. *)
Module DashboardStats.
Record t := mk {
  assignmentsCount : nat;
  notesCount : nat;
  pastPapersCount : nat;
  rank : Z;
  overdue : nat;
  pending : nat
}.
End DashboardStats.


(** The assignments that the user has no completion row for. *)
Definition uncompleted (userId : Z) (db : DB) : list Assignment.t :=
  filter (fun a => forallb (fun c => negb (completionOf userId a c))
                     (completedAssignments db))
         (assignments db).

(** *** [getUserActivities] *)

Module Activity.
Record t := mk {
  id : Z;
  type : string;
  title : string;
  unitCode : string;
  timestamp : Date
}.
End Activity.

Definition completedAssignmentsActivity (userId : Z) (p : Portal)
    : list Activity.t :=
  limit 5
    (orderByDesc Activity.timestamp
       (flat_map (fun c =>
          map (fun ca =>
                 Activity.mk (CompletedAssignment.id c) "assignment"
                   ("Completed Assignment: " ++ Assignment.title (snd ca))
                   (Assignment.unitCode (snd ca))
                   (CompletedAssignment.completedAt c))
              (innerJoin (fun c' a =>
                            CompletedAssignment.assignmentId c'
                            =? Assignment.id a)
                 (assignments (base p)) c))
          (filter (fun c => CompletedAssignment.userId c =? userId)
             (completedAssignments (base p))))).

Definition viewedNotesActivity (userId : Z) (p : Portal) : list Activity.t :=
  limit 5
    (orderByDesc Activity.timestamp
       (flat_map (fun v =>
          map (fun vn =>
                 Activity.mk (UserNoteView.id v) "note"
                   ("Viewed Note: " ++ Note.title (snd vn))
                   (Note.unitCode (snd vn))
                   (UserNoteView.viewedAt v))
              (innerJoin (fun v' n => UserNoteView.noteId v' =? Note.id n)
                 (notes p) v))
          (filter (fun v => UserNoteView.userId v =? userId)
             (userNoteViews p)))).

Definition viewedPapersActivity (userId : Z) (p : Portal) : list Activity.t :=
  limit 5
    (orderByDesc Activity.timestamp
       (flat_map (fun v =>
          map (fun vp =>
                 Activity.mk (UserPaperView.id v) "pastpaper"
                   ("Downloaded: " ++ PastPaper.title (snd vp))
                   (PastPaper.unitCode (snd vp))
                   (UserPaperView.viewedAt v))
              (innerJoin (fun v' pp =>
                            UserPaperView.paperId v' =? PastPaper.id pp)
                 (pastPapers p) v))
          (filter (fun v => UserPaperView.userId v =? userId)
             (userPaperViews p)))).

Definition byTimestampDesc (a b : Activity.t) : number :=
  Number.sub (getTime (Activity.timestamp b)) (getTime (Activity.timestamp a)).

Definition getUserActivities (userId : Z) : Action (list Activity.t) :=
  completed <~ query (completedAssignmentsActivity userId) ;;
  viewedNotes <~ query (viewedNotesActivity userId) ;;
  viewedPapers <~ query (viewedPapersActivity userId) ;;
  let allActivities :=
    firstn 10 (sort byTimestampDesc (completed ++ viewedNotes ++ viewedPapers))
  in
  done allActivities.

(** Later activities first. *)
Definition newerFirst (x y : Activity.t) : Prop :=
  Activity.timestamp y <= Activity.timestamp x.

Definition hasType (type : string) (a : Activity.t) : bool :=
  String.eqb (Activity.type a) type.

(** ** Passwords and login (server/auth.ts) *)

Module Hex.

(** The lower-case digit of a value below 16. *)
Definition digit (n : N) : ascii :=
  ascii_of_N (if (n <? 10)%N then 48 + n else 87 + n).

(** [buf.toString("hex")] *)
Fixpoint encode (bytes : list Byte.byte) : string :=
  match bytes with
  | [] => EmptyString
  | b :: rest =>
      let n := Byte.to_N b in
      String (digit (n / 16)) (String (digit (n mod 16)) (encode rest))
  end.

(** The value of a hexadecimal digit of either case. *)
Definition value (c : ascii) : option N :=
  let n := N_of_ascii c in
  if ((48 <=? n) && (n <=? 57))%N then Some (n - 48)%N
  else if ((97 <=? n) && (n <=? 102))%N then Some (n - 87)%N
  else if ((65 <=? n) && (n <=? 70))%N then Some (n - 55)%N
  else None.

(** [Buffer.from(s, "hex")]: the bytes of the leading pairs of digits;
    decoding stops at the first pair that is not hexadecimal. *)
Fixpoint decode (s : string) : list Byte.byte :=
  match s with
  | String c1 (String c2 rest) =>
      match value c1, value c2 with
      | Some h, Some l =>
          match Byte.of_N (16 * h + l) with
          | Some b => b :: decode rest
          | None => []
          end
      | _, _ => []
      end
  | _ => []
  end.

End Hex.

(** [s.split(".")] *)
Fixpoint splitDot (s : string) : list string :=
  match s with
  | EmptyString => [EmptyString]
  | String c rest =>
      if Ascii.eqb c "."
      then EmptyString :: splitDot rest
      else match splitDot rest with
           | piece :: pieces => String c piece :: pieces
           | [] => [String c EmptyString]
           end
  end.

Definition bytes_eqb (a b : list Byte.byte) : bool :=
  if list_eq_dec Byte.byte_eq_dec a b then true else false.

Section Passwords.

(** [scryptAsync(password, salt, 64)] of node:crypto. *)
Variable scrypt : string -> string -> list Byte.byte.

(** [hashPassword]; [random] is the value of [randomBytes(16)]. *)
Definition hashPassword (random : list Byte.byte) (password : string)
    : string :=
  let salt := Hex.encode random in
  let buf := scrypt password salt in
  (Hex.encode buf ++ "." ++ salt)%string.

(** [comparePasswords].  Without a second piece the salt is [undefined]
    and [scrypt] throws; [timingSafeEqual] throws on buffers of
    different lengths. *)
Definition comparePasswords (supplied stored : string) : option bool :=
  match splitDot stored with
  | hashed :: salt :: _ =>
      let hashedBuf := Hex.decode hashed in
      let suppliedBuf := scrypt supplied salt in
      if (length hashedBuf =? length suppliedBuf)%nat
      then Some (bytes_eqb hashedBuf suppliedBuf)
      else None
  | _ => None
  end.

(** The user object put in the session: [x || null] turns an empty
    string and a zero into [null]. *)
Definition orNullString (x : option string) : option string :=
  match x with
  | Some EmptyString => None
  | _ => x
  end.

Definition orNullNumber (x : option Z) : option Z :=
  match x with
  | Some 0 => None
  | _ => x
  end.

Definition userSession (user : User.t) : User.t :=
  User.mk (User.id user) (User.name user) (User.admissionNumber user)
    (User.password user) (orNullString (User.profileImageUrl user))
    (orNullNumber (User.rank user)) (orNullString (User.role user)).

(** What the strategy passes to [done]. *)
Inductive Verdict :=
| Accepted (user : User.t)
| Rejected
| Failed.

(** The verify callback of the local strategy. *)
Definition verify (name admissionNumber password : string) : Query Verdict :=
  exact <- getUserByCredentials name admissionNumber ;;
  user <- match exact with
          | Some u => ret (Some u)
          | None =>
              rows <- select (fun db =>
                  filter (fun u => String.eqb (User.admissionNumber u)
                                     admissionNumber)
                         (users db)) ;;
              ret (firstRow rows)
          end ;;
  match user with
  | None => ret Rejected
  | Some u =>
      match comparePasswords password (User.password u) with
      | None => ret Failed
      | Some false => ret Rejected
      | Some true => ret (Accepted (userSession u))
      end
  end.

(** The responses of PATCH /api/user/password. *)
Inductive PasswordResponse :=
| Unauthorized
| BadRequest (message : string)
| Updated (user : option User.t) (sessionPassword : string)
| NextError.

Definition falsy (x : option string) : bool :=
  match x with
  | None | Some EmptyString => true
  | Some _ => false
  end.

(** The string read from the body, once it is known to be there. *)
Definition string_of (x : option string) : string :=
  match x with
  | Some s => s
  | None => EmptyString
  end.

(** The handler; [sessionUser] is the id of [req.user] when the request
    is authenticated, [random] the value of [randomBytes(16)].  On
    success the hash is also put in the session's copy of the user. *)
Definition patchPassword (sessionUser : option Z)
    (currentPassword newPassword : option string)
    (random : list Byte.byte) : Query PasswordResponse :=
  match sessionUser with
  | None => ret Unauthorized
  | Some id =>
      if falsy currentPassword || falsy newPassword
      then ret (BadRequest "Current and new password required")
      else
        let current := string_of currentPassword in
        let new := string_of newPassword in
        user <- getUser id ;;
        match user with
        | None => ret (BadRequest "Current password is incorrect")
        | Some u =>
            match comparePasswords current (User.password u) with
            | None => ret NextError
            | Some false => ret (BadRequest "Current password is incorrect")
            | Some true =>
                let hashedPassword := hashPassword random new in
                updatedUser <- updateUserPassword (User.id u) hashedPassword ;;
                ret (Updated updatedUser hashedPassword)
            end
        end
  end.

End Passwords.

(** The admission numbers are unique ([admission_number ... UNIQUE]). *)
Definition uniqueAdmissionNumbers (db : DB) : Prop :=
  NoDup (map User.admissionNumber (users db)).

(** ** Seeding (server/seed.ts) *)

Module InsertUser.
Record t := mk {
  name : string;
  admissionNumber : string;
  password : string;
  profileImageUrl : option string;
  rank : option Z
}.
End InsertUser.

Module InsertUnit.
Record t := mk {
  unitCode : string;
  name : string;
  description : option string;
  category : string
}.
End InsertUnit.

(** [db.insert(users).values([...])], one statement: the rows draw
    their ids from the sequence, whose next value is [id]; [role] takes
    its default; the primary key and the unique admission number are
    checked for each row against the rows before it.  A violation
    throws, and then no row is inserted. *)
Fixpoint insertUsers (id : Z) (rows : list InsertUser.t) : Query unit :=
  match rows with
  | [] => ret tt
  | r :: rest =>
      fun db =>
        if negb (existsb (fun u => User.id u =? id) (users db))
           && negb (existsb (fun u => String.eqb (User.admissionNumber u)
                                        (InsertUser.admissionNumber r))
                      (users db))
        then
          insertUsers (id + 1) rest
            (mkDB (users db
                   ++ [User.mk id (InsertUser.name r)
                         (InsertUser.admissionNumber r)
                         (InsertUser.password r)
                         (InsertUser.profileImageUrl r) (InsertUser.rank r)
                         (Some "student"%string)])
               (assignments db) (completedAssignments db)
               (completedAssignments_id_seq db))
        else None
  end.

(** [db.insert(units).values([...])]: a serial primary key and the
    unique unit code. *)
Fixpoint insertUnits (id : Z) (rows : list InsertUnit.t) : Action unit :=
  match rows with
  | [] => done tt
  | r :: rest =>
      fun p =>
        if negb (existsb (fun u => Unit.id u =? id) (units p))
           && negb (existsb (fun u => String.eqb (Unit.unitCode u)
                                        (InsertUnit.unitCode r))
                      (units p))
        then
          insertUnits (id + 1) rest
            (mkPortal (base p)
               (units p
                ++ [Unit.mk id (InsertUnit.unitCode r) (InsertUnit.name r)
                      (InsertUnit.description r) (InsertUnit.category r)])
               (notes p) (pastPapers p) (userNoteViews p)
               (userPaperViews p) (assignments_id_seq p)
               (userNoteViews_id_seq p) (userPaperViews_id_seq p))
        else None
  end.

(** The rows as they are stored, with ids from [id] on. *)
Fixpoint usersFrom (id : Z) (rows : list InsertUser.t) : list User.t :=
  match rows with
  | [] => []
  | r :: rest =>
      User.mk id (InsertUser.name r) (InsertUser.admissionNumber r)
        (InsertUser.password r) (InsertUser.profileImageUrl r)
        (InsertUser.rank r) (Some "student"%string)
      :: usersFrom (id + 1) rest
  end.

Fixpoint unitsFrom (id : Z) (rows : list InsertUnit.t) : list Unit.t :=
  match rows with
  | [] => []
  | r :: rest =>
      Unit.mk id (InsertUnit.unitCode r) (InsertUnit.name r)
        (InsertUnit.description r) (InsertUnit.category r)
      :: unitsFrom (id + 1) rest
  end.

Definition seededUsers (defaultPassword : string) : list InsertUser.t :=
  [InsertUser.mk "John Doe" "SDS001" defaultPassword None (Some 1);
   InsertUser.mk "Jane Smith" "SDS002" defaultPassword None (Some 2);
   InsertUser.mk "Bob Johnson" "SDS003" defaultPassword None (Some 3)]%string.

Definition seededUnits : list InsertUnit.t :=
  [InsertUnit.mk "MAT2101" "Calculus"
     (Some "Advanced calculus for SDS students") "Mathematics";
   InsertUnit.mk "MAT2102" "Linear Algebra"
     (Some "Matrix operations and vector spaces") "Mathematics";
   InsertUnit.mk "STA2101" "Probability Theory"
     (Some "Introduction to probability concepts") "Statistics";
   InsertUnit.mk "DAT2101" "Database Systems"
     (Some "Relational database design and SQL") "Data Science";
   InsertUnit.mk "DAT2102" "Machine Learning Basics"
     (Some "Introduction to ML algorithms") "Data Science";
   InsertUnit.mk "HED2101" "Communication Skills"
     (Some "Effective communication for data scientists")
     "Humanities"]%string.

Section Seed.

Variable scrypt : string -> string -> list Byte.byte.

(** [seed]; [random] is the value of [randomBytes(16)], and
    [users_id_seq] and [units_id_seq] are the next values of the two
    sequences. *)
Definition seed (random : list Byte.byte) (users_id_seq units_id_seq : Z)
    : Action unit :=
  existingUsers <~ onBase (select users) ;;
  _ <~ (if (0 <? length existingUsers)%nat
        then done tt
        else
          let defaultPassword := hashPassword scrypt random "sds#website" in
          onBase (insertUsers users_id_seq (seededUsers defaultPassword))) ;;
  existingUnits <~ query units ;;
  _ <~ (if (0 <? length existingUnits)%nat
        then done tt
        else insertUnits units_id_seq seededUnits) ;;
  done tt.

End Seed.

(** ** The assignment card (client/src/components/AssignmentCard.tsx) *)

(** [isPast] of date-fns, when the clock reads [now]. *)
Definition isPast (now date : Date) : bool := date <? now.

Module Badge.
Inductive t := Completed | Overdue | Pending.
End Badge.

(** The card of a row of [getAssignmentsByUnit], rendered at [now]. *)
Definition isOverdue (now : Date) (assignment : AssignmentRow.t) : bool :=
  isPast now (AssignmentRow.deadline assignment)
  && negb (AssignmentRow.completed assignment).

Definition getStatusBadge (now : Date) (assignment : AssignmentRow.t)
    : Badge.t :=
  if AssignmentRow.completed assignment then Badge.Completed
  else if isOverdue now assignment then Badge.Overdue
  else Badge.Pending.

(** ** More sample data *)

Module Demo.
Import Sample.
Local Open Scope string_scope.
Local Open Scope Z_scope.

(** The listing of X after the completion of [Sample.dbOnce]. *)
Definition listed : list AssignmentRow.t :=
  Eval vm_compute in
    match getAssignmentsByUnit "MAT 2101" 7 dbOnce with
    | Some (rows, _) => rows
    | None => []
    end.

Definition listedA1 : AssignmentRow.t :=
  AssignmentRow.mk 1 "Problem set" "Exercises" (T0 + 24 * hour) None
    "MAT 2101" T0 "Teacher Account" true (Some (T0 + hour)).

(** A stand-in for scrypt: the bytes of the salt, then of the password,
    cut or padded to 64. *)
Definition toyScrypt (password salt : string) : list Byte.byte :=
  let bytes := list_byte_of_string (salt ++ password) in
  firstn 64 (bytes ++ repeat Byte.x00 64).

Definition random0 : list Byte.byte :=
  [Byte.x01; Byte.x23; Byte.x45; Byte.x67; Byte.x89; Byte.xab; Byte.xcd;
   Byte.xef; Byte.x10; Byte.x32; Byte.x54; Byte.x76; Byte.x98; Byte.xba;
   Byte.xdc; Byte.xfe].

Definition random1 : list Byte.byte := rev random0.

Definition hashedStudent : User.t :=
  User.mk 7 "X" "S007" (hashPassword toyScrypt random0 "sds#website") None
    (Some 2) (Some "student").

Definition legacyTeacher : User.t :=
  User.mk 1 "Teacher Account" "T001" "plaintext" None None (Some "teacher").

Definition accounts : DB := mkDB [legacyTeacher; hashedStudent] [A1; A2] [] 1.

Definition newHash : string := hashPassword toyScrypt random1 "n".

Definition accountsAfter : DB :=
  mkDB [legacyTeacher; setPassword newHash hashedStudent] [A1; A2] [] 1.

Definition calculus : Unit.t :=
  Unit.mk 1 "MAT 2101" "Integral Calculus"
    (Some "Advanced integration techniques and applications") "Mathematics".

Definition lecture : Note.t :=
  Note.mk 1 "Lecture 1" "Riemann sums" None "MAT 2101" 1 T0.

Definition portal : Portal :=
  mkPortal dbOnce [calculus] [lecture] [] [] [] 3 1 1.

Definition viewOnce : UserNoteView.t := UserNoteView.mk 1 1 7 (T0 + hour).

Definition portalViewed : Portal :=
  mkPortal dbOnce [calculus] [lecture] [] [viewOnce] [] 3 2 1.

Definition lectureRow : NoteRow.t :=
  NoteRow.mk 1 "Lecture 1" "Riemann sums" None "MAT 2101" T0
    "Teacher Account" None true.

Definition homework : InsertAssignment.t :=
  InsertAssignment.mk "Problem set 3" "Series" (T0 + 48 * hour) None
    "MAT 2101" 1.

Definition created : CreatedAssignment.t :=
  CreatedAssignment.mk
    (Assignment.mk 3 "Problem set 3" "Series" (T0 + 48 * hour) None
       "MAT 2101" 1 (T0 + 3 * hour))
    "Teacher Account" false.

Definition portalCreated : Portal :=
  Eval vm_compute in
    match createAssignment (T0 + 3 * hour) homework portal with
    | Some (_, p) => p
    | None => portal
    end.

(** The database after assignment 3 has been created and X has
    completed it. *)
Definition dbLater : DB :=
  Eval vm_compute in
    match completeAssignment (T0 + 4 * hour) 3 7 (base portalCreated) with
    | Some (_, db') => db'
    | None => base portalCreated
    end.

(** A database before the first run of [seed], and after it. *)
Definition fresh : Portal := mkPortal (mkDB [] [] [] 1) [] [] [] [] [] 1 1 1.

Definition seeded : Portal :=
  Eval vm_compute in
    match seed toyScrypt random0 1 1 fresh with
    | Some (_, p) => p
    | None => fresh
    end.

End Demo.
(** * Facts about numbers *)

Module NumberFacts.
Import Number.
Local Open Scope Q_scope.

Lemma pow2_pos (k : Z) : 0 < 2 ^ k.
Proof. apply Qpower_0_lt. reflexivity. Qed.

Lemma pow2_nonzero (k : Z) : ~ 2 ^ k == 0.
Proof. intro H. pose proof (pow2_pos k) as P. rewrite H in P. discriminate. Qed.

Lemma two_nonzero : ~ (2 : Q) == 0.
Proof. discriminate. Qed.

Lemma ilog2_lower (x : Q) : 0 < x -> 2 ^ ilog2 x <= x.
Proof.
  intros Hx. unfold ilog2.
  destruct (Qle_bool _ x) eqn:E.
  - now apply Qle_bool_iff.
  - clear E. destruct x as [n d]. simpl Qnum; simpl Qden.
    assert (Hn : (0 < n)%Z).
    { unfold Qlt in Hx. simpl in Hx. lia. }
    set (a := Z.log2 n). set (b := Z.log2 (Zpos d)).
    assert (Ha : (2 ^ a <= n)%Z) by (apply Z.log2_spec; exact Hn).
    assert (Hb : (Zpos d < 2 ^ (b + 1))%Z).
    { replace (b + 1)%Z with (Z.succ b) by lia. apply Z.log2_spec. lia. }
    assert (Ha0 : (0 <= a)%Z) by apply Z.log2_nonneg.
    assert (Hb0 : (0 <= b)%Z) by apply Z.log2_nonneg.
    replace (a - b - 1)%Z with (a - (b + 1))%Z by lia.
    rewrite Qpower_minus by exact two_nonzero.
    change (2 : Q) with (inject_Z 2).
    rewrite <- !Zpower_Qpower by lia.
    rewrite (Qmake_Qdiv n d).
    assert (Pa : (0 < 2 ^ a)%Z) by (apply Z.pow_pos_nonneg; lia).
    assert (Pb : (0 < 2 ^ (b + 1))%Z) by (apply Z.pow_pos_nonneg; lia).
    apply Qle_shift_div_l.
    + rewrite <- (Zlt_Qlt 0). lia.
    + unfold Qdiv. rewrite <- Qmult_assoc, (Qmult_comm (/ _)), Qmult_assoc.
      apply Qle_shift_div_r.
      * rewrite <- (Zlt_Qlt 0). exact Pb.
      * rewrite <- !inject_Z_mult, <- Zle_Qle. nia.
Qed.

Lemma rne_bounds (y : Q) : (Qfloor y <= rne y <= Qfloor y + 1)%Z.
Proof.
  unfold rne. destruct (_ ?= _); [destruct (Z.even _)| |]; lia.
Qed.

Lemma rne_close (y : Q) : Qabs (inject_Z (rne y) - y) <= 1 # 2.
Proof.
  pose proof (Qfloor_le y) as Hl. pose proof (Qlt_floor y) as Hu.
  rewrite inject_Z_plus in Hu. change (inject_Z 1) with 1 in Hu.
  unfold rne.
  destruct ((y - inject_Z (Qfloor y)) ?= 1 # 2) eqn:E.
  - apply Qeq_alt in E.
    destruct (Z.even (Qfloor y));
      [|rewrite inject_Z_plus; change (inject_Z 1) with 1];
      apply Qabs_Qle_condition;
      generalize dependent (inject_Z (Qfloor y)); intros; split; lra.
  - apply Qlt_alt in E. apply Qabs_Qle_condition.
    generalize dependent (inject_Z (Qfloor y)); intros; split; lra.
  - apply Qgt_alt in E. rewrite inject_Z_plus. change (inject_Z 1) with 1.
    apply Qabs_Qle_condition.
    generalize dependent (inject_Z (Qfloor y)); intros; split; lra.
Qed.

Lemma rne_compat (x y : Q) : x == y -> rne x = rne y.
Proof.
  intros H. unfold rne. rewrite (Qfloor_comp _ _ H).
  assert (E : (x - inject_Z (Qfloor y) ?= 1 # 2)
              = (y - inject_Z (Qfloor y) ?= 1 # 2)).
  { apply Qcompare_comp; [now rewrite H | reflexivity]. }
  now rewrite E.
Qed.

Lemma rne_inject (z : Z) : rne (inject_Z z) = z.
Proof.
  unfold rne. rewrite Qfloor_Z.
  assert (E : (inject_Z z - inject_Z z ?= 1 # 2) = Lt).
  { apply (proj1 (Qlt_alt _ _)). generalize (inject_Z z). intros. lra. }
  now rewrite E.
Qed.


Lemma scale_cancel (x : Q) (e : Z) : x * 2 ^ (- e) * 2 ^ e == x.
Proof.
  rewrite <- Qmult_assoc, <- Qpower_plus by exact two_nonzero.
  replace (- e + e)%Z with 0%Z by lia. simpl. ring.
Qed.

Lemma scaled_lower (x : Q) :
  0 < x -> 2 ^ 52 <= x * 2 ^ (- (ilog2 x - 52)).
Proof.
  intros Hx. pose proof (ilog2_lower x Hx) as Hk.
  set (k := ilog2 x) in *.
  replace (- (k - 52))%Z with (52 + - k)%Z by lia.
  rewrite Qpower_plus by exact two_nonzero.
  rewrite Qpower_opp.
  pose proof (pow2_pos k) as Pk. pose proof (pow2_pos 52) as Pc.
  generalize dependent (2 ^ k). generalize dependent (2 ^ 52).
  intros c Pc p Hp Pp.
  assert (H1 : 1 <= x / p).
  { apply Qle_shift_div_l; [exact Pp | lra]. }
  setoid_replace (x * (c * / p)) with (c * (x / p)) by (unfold Qdiv; ring).
  nra.
Qed.

Lemma rne_scaled_lower (x : Q) :
  0 < x -> (2 ^ 52 <= rne (x * 2 ^ (- (ilog2 x - 52))))%Z.
Proof.
  intros Hx. pose proof (scaled_lower x Hx) as H.
  apply Qfloor_resp_le in H.
  pose proof (rne_bounds (x * 2 ^ (- (ilog2 x - 52)))) as B.
  change (Qfloor (2 ^ 52)) with (2 ^ 52)%Z in H. lia.
Qed.

Lemma ilog2_upper (x : Q) : 0 < x -> x < 2 ^ (ilog2 x + 1).
Proof.
  intros Hx. unfold ilog2.
  assert (U : x < 2 ^ (Z.log2 (Qnum x) - Z.log2 (Zpos (Qden x)) + 1)).
  { destruct x as [n d]. simpl Qnum; simpl Qden.
    assert (Hn : (0 < n)%Z).
    { unfold Qlt in Hx. simpl in Hx. lia. }
    set (a := Z.log2 n). set (b := Z.log2 (Zpos d)).
    assert (Ha : (n < 2 ^ (a + 1))%Z).
    { replace (a + 1)%Z with (Z.succ a) by lia. now apply Z.log2_spec. }
    assert (Hb : (2 ^ b <= Zpos d)%Z) by (apply Z.log2_spec; lia).
    assert (Ha0 : (0 <= a)%Z) by apply Z.log2_nonneg.
    assert (Hb0 : (0 <= b)%Z) by apply Z.log2_nonneg.
    replace (a - b + 1)%Z with (a + 1 - b)%Z by lia.
    rewrite Qpower_minus by exact two_nonzero.
    change (2 : Q) with (inject_Z 2).
    rewrite <- !Zpower_Qpower by lia.
    rewrite (Qmake_Qdiv n d).
    assert (Pa : (0 < 2 ^ (a + 1))%Z) by (apply Z.pow_pos_nonneg; lia).
    assert (Pb : (0 < 2 ^ b)%Z) by (apply Z.pow_pos_nonneg; lia).
    apply Qlt_shift_div_l.
    - rewrite <- (Zlt_Qlt 0). exact Pb.
    - unfold Qdiv. rewrite <- Qmult_assoc, (Qmult_comm (/ _)), Qmult_assoc.
      apply Qlt_shift_div_r.
      + rewrite <- (Zlt_Qlt 0). lia.
      + rewrite <- !inject_Z_mult, <- Zlt_Qlt. nia. }
  destruct (Qle_bool _ x) eqn:E; [exact U |].
  match goal with |- _ < 2 ^ ?k => replace k
    with (Z.log2 (Qnum x) - Z.log2 (Zpos (Qden x)))%Z by lia end.
  apply Qnot_le_lt. intros H. apply Qle_bool_iff in H. congruence.
Qed.

Lemma scaled_upper (x : Q) :
  0 < x -> x * 2 ^ (- (ilog2 x - 52)) < 2 ^ 53.
Proof.
  intros Hx. pose proof (ilog2_upper x Hx) as Hk.
  set (k := ilog2 x) in *.
  replace 53%Z with (k + 1 + - (k - 52))%Z by lia.
  rewrite (Qpower_plus 2 (k + 1)) by exact two_nonzero.
  apply Qmult_lt_compat_r; [apply pow2_pos | exact Hk].
Qed.

Lemma rne_scaled_upper (x : Q) :
  0 < x -> (rne (x * 2 ^ (- (ilog2 x - 52))) <= 2 ^ 53)%Z.
Proof.
  intros Hx. pose proof (scaled_upper x Hx) as H.
  set (y := x * 2 ^ (- (ilog2 x - 52))) in *.
  pose proof (rne_bounds y) as B. pose proof (Qfloor_le y) as F.
  assert (L : (Qfloor y < 2 ^ 53)%Z).
  { rewrite Zlt_Qlt. apply Qle_lt_trans with y; [exact F | exact H]. }
  lia.
Qed.

(** The rounded value has a significand of 53 bits: it is a double. *)
Lemma round_pos_significand (x : Q) :
  0 < x ->
  exists m e, round_pos x = inject_Z m * 2 ^ e /\ (2 ^ 52 <= m <= 2 ^ 53)%Z.
Proof.
  intros Hx. exists (rne (x * 2 ^ (- (ilog2 x - 52)))), (ilog2 x - 52)%Z.
  split; [reflexivity |]. split.
  - now apply rne_scaled_lower.
  - now apply rne_scaled_upper.
Qed.

Lemma round_pos_pos (x : Q) : 0 < x -> 0 < round_pos x.
Proof.
  intros Hx. unfold round_pos.
  pose proof (rne_scaled_lower x Hx) as H.
  apply Qmult_lt_0_compat; [| apply pow2_pos].
  rewrite <- (Zlt_Qlt 0). lia.
Qed.

Lemma round_pos_error (x : Q) :
  0 < x -> Qabs (round_pos x - x) <= x * (1 # 2 ^ 53).
Proof.
  intros Hx. unfold round_pos.
  set (e := (ilog2 x - 52)%Z).
  pose proof (scaled_lower x Hx) as Hy. fold e in Hy.
  pose proof (rne_close (x * 2 ^ (- e))) as Hc.
  pose proof (scale_cancel x e) as Hs.
  pose proof (pow2_pos e) as Pe.
  set (y := x * 2 ^ (- e)) in *.
  set (m := inject_Z (rne y)) in *.
  apply Qabs_Qle_condition in Hc.
  change (2 ^ 52) with (4503599627370496 # 1) in Hy.
  change (1 # 2 ^ 53) with (1 # 9007199254740992).
  generalize dependent (2 ^ e). intros p Hs Pp.
  apply Qabs_Qle_condition.
  rewrite <- Hs at 2 3 4. 
  split; nra.
Qed.

Lemma round_pos_exact (x : Q) (z : Z) :
  (0 < z < 2 ^ 53)%Z -> x == inject_Z z -> round_pos x == x.
Proof.
  intros Hz Hxz.
  assert (Hx : 0 < x) by (rewrite Hxz, <- (Zlt_Qlt 0); lia).
  pose proof (ilog2_lower x Hx) as Hk.
  unfold round_pos. set (k := ilog2 x) in *.
  assert (Hk53 : (k < 53)%Z).
  { apply (Qpower_lt_compat_l_inv 2); [| reflexivity].
    apply Qle_lt_trans with x; [exact Hk |].
    rewrite Hxz. change (2 ^ 53) with (inject_Z (2 ^ 53)).
    rewrite <- Zlt_Qlt. lia. }
  set (e := (k - 52)%Z).
  assert (He : (0 <= - e)%Z) by lia.
  assert (Hy : x * 2 ^ (- e) == inject_Z (z * 2 ^ (- e))).
  { rewrite inject_Z_mult, Zpower_Qpower by lia. now rewrite Hxz. }
  rewrite (rne_compat _ _ Hy), rne_inject, <- Hy.
  apply scale_cancel.
Qed.


Lemma round53_compat (x y : Q) : x == y -> round53 x = round53 y.
Proof.
  intros H. unfold round53.
  assert (Hopp : - x == - y) by now rewrite H.
  pose proof (Qred_complete _ _ H) as R.
  pose proof (Qred_complete _ _ Hopp) as Ropp.
  unfold Qeq in H.
  destruct (Qnum x) eqn:Ex, (Qnum y) eqn:Ey; try lia; congruence.
Qed.

Lemma round53_0 (x : Q) : x == 0 -> round53 x = 0.
Proof. intros H. now rewrite (round53_compat _ _ H). Qed.

Lemma round53_pos (x : Q) : 0 < x -> 0 < round53 x.
Proof.
  intros Hx. unfold round53.
  destruct (Qnum x) eqn:E;
    try (exfalso; unfold Qlt in Hx; simpl in Hx; lia).
  rewrite Qred_correct. apply round_pos_pos. now rewrite Qred_correct.
Qed.

Lemma round53_neg (x : Q) : x < 0 -> round53 x < 0.
Proof.
  intros Hx. unfold round53.
  destruct (Qnum x) eqn:E;
    try (exfalso; unfold Qlt in Hx; simpl in Hx; lia).
  rewrite Qred_correct.
  assert (P : 0 < round_pos (Qred (- x))).
  { apply round_pos_pos. rewrite Qred_correct. lra. }
  lra.
Qed.

(** Rounding keeps the sign: this is what a comparator of the form
    [a - b] relies on. *)
Lemma ltb_0_round53 (x : Q) : ltb 0 (round53 x) = ltb 0 x.
Proof.
  unfold ltb.
  destruct (Qlt_le_dec 0 x) as [Hp | Hn].
  - pose proof (round53_pos x Hp) as P.
    destruct (Qle_bool (round53 x) 0) eqn:E1.
    + apply Qle_bool_iff in E1. lra.
    + destruct (Qle_bool x 0) eqn:E2; [| reflexivity].
      apply Qle_bool_iff in E2. lra.
  - assert (E2 : Qle_bool x 0 = true) by now apply Qle_bool_iff.
    rewrite E2.
    assert (E1 : Qle_bool (round53 x) 0 = true).
    { apply Qle_bool_iff. destruct (Qlt_le_dec x 0) as [Hlt | Hge].
      - apply Qlt_le_weak. now apply round53_neg.
      - rewrite (round53_0 x) by lra. lra. }
    now rewrite E1.
Qed.

Lemma ltb_0_sub (a b : number) : ltb 0 (sub a b) = ltb b a.
Proof.
  unfold sub. rewrite ltb_0_round53. unfold ltb.
  destruct (Qle_bool (a - b) 0) eqn:E1, (Qle_bool a b) eqn:E2;
    try reflexivity.
  - apply Qle_bool_iff in E1.
    assert (a <= b) by lra. apply Qle_bool_iff in H. congruence.
  - apply Qle_bool_iff in E2.
    assert (a - b <= 0) by lra. apply Qle_bool_iff in H. congruence.
Qed.

(** Integers below [2^53] in magnitude are numbers: rounding returns
    them unchanged. *)
Lemma round53_exact (x : Q) (z : Z) :
  (Z.abs z < 2 ^ 53)%Z -> x == inject_Z z -> round53 x == x.
Proof.
  intros Hz Hx. unfold round53.
  destruct (Qnum x) eqn:E.
  - destruct x as [n d]. simpl in E. subst n. reflexivity.
  - assert (P : 0 < x).
    { destruct x as [n d]. simpl in E. subst n. reflexivity. }
    rewrite !Qred_correct in *. rewrite <- (Qred_correct x) at 2.
    apply (round_pos_exact _ z); [| now rewrite Qred_correct].
    rewrite Hx, <- (Zlt_Qlt 0) in P. lia.
  - assert (P : x < 0).
    { destruct x as [n d]. simpl in E. subst n. reflexivity. }
    rewrite Qred_correct.
    rewrite (round_pos_exact (Qred (- x)) (- z)).
    + rewrite Qred_correct. ring.
    + rewrite Hx, <- (Zlt_Qlt _ 0) in P. lia.
    + rewrite Qred_correct, Hx, inject_Z_opp. reflexivity.
Qed.

(** One rounding moves a value by at most [2^-53] of its magnitude. *)
Lemma round53_error (x : Q) :
  Qabs (round53 x - x) <= Qabs x * (1 # 2 ^ 53).
Proof.
  unfold round53.
  destruct (Qnum x) eqn:E.
  - assert (Hx : x == 0).
    { destruct x as [n d]. simpl in E. subst n. reflexivity. }
    rewrite Hx. discriminate.
  - assert (P : 0 < Qred x).
    { rewrite Qred_correct. destruct x as [n d]. simpl in E. subst n.
      reflexivity. }
    pose proof (round_pos_error _ P) as H.
    set (r := round_pos (Qred x)) in *.
    rewrite Qred_correct in *.
    now rewrite (Qabs_pos x) by lra.
  - assert (P : 0 < Qred (- x)).
    { rewrite Qred_correct. destruct x as [n d]. simpl in E. subst n.
      reflexivity. }
    pose proof (round_pos_error _ P) as H.
    set (r := round_pos (Qred (- x))) in *.
    rewrite Qred_correct in *.
    rewrite (Qabs_neg x) by lra.
    setoid_replace (- r - x) with (- (r - - x)) by ring.
    rewrite Qabs_opp. exact H.
Qed.

End NumberFacts.

(** * Facts about [sort] *)

Section SortFacts.
Context {A : Type}.
Variable compareFn : A -> A -> number.
Variable key : A -> Q.

(** The comparator orders by [key]: [compareFn x y > 0] exactly when
    [key y < key x]. *)
Hypothesis compareFn_key :
  forall x y, Number.ltb 0%Q (compareFn x y) = Number.ltb (key y) (key x).

Lemma insert_perm (x : A) (l : list A) :
  Permutation (x :: l) (insert compareFn x l).
Proof.
  induction l as [| y l IH]; simpl.
  - apply Permutation_refl.
  - destruct (Number.ltb 0%Q (compareFn x y)).
    + eapply perm_trans; [apply perm_swap |]. now apply perm_skip.
    + apply Permutation_refl.
Qed.

Lemma sort_perm (l : list A) : Permutation l (sort compareFn l).
Proof.
  induction l as [| x l IH]; simpl.
  - apply perm_nil.
  - eapply perm_trans; [apply perm_skip, IH | apply insert_perm].
Qed.

Lemma sort_length (l : list A) : length (sort compareFn l) = length l.
Proof. symmetry. apply Permutation_length, sort_perm. Qed.

Lemma sort_In (x : A) (l : list A) : In x (sort compareFn l) <-> In x l.
Proof.
  split; apply Permutation_in;
    [apply Permutation_sym |]; apply sort_perm.
Qed.

Lemma insert_sorted (x : A) (l : list A) :
  StronglySorted (key_le key) l ->
  StronglySorted (key_le key) (insert compareFn x l).
Proof.
  induction 1 as [| y l Hs IH Hy]; simpl.
  - constructor; [constructor | constructor].
  - rewrite compareFn_key. unfold Number.ltb.
    destruct (Qle_bool (key x) (key y)) eqn:E; simpl.
    + apply Qle_bool_iff in E.
      constructor; [now constructor |].
      constructor; [exact E |].
      eapply Forall_impl; [| exact Hy].
      intros z Hz. unfold key_le in *. lra.
    + assert (Hyx : (key y <= key x)%Q).
      { destruct (Qlt_le_dec (key y) (key x)) as [H1 | H1];
          [now apply Qlt_le_weak |].
        apply Qle_bool_iff in H1. congruence. }
      constructor; [exact IH |].
      apply (Permutation_Forall (insert_perm x l)).
      constructor; assumption.
Qed.

Lemma sort_sorted (l : list A) : StronglySorted (key_le key) (sort compareFn l).
Proof.
  induction l as [| x l IH]; simpl.
  - constructor.
  - now apply insert_sorted.
Qed.

(** Stability: the elements of one key keep their order. *)
Lemma insert_stable (v : Q) (x : A) (l : list A) :
  filter (fun y => Qeq_bool (key y) v) (insert compareFn x l)
  = filter (fun y => Qeq_bool (key y) v) (x :: l).
Proof.
  induction l as [| y l IH]; [reflexivity |].
  simpl insert. rewrite compareFn_key. unfold Number.ltb.
  destruct (Qle_bool (key x) (key y)) eqn:E; [reflexivity |].
  simpl negb. cbv iota.
  change (filter ?p (y :: ?t))
    with (if p y then y :: filter p t else filter p t).
  rewrite IH. simpl.
  destruct (Qeq_bool (key y) v) eqn:Ey, (Qeq_bool (key x) v) eqn:Ex;
    try reflexivity.
  apply Qeq_bool_iff in Ey, Ex.
  assert (H : (key x <= key y)%Q) by lra.
  apply Qle_bool_iff in H. congruence.
Qed.

Lemma sort_stable (v : Q) (l : list A) :
  filter (fun y => Qeq_bool (key y) v) (sort compareFn l)
  = filter (fun y => Qeq_bool (key y) v) l.
Proof.
  induction l as [| x l IH]; [reflexivity |].
  simpl sort. rewrite insert_stable. simpl. now rewrite IH.
Qed.

End SortFacts.

(** * Facts about [JsMap] *)

Module JsMapFacts.
Import JsMap.

Lemma mem_In (k : Z) (ks : list Z) : mem k ks = true <-> In k ks.
Proof.
  unfold mem. rewrite existsb_exists. split.
  - intros [x [Hx E]]. apply Z.eqb_eq in E. now subst.
  - intros H. exists k. split; [exact H | apply Z.eqb_refl].
Qed.

Lemma mem_false (k : Z) (ks : list Z) : mem k ks = false <-> ~ In k ks.
Proof.
  rewrite <- mem_In. destruct (mem k ks); split; congruence.
Qed.

Lemma has_tab {V} (f : Z -> V) (k : Z) (ks : list Z) :
  has k (tab f ks) = mem k ks.
Proof.
  unfold has, tab, mem. induction ks as [| k' ks IH]; simpl; congruence.
Qed.

Lemma get_tab {V} (f : Z -> V) (k : Z) (ks : list Z) :
  get k (tab f ks) = if mem k ks then Some (f k) else None.
Proof.
  unfold get, tab, mem. induction ks as [| k' ks IH]; simpl; [reflexivity |].
  destruct (k' =? k) eqn:E; simpl.
  - apply Z.eqb_eq in E. now subst.
  - exact IH.
Qed.

Lemma set_new {V} (k : Z) (v : V) (m : t V) :
  has k m = false -> set k v m = m ++ [(k, v)].
Proof.
  unfold has. induction m as [| [k' v'] m IH]; simpl; [reflexivity |].
  destruct (k' =? k); simpl; [discriminate |].
  intros H. now rewrite IH.
Qed.

Lemma get_last {V} (k : Z) (v : V) (m : t V) :
  has k m = false -> get k (m ++ [(k, v)]) = Some v.
Proof.
  unfold has, get. induction m as [| [k' v'] m IH]; simpl.
  - now rewrite Z.eqb_refl.
  - destruct (k' =? k); simpl; [discriminate | exact IH].
Qed.

Lemma set_last {V} (k : Z) (v w : V) (m : t V) :
  has k m = false -> set k w (m ++ [(k, v)]) = m ++ [(k, w)].
Proof.
  unfold has. induction m as [| [k' v'] m IH]; simpl.
  - now rewrite Z.eqb_refl.
  - destruct (k' =? k); simpl; [discriminate |].
    intros H. now rewrite IH.
Qed.

Lemma tab_ext {V} (f g : Z -> V) (ks : list Z) :
  (forall k, In k ks -> f k = g k) -> tab f ks = tab g ks.
Proof.
  intros H. unfold tab. apply map_ext_in. intros k Hk. now rewrite H.
Qed.

Lemma set_tab {V} (f : Z -> V) (k : Z) (v : V) (ks : list Z) :
  NoDup ks -> In k ks ->
  set k v (tab f ks) = tab (fun k' => if k' =? k then v else f k') ks.
Proof.
  induction 1 as [| k' ks Hk' Hnd IH]; simpl; [tauto |].
  intros Hin. destruct (k' =? k) eqn:E.
  - apply Z.eqb_eq in E. subst k'. f_equal.
    apply tab_ext. intros j Hj.
    destruct (j =? k) eqn:E'; [| reflexivity].
    apply Z.eqb_eq in E'. now subst.
  - f_equal. apply IH. destruct Hin as [-> | Hin]; [| exact Hin].
    now rewrite Z.eqb_refl in E.
Qed.

End JsMapFacts.

(** * [groupCompletions] computes [groupsOf] *)

Lemma uniq_In (x : Z) (l : list Z) : In x (uniq l) <-> In x l.
Proof.
  induction l as [| a l IH]; simpl; [tauto |].
  rewrite filter_In, IH, negb_true_iff, Z.eqb_neq.
  destruct (Z.eq_dec a x); intuition congruence.
Qed.

Lemma uniq_NoDup (l : list Z) : NoDup (uniq l).
Proof.
  induction l as [| a l IH]; simpl; constructor.
  - rewrite filter_In, negb_true_iff, Z.eqb_neq. tauto.
  - now apply NoDup_filter.
Qed.

Lemma uniq_snoc (l : list Z) (x : Z) :
  uniq (l ++ [x]) = if JsMap.mem x l then uniq l else uniq l ++ [x].
Proof.
  induction l as [| a l IH]; simpl; [reflexivity |].
  rewrite IH. destruct (a =? x) eqn:E; simpl.
  - apply Z.eqb_eq in E. subst a.
    destruct (JsMap.mem x l); [reflexivity |].
    rewrite filter_app. simpl. rewrite Z.eqb_refl. simpl.
    now rewrite app_nil_r.
  - destruct (JsMap.mem x l); [reflexivity |].
    rewrite filter_app. simpl. rewrite Z.eqb_sym, E. reflexivity.
Qed.

Lemma mem_uniq (x : Z) (l : list Z) : JsMap.mem x (uniq l) = JsMap.mem x l.
Proof.
  destruct (JsMap.mem x l) eqn:E.
  - apply JsMapFacts.mem_In, uniq_In, JsMapFacts.mem_In, E.
  - apply JsMapFacts.mem_false. rewrite uniq_In. now apply JsMapFacts.mem_false.
Qed.

Lemma rowsOfUser_nil (uid : Z) (rows : list UserCompletion.t) :
  ~ In uid (map UserCompletion.userId rows) -> rowsOfUser uid rows = [].
Proof.
  intros H. unfold rowsOfUser.
  induction rows as [| c rows IH]; simpl in *; [reflexivity |].
  destruct (UserCompletion.userId c =? uid) eqn:E.
  - apply Z.eqb_eq in E. tauto.
  - apply IH. tauto.
Qed.

Lemma rowsOfUser_cons (uid : Z) (rows : list UserCompletion.t) :
  In uid (map UserCompletion.userId rows) ->
  exists c rest, rowsOfUser uid rows = c :: rest.
Proof.
  unfold rowsOfUser.
  induction rows as [| c rows IH]; simpl; [tauto |].
  intros [H | H].
  - rewrite H, Z.eqb_refl. eauto.
  - destruct (UserCompletion.userId c =? uid); eauto.
Qed.

Section GroupingFacts.
Import JsMap JsMapFacts.

Variable formatDistance : Date -> Date -> string.
Variable unitAssignments : list Assignment.t.


Lemma entriesOf_snoc (rows : list UserCompletion.t) (c : UserCompletion.t)
    (e : Completion.t) :
  entryOf formatDistance unitAssignments c = Some e ->
  entriesOf formatDistance unitAssignments (rows ++ [c])
  = entriesOf formatDistance unitAssignments rows ++ [e].
Proof.
  intros H. unfold entriesOf. rewrite flat_map_app. simpl.
  now rewrite H.
Qed.

Lemma groupCompletions_snoc (cs : list UserCompletion.t)
    (c : UserCompletion.t) :
  groupCompletions formatDistance unitAssignments (cs ++ [c])
  = addCompletion formatDistance unitAssignments
      (groupCompletions formatDistance unitAssignments cs) c.
Proof. unfold groupCompletions. now rewrite fold_left_app. Qed.

(** The loop computes the declarative grouping. *)
Lemma groupCompletions_groupsOf (cs : list UserCompletion.t) :
  groupCompletions formatDistance unitAssignments cs
  = groupsOf formatDistance unitAssignments cs.
Proof.
  induction cs as [| c cs IH] using rev_ind; [reflexivity |].
  rewrite groupCompletions_snoc, IH. clear IH.
  unfold addCompletion, groupsOf, resolved.
  rewrite filter_app. simpl filter.
  destruct (findAssignment unitAssignments (UserCompletion.assignmentId c))
    as [a |] eqn:Ea.
  2: { assert (Hres : resolves unitAssignments c = false)
         by (unfold resolves; now rewrite Ea).
       now rewrite Hres, app_nil_r. }
  assert (Hres : resolves unitAssignments c = true)
    by (unfold resolves; now rewrite Ea).
  rewrite Hres.
  set (rows := filter (resolves unitAssignments) cs).
  set (uid := UserCompletion.userId c).
  set (e := Completion.mk _ _ _ _ _).
  assert (He : entryOf formatDistance unitAssignments c = Some e).
  { unfold entryOf. now rewrite Ea. }
  assert (Hids : userIdsOf (rows ++ [c])
                 = if mem uid (userIdsOf rows) then userIdsOf rows
                   else userIdsOf rows ++ [uid]).
  { unfold userIdsOf. rewrite map_app. simpl. rewrite uniq_snoc.
    now rewrite mem_uniq. }
  rewrite Hids, has_tab.
  destruct (mem uid (userIdsOf rows)) eqn:Hm.
  - (* the user already has a group *)
    rewrite get_tab, Hm.
    assert (Hin : In uid (userIdsOf rows)) by now apply mem_In.
    rewrite set_tab by (exact Hin || apply uniq_NoDup).
    apply tab_ext. intros k _.
    unfold groupOf, rowsOfUser. rewrite filter_app. simpl.
    destruct (k =? uid) eqn:Ek.
    + apply Z.eqb_eq in Ek. subst k. fold uid. rewrite Z.eqb_refl.
      apply uniq_In, rowsOfUser_cons in Hin.
      destruct Hin as [c0 [rest Hr]]. unfold rowsOfUser in Hr. rewrite Hr.
      unfold pushCompletion, push. simpl UserData.completions.
      simpl. f_equal.
      now rewrite (entriesOf_snoc _ _ _ He), app_assoc.
    + fold uid. rewrite Z.eqb_sym, Ek. now rewrite app_nil_r.
  - (* first row of this user *)
    assert (Hnot : ~ In uid (map UserCompletion.userId rows)).
    { intros H. apply uniq_In in H. apply mem_false in Hm. tauto. }
    assert (Hhas : has uid (tab (groupOf formatDistance unitAssignments rows)
                              (userIdsOf rows)) = false).
    { now rewrite has_tab. }
    rewrite (set_new _ _ _ Hhas), (get_last _ _ _ Hhas),
      (set_last _ _ _ _ Hhas).
    unfold tab. rewrite map_app. simpl. f_equal.
    + apply map_ext_in. intros k Hk. f_equal.
      unfold groupOf, rowsOfUser. rewrite filter_app. simpl.
      fold uid. destruct (uid =? k) eqn:Ek; [| now rewrite app_nil_r].
      apply Z.eqb_eq in Ek. subst k. apply mem_false in Hm. tauto.
    + unfold groupOf. unfold rowsOfUser at 1 2 3.
      rewrite filter_app. fold (rowsOfUser uid rows).
      rewrite (rowsOfUser_nil _ _ Hnot). simpl. fold uid.
      rewrite Z.eqb_refl. unfold pushCompletion, push. simpl.
      unfold entryOf in He.
      unfold entriesOf. simpl. unfold entryOf.
      rewrite Ea. reflexivity.
Qed.

End GroupingFacts.

(** * Facts about the returned array *)

Lemma StronglySorted_nth {A} (R : A -> A -> Prop) (l : list A) :
  StronglySorted R l ->
  forall i j x y, (i < j)%nat ->
    nth_error l i = Some x -> nth_error l j = Some y -> R x y.
Proof.
  induction 1 as [| a l Hs IH Ha]; intros i j x y Hij Hx Hy.
  - destruct i; discriminate.
  - destruct j as [| j]; [lia |]. simpl in Hy.
    destruct i as [| i]; simpl in Hx.
    + injection Hx as <-. rewrite Forall_forall in Ha.
      apply Ha. eapply nth_error_In; eauto.
    + apply (IH i j); [lia | assumption | assumption].
Qed.

Section ResultFacts.
Import JsMap JsMapFacts NumberFacts.

Variable formatDistance : Date -> Date -> string.

Lemma assignPositions_length (n : nat) (l : list Ranking.t) :
  length (assignPositions n l) = length l.
Proof.
  revert n. induction l as [| r l IH]; intros n; simpl; [reflexivity |].
  now rewrite IH.
Qed.

Lemma assignPositions_nth (n : nat) (l : list Ranking.t) (i : nat) :
  nth_error (assignPositions n l) i
  = option_map (fun r => setPosition r (n + i)) (nth_error l i).
Proof.
  revert n i. induction l as [| r l IH]; intros n i; simpl.
  - now destruct i.
  - destruct i as [| i]; simpl.
    + now rewrite Nat.add_0_r.
    + rewrite IH. now replace (S n + i)%nat with (n + S i)%nat by lia.
Qed.

Lemma assignPositions_In (n : nat) (l : list Ranking.t) (r' : Ranking.t) :
  In r' (assignPositions n l) ->
  exists r i, In r l /\ r' = setPosition r i.
Proof.
  intros H. apply In_nth_error in H. destruct H as [i H].
  rewrite assignPositions_nth in H.
  destruct (nth_error l i) as [r |] eqn:E; [| discriminate].
  injection H as <-. exists r, (n + i)%nat. split; [| reflexivity].
  eapply nth_error_In; eauto.
Qed.

Lemma assignPositions_position (n : nat) (l : list Ranking.t) :
  map Ranking.position (assignPositions n l)
  = map Some (seq (S n) (length l)).
Proof.
  revert n. induction l as [| r l IH]; intros n; simpl; [reflexivity |].
  rewrite IH. now replace (n + 1)%nat with (S n) by lia.
Qed.

Lemma assignPositions_userId (n : nat) (l : list Ranking.t) :
  map Ranking.userId (assignPositions n l) = map Ranking.userId l.
Proof.
  revert n. induction l as [| r l IH]; intros n; simpl; [reflexivity |].
  now rewrite IH.
Qed.

Lemma byTotalMilliseconds_key (x y : Ranking.t) :
  Number.ltb 0%Q (byTotalMilliseconds x y)
  = Number.ltb (Ranking.totalMilliseconds y) (Ranking.totalMilliseconds x).
Proof. apply ltb_0_sub. Qed.

Lemma byCompletedAtDesc_key (x y : Completion.t) :
  Number.ltb 0%Q (byCompletedAtDesc x y) = Number.ltb (recency y) (recency x).
Proof.
  unfold byCompletedAtDesc. rewrite ltb_0_sub.
  unfold Number.ltb, recency, getTime, Number.of_Z. f_equal.
  set (a := inject_Z (Completion.completedAt x)).
  set (b := inject_Z (Completion.completedAt y)).
  destruct (Qle_bool b a) eqn:E1, (Qle_bool (- a) (- b)) eqn:E2;
    try reflexivity.
  - apply Qle_bool_iff in E1. assert (H : (- a <= - b)%Q) by lra.
    apply Qle_bool_iff in H. congruence.
  - apply Qle_bool_iff in E2. assert (H : (b <= a)%Q) by lra.
    apply Qle_bool_iff in H. congruence.
Qed.

Lemma rankUsers_unsorted (unitAssignments : list Assignment.t)
    (userCompletions : list UserCompletion.t) :
  rankUsers formatDistance unitAssignments userCompletions
  = assignPositions 0
      (sort byTotalMilliseconds
         (unsorted formatDistance unitAssignments userCompletions)).
Proof.
  unfold rankUsers. rewrite groupCompletions_groupsOf.
  unfold groupsOf, values, tab, unsorted. now rewrite !map_map.
Qed.

Lemma resolved_no_assignments (userCompletions : list UserCompletion.t) :
  resolved [] userCompletions = [].
Proof.
  unfold resolved. induction userCompletions as [| c cs IH]; [reflexivity |].
  simpl. exact IH.
Qed.

(** The early return agrees with the general path. *)
Lemma rankingsOf_unsorted (unitAssignments : list Assignment.t)
    (userCompletions : list UserCompletion.t) :
  rankingsOf formatDistance unitAssignments userCompletions
  = assignPositions 0
      (sort byTotalMilliseconds
         (unsorted formatDistance unitAssignments userCompletions)).
Proof.
  unfold rankingsOf. destruct unitAssignments as [| a l].
  - simpl. unfold unsorted. now rewrite resolved_no_assignments.
  - simpl. apply rankUsers_unsorted.
Qed.

Lemma unsorted_userId (unitAssignments : list Assignment.t)
    (userCompletions : list UserCompletion.t) :
  map Ranking.userId
    (unsorted formatDistance unitAssignments userCompletions)
  = userIdsOf (resolved unitAssignments userCompletions).
Proof.
  unfold unsorted. rewrite map_map. simpl. apply map_id.
Qed.

End ResultFacts.

(** * Properties of the ranking computation *)

Lemma rowsOfUser_resolved (unitAssignments : list Assignment.t)
    (uid : Z) (cs : list UserCompletion.t) :
  Forall (fun c => resolves unitAssignments c = true)
    (rowsOfUser uid (resolved unitAssignments cs)).
Proof.
  apply Forall_forall. intros c Hc.
  unfold rowsOfUser, resolved in Hc. rewrite !filter_In in Hc. tauto.
Qed.

Section RankingProperties.
Import JsMap JsMapFacts NumberFacts.

Variable formatDistance : Date -> Date -> string.

Lemma entriesOf_In (unitAssignments : list Assignment.t)
    (rows : list UserCompletion.t) (e : Completion.t) :
  In e (entriesOf formatDistance unitAssignments rows) <->
  exists c, In c rows /\ entryOf formatDistance unitAssignments c = Some e.
Proof.
  unfold entriesOf. rewrite in_flat_map. split.
  - intros [c [Hc He]]. exists c. split; [exact Hc |].
    destruct (entryOf formatDistance unitAssignments c) as [e' |];
      simpl in He; [| tauto].
    destruct He as [-> | []]. reflexivity.
  - intros [c [Hc He]]. exists c. split; [exact Hc |].
    rewrite He. now left.
Qed.

Lemma entriesOf_length (unitAssignments : list Assignment.t)
    (rows : list UserCompletion.t) :
  Forall (fun c => resolves unitAssignments c = true) rows ->
  length (entriesOf formatDistance unitAssignments rows) = length rows.
Proof.
  induction 1 as [| c rows Hc Hrows IH]; [reflexivity |].
  unfold entriesOf in *. simpl. rewrite length_app, IH.
  unfold resolves in Hc. unfold entryOf.
  now destruct (findAssignment unitAssignments (UserCompletion.assignmentId c)).
Qed.

(** Every entry comes from one user of [userIdsOf]. *)
Lemma rankingsOf_In (unitAssignments : list Assignment.t)
    (userCompletions : list UserCompletion.t) (r : Ranking.t) :
  In r (rankingsOf formatDistance unitAssignments userCompletions) ->
  exists i,
    In (Ranking.userId r)
       (userIdsOf (resolved unitAssignments userCompletions)) /\
    r = setPosition
          (rankingOf formatDistance
             (groupOf formatDistance unitAssignments
                (resolved unitAssignments userCompletions)
                (Ranking.userId r))) i.
Proof.
  rewrite rankingsOf_unsorted. intros H.
  apply assignPositions_In in H. destruct H as [r0 [i [H0 ->]]].
  apply sort_In in H0. unfold unsorted in H0. apply in_map_iff in H0.
  destruct H0 as [uid [<- Huid]]. exists i. simpl. tauto.
Qed.

(** C1. The array returned by [getUnitRankings] is in ascending order of
    average completion latency: the entry at index [i] has an average
    ([totalMilliseconds]) at most that of the entry at index [i + 1]. *)
Theorem rankings_sorted_by_average
    (unitAssignments : list Assignment.t)
    (userCompletions : list UserCompletion.t)
    (i : nat) (a b : Ranking.t) :
  nth_error (rankingsOf formatDistance unitAssignments userCompletions) i
    = Some a ->
  nth_error (rankingsOf formatDistance unitAssignments userCompletions) (S i)
    = Some b ->
  (Ranking.totalMilliseconds a <= Ranking.totalMilliseconds b)%Q.
Proof.
  rewrite rankingsOf_unsorted, !assignPositions_nth.
  set (l := sort _ _).
  destruct (nth_error l i) as [x |] eqn:Ex; [| discriminate].
  destruct (nth_error l (S i)) as [y |] eqn:Ey; [| discriminate].
  intros [= <-] [= <-]. simpl.
  assert (Hs : StronglySorted (key_le Ranking.totalMilliseconds) l).
  { apply sort_sorted. exact byTotalMilliseconds_key. }
  apply (StronglySorted_nth _ _ Hs i (S i)); auto.
Qed.

(** C3. In the array returned by [getUnitRankings] the [position] of the
    entry at index [i] is [i + 1]: the positions are 1, 2, ..., N in this
    order, whatever the averages are. *)
Theorem rankings_positions_dense
    (unitAssignments : list Assignment.t)
    (userCompletions : list UserCompletion.t) :
  map Ranking.position
      (rankingsOf formatDistance unitAssignments userCompletions)
  = map Some
      (seq 1 (length
                (rankingsOf formatDistance unitAssignments userCompletions))).
Proof.
  rewrite rankingsOf_unsorted.
  now rewrite assignPositions_position, assignPositions_length.
Qed.

(** C4. The user ids of the returned entries enumerate, without
    repetition, exactly the user ids of the rows whose assignment
    resolves; so the number of entries is the number of distinct such
    ids, and each entry counts the resolving rows of its user. *)
Theorem rankings_one_entry_per_user
    (unitAssignments : list Assignment.t)
    (userCompletions : list UserCompletion.t) :
  let result := rankingsOf formatDistance unitAssignments userCompletions in
  let rows := resolved unitAssignments userCompletions in
  NoDup (map Ranking.userId result)
  /\ (forall uid,
        In uid (map Ranking.userId result) <->
        exists c, In c userCompletions
                  /\ resolves unitAssignments c = true
                  /\ UserCompletion.userId c = uid)
  /\ length result = length (userIdsOf rows)
  /\ (forall r, In r result ->
        Ranking.completedAssignments r
        = length (rowsOfUser (Ranking.userId r) rows)).
Proof.
  intros result rows.
  assert (P : Permutation (userIdsOf rows) (map Ranking.userId result)).
  { unfold result, rows. rewrite rankingsOf_unsorted, assignPositions_userId.
    rewrite <- (unsorted_userId formatDistance). apply Permutation_map.
    apply sort_perm. }
  split; [| split; [| split]].
  - apply (Permutation_NoDup P). apply uniq_NoDup.
  - intros uid. split.
    + intros H. apply (Permutation_in _ (Permutation_sym P)) in H.
      apply uniq_In, in_map_iff in H. destruct H as [c [Hc Hin]].
      apply filter_In in Hin. exists c. tauto.
    + intros [c [Hin [Hres Hc]]].
      apply (Permutation_in _ P). apply uniq_In, in_map_iff.
      exists c. split; [exact Hc |]. apply filter_In. tauto.
  - rewrite <- (length_map Ranking.userId). symmetry.
    now apply Permutation_length.
  - intros r Hr. apply rankingsOf_In in Hr. destruct Hr as [i [_ ->]].
    simpl. apply entriesOf_length, rowsOfUser_resolved.
Qed.

Lemma resolved_skip (unitAssignments : list Assignment.t)
    (before after : list UserCompletion.t) (c : UserCompletion.t) :
  resolves unitAssignments c = false ->
  resolved unitAssignments (before ++ c :: after)
  = resolved unitAssignments (before ++ after).
Proof.
  intros H. unfold resolved. rewrite !filter_app. simpl. now rewrite H.
Qed.

(** C5. A row whose [assignmentId] is not found among the unit's
    assignments is skipped: the call returns an array all the same, and
    it is the array returned when that row is not in the input at all. *)
Theorem rankings_skip_unresolved
    (unitAssignments : list Assignment.t)
    (before after : list UserCompletion.t) (c : UserCompletion.t) :
  findAssignment unitAssignments (UserCompletion.assignmentId c) = None ->
  rankingsOf formatDistance unitAssignments (before ++ c :: after)
  = rankingsOf formatDistance unitAssignments (before ++ after).
Proof.
  intros H. rewrite !rankingsOf_unsorted. unfold unsorted.
  rewrite resolved_skip; [reflexivity |].
  unfold resolves. now rewrite H.
Qed.

End RankingProperties.

Lemma StronglySorted_weaken {A} (R R' : A -> A -> Prop) (l : list A) :
  (forall x y, R x y -> R' x y) ->
  StronglySorted R l -> StronglySorted R' l.
Proof.
  intros H. induction 1 as [| a l Hs IH Ha]; constructor.
  - exact IH.
  - eapply Forall_impl; [| exact Ha]. intros y. apply H.
Qed.

Lemma StronglySorted_app_l {A} (R : A -> A -> Prop) (l1 l2 : list A) :
  StronglySorted R (l1 ++ l2) -> StronglySorted R l1.
Proof.
  induction l1 as [| a l1 IH]; simpl; intros H; [constructor |].
  inversion H as [| ? ? Hs Ha]; subst. constructor.
  - now apply IH.
  - apply Forall_app in Ha. tauto.
Qed.

Section RecentProperties.
Import NumberFacts.

Variable formatDistance : Date -> Date -> string.

Lemma key_le_recency (x y : Completion.t) :
  key_le recency x y -> notEarlier x y.
Proof.
  unfold key_le, recency, notEarlier. intros H.
  rewrite Zle_Qle.
  generalize dependent (inject_Z (Completion.completedAt x)).
  generalize dependent (inject_Z (Completion.completedAt y)).
  intros; lra.
Qed.

(** C7. The [recentCompletions] of an entry are min(3, count) of the
    user's completions, latest first and none of the omitted ones later
    than a listed one; each carries [formatDistance] of its own
    [completedAt] and the [createdAt] of the assignment it resolves to. *)
Theorem recentCompletions_latest_three
    (unitAssignments : list Assignment.t)
    (userCompletions : list UserCompletion.t) (r : Ranking.t) :
  In r (rankingsOf formatDistance unitAssignments userCompletions) ->
  let group :=
    entriesOf formatDistance unitAssignments
      (rowsOfUser (Ranking.userId r)
         (resolved unitAssignments userCompletions)) in
  Ranking.completedAssignments r = length group
  /\ length (Ranking.recentCompletions r)
     = Nat.min 3 (Ranking.completedAssignments r)
  /\ StronglySorted notEarlier (Ranking.recentCompletions r)
  /\ (exists older,
        Permutation (Ranking.recentCompletions r ++ older) group
        /\ StronglySorted notEarlier (Ranking.recentCompletions r ++ older))
  /\ Forall (fun e =>
       exists c a,
         In c userCompletions
         /\ UserCompletion.userId c = Ranking.userId r
         /\ findAssignment unitAssignments (UserCompletion.assignmentId c)
            = Some a
         /\ e = Completion.mk (UserCompletion.assignmentId c)
                  (UserCompletion.completedAt c)
                  (Assignment.createdAt a) (Assignment.title a)
                  (formatDistance (UserCompletion.completedAt c)
                     (Assignment.createdAt a)))
       (Ranking.recentCompletions r).
Proof.
  intros Hr group. apply rankingsOf_In in Hr. destruct Hr as [i [_ Hr]].
  set (uid := Ranking.userId r) in *. fold group in Hr.
  assert (Hrecent : Ranking.recentCompletions r
                    = firstn 3 (sort byCompletedAtDesc group)).
  { rewrite Hr. reflexivity. }
  assert (Hcount : Ranking.completedAssignments r = length group).
  { rewrite Hr. reflexivity. }
  assert (Hsorted : StronglySorted notEarlier (sort byCompletedAtDesc group)).
  { apply (StronglySorted_weaken (key_le recency)); [apply key_le_recency |].
    apply sort_sorted. exact byCompletedAtDesc_key. }
  rewrite Hrecent, Hcount. clear Hr Hrecent Hcount.
  split; [reflexivity |]. split; [| split; [| split]].
  - now rewrite length_firstn, sort_length.
  - apply (StronglySorted_app_l _ _ (skipn 3 (sort byCompletedAtDesc group))).
    now rewrite firstn_skipn.
  - exists (skipn 3 (sort byCompletedAtDesc group)).
    rewrite firstn_skipn. split; [| exact Hsorted].
    apply Permutation_sym, sort_perm.
  - apply Forall_forall. intros e He.
    assert (He' : In e (sort byCompletedAtDesc group)).
    { rewrite <- (firstn_skipn 3). apply in_or_app. now left. }
    apply sort_In in He'. clear He. rename He' into He.
    apply entriesOf_In in He. destruct He as [c [Hc He]].
    unfold rowsOfUser, resolved in Hc. rewrite !filter_In in Hc.
    destruct Hc as [[Hin _] Hu]. apply Z.eqb_eq in Hu.
    unfold entryOf in He.
    destruct (findAssignment unitAssignments (UserCompletion.assignmentId c))
      as [a |] eqn:Ea; [| discriminate].
    injection He as <-. exists c, a. auto.
Qed.

End RecentProperties.

(** * The average latency as a number *)

Module AverageFacts.
Import Number NumberFacts.
Local Open Scope Q_scope.

Lemma latency_exact (e : Completion.t) :
  (Z.abs (latencyMs e) < 2 ^ 53)%Z -> latency e == inject_Z (latencyMs e).
Proof.
  intros H. unfold latency, sub, getTime, of_Z.
  assert (E : inject_Z (Completion.completedAt e)
              - inject_Z (Completion.createdAt e)
              == inject_Z (latencyMs e)).
  { unfold latencyMs, Z.sub, Qminus.
    now rewrite inject_Z_plus, inject_Z_opp. }
  now rewrite (round53_exact _ (latencyMs e) H E).
Qed.

Lemma magnitude_nonneg (es : list Completion.t) : (0 <= magnitude es)%Z.
Proof.
  unfold magnitude. induction es as [| e es IH]; simpl; lia.
Qed.

Lemma sumLatencyMs_magnitude (es : list Completion.t) :
  (Z.abs (sumLatencyMs es) <= magnitude es)%Z.
Proof.
  unfold sumLatencyMs, magnitude.
  induction es as [| e es IH]; simpl; lia.
Qed.

(** While the magnitudes stay below [2^53] the [reduce] adds exactly. *)
Lemma reduce_exact (es : list Completion.t) (acc : number) (s : Z) :
  acc == inject_Z s ->
  (Z.abs s + magnitude es < 2 ^ 53)%Z ->
  fold_left (fun sum c => add sum (latency c)) es acc
  == inject_Z (s + sumLatencyMs es).
Proof.
  revert acc s. induction es as [| e es IH]; intros acc s Hacc Hs.
  - simpl. now rewrite Z.add_0_r.
  - simpl fold_left.
    pose proof (magnitude_nonneg es) as Hm.
    change (magnitude (e :: es))
      with (Z.abs (latencyMs e) + magnitude es)%Z in Hs.
    change (sumLatencyMs (e :: es))
      with (latencyMs e + sumLatencyMs es)%Z.
    rewrite (IH _ (s + latencyMs e)%Z).
    + now rewrite Z.add_assoc.
    + unfold add.
      assert (E : acc + latency e == inject_Z (s + latencyMs e)).
      { rewrite inject_Z_plus, Hacc, latency_exact by lia. reflexivity. }
      rewrite (round53_exact _ (s + latencyMs e)); [exact E | lia | exact E].
    + lia.
Qed.

Lemma totalTimeMs_exact (es : list Completion.t) :
  (magnitude es < 2 ^ 53)%Z ->
  totalTimeMs es == inject_Z (sumLatencyMs es).
Proof.
  intros H. unfold totalTimeMs.
  rewrite (reduce_exact es 0 0); [reflexivity | reflexivity | simpl; lia].
Qed.

(** The average is the exact average, rounded once. *)
Lemma avgTimeMs_rounded (es : list Completion.t) :
  (magnitude es < 2 ^ 53)%Z ->
  avgTimeMs es = round53 (exactAverage es).
Proof.
  intros H. unfold avgTimeMs, exactAverage.
  destruct es as [| e es].
  - reflexivity.
  - change (0 <? length (e :: es))%nat with true. cbv iota.
    unfold div, of_Z. apply round53_compat.
    now rewrite totalTimeMs_exact.
Qed.

Lemma exactAverage_divides (es : list Completion.t) :
  (Z.of_nat (length es) | sumLatencyMs es)%Z ->
  exactAverage es == inject_Z (sumLatencyMs es / Z.of_nat (length es)).
Proof.
  intros [q Hq]. unfold exactAverage. rewrite Hq.
  destruct (Z.eq_dec (Z.of_nat (length es)) 0) as [E | E].
  - rewrite E. rewrite Z.mul_0_r. reflexivity.
  - rewrite Z.div_mul by exact E. rewrite inject_Z_mult.
    field. intros H. apply E. now apply (inject_Z_injective _ 0).
Qed.

End AverageFacts.

Section AverageProperties.
Import Number NumberFacts AverageFacts.

Variable formatDistance : Date -> Date -> string.

(** C2, as the code has it.  The average of an entry is the exact
    average of its user's latencies (completedAt minus the createdAt of
    the assignment, in milliseconds) rounded once to a double: it is
    within [2^-53] of the exact quotient, relatively, and it is the exact
    quotient when the count divides the sum.  The sum is exact while the
    magnitudes of the latencies add up to less than [2^53] ms. *)
Theorem average_is_rounded_quotient
    (unitAssignments : list Assignment.t)
    (userCompletions : list UserCompletion.t) (r : Ranking.t) :
  In r (rankingsOf formatDistance unitAssignments userCompletions) ->
  let group :=
    entriesOf formatDistance unitAssignments
      (rowsOfUser (Ranking.userId r)
         (resolved unitAssignments userCompletions)) in
  (magnitude group < 2 ^ 53)%Z ->
  Ranking.totalMilliseconds r = round53 (exactAverage group)
  /\ (Qabs (Ranking.totalMilliseconds r - exactAverage group)
      <= Qabs (exactAverage group) * (1 # 2 ^ 53))%Q
  /\ ((Z.of_nat (length group) | sumLatencyMs group)%Z ->
      (Ranking.totalMilliseconds r == exactAverage group)%Q).
Proof.
  intros Hr group Hm. apply rankingsOf_In in Hr. destruct Hr as [i [_ Hr]].
  fold group in Hr.
  assert (Ht : Ranking.totalMilliseconds r = avgTimeMs group).
  { rewrite Hr. reflexivity. }
  rewrite Ht, (avgTimeMs_rounded _ Hm). clear Hr Ht.
  split; [reflexivity |]. split; [apply round53_error |].
  intros Hdiv. pose proof (exactAverage_divides _ Hdiv) as E.
  apply (round53_exact _ _ ) with (2 := E).
  pose proof (sumLatencyMs_magnitude group) as Hs.
  set (s := sumLatencyMs group) in *. set (n := Z.of_nat (length group)).
  assert (Hq : (Z.abs (s / n) <= Z.abs s)%Z).
  { destruct (Z.eq_dec n 0) as [-> | Hn].
    - rewrite Z.div_0_r. simpl. lia.
    - assert (Hn' : (0 < n)%Z) by (unfold n in *; lia).
      destruct (Z.le_gt_cases 0 s) as [Hs0 | Hs0].
      + pose proof (Z.div_pos s n Hs0 Hn').
        pose proof (Z.div_le_upper_bound s n s Hn'). nia.
      + pose proof (Z.div_lt_upper_bound s n 0 Hn').
        pose proof (Z.div_le_lower_bound s n s Hn'). nia. }
  lia.
Qed.

End AverageProperties.

(** * Order of the entries with equal averages *)

Lemma nth_error_Before {A} (l : list A) (i j : nat) (x y : A) :
  (i < j)%nat -> nth_error l i = Some x -> nth_error l j = Some y ->
  Before x y l.
Proof.
  intros Hij Hx Hy.
  apply nth_error_split in Hx. destruct Hx as [l1 [l' [-> Hl1]]].
  rewrite nth_error_app2 in Hy by lia.
  replace (j - length l1)%nat with (S (j - length l1 - 1)) in Hy by lia.
  simpl in Hy. apply nth_error_split in Hy.
  destruct Hy as [l2 [l3 [-> _]]]. now exists l1, l2, l3.
Qed.

Lemma Before_filter {A} (p : A -> bool) (x y : A) (l : list A) :
  p x = true -> p y = true -> Before x y l -> Before x y (filter p l).
Proof.
  intros Hx Hy [l1 [l2 [l3 ->]]].
  exists (filter p l1), (filter p l2), (filter p l3).
  rewrite filter_app. simpl. rewrite Hx, filter_app. simpl. now rewrite Hy.
Qed.

Lemma filter_eq_app_cons {A} (p : A -> bool) (l f1 f2 : list A) (x : A) :
  filter p l = f1 ++ x :: f2 ->
  exists l1 l2, l = l1 ++ x :: l2 /\ filter p l2 = f2.
Proof.
  revert f1. induction l as [| a l IH]; intros f1 H; simpl in H.
  - destruct f1; discriminate.
  - destruct (p a) eqn:Ea.
    + destruct f1 as [| b f1]; simpl in H.
      * injection H as -> H. now exists [], l.
      * injection H as -> H. apply IH in H.
        destruct H as [l1 [l2 [-> H2]]]. now exists (b :: l1), l2.
    + apply IH in H. destruct H as [l1 [l2 [-> H2]]].
      now exists (a :: l1), l2.
Qed.

Lemma Before_filter_inv {A} (p : A -> bool) (x y : A) (l : list A) :
  Before x y (filter p l) -> Before x y l.
Proof.
  intros [f1 [f2 [f3 H]]].
  apply filter_eq_app_cons in H. destruct H as [l1 [l' [-> H]]].
  apply filter_eq_app_cons in H. destruct H as [l2 [l3 [-> _]]].
  now exists l1, l2, l3.
Qed.

Lemma Before_map_inv {A B} (g : A -> B) (a b : B) (l : list A) :
  Before a b (map g l) ->
  exists ka kb, g ka = a /\ g kb = b /\ Before ka kb l.
Proof.
  intros [m1 [m2 [m3 H]]].
  apply map_eq_app in H. destruct H as [l1 [l' [-> [_ H]]]].
  apply map_eq_cons in H. destruct H as [ka [l'' [-> [Ha H]]]].
  apply map_eq_app in H. destruct H as [l2 [l''' [-> [_ H]]]].
  apply map_eq_cons in H. destruct H as [kb [l3 [-> [Hb _]]]].
  exists ka, kb. split; [exact Ha |]. split; [exact Hb |].
  now exists l1, l2, l3.
Qed.

Lemma Before_In_r {A} (x y : A) (l : list A) : Before x y l -> In y l.
Proof.
  intros [l1 [l2 [l3 ->]]]. apply in_or_app. right. right.
  apply in_or_app. right. now left.
Qed.

Lemma Before_In_l {A} (x y : A) (l : list A) : Before x y l -> In x l.
Proof.
  intros [l1 [l2 [l3 ->]]]. apply in_or_app. right. now left.
Qed.

Lemma Before_cons_inv {A} (a x y : A) (l : list A) :
  Before x y (a :: l) -> (x = a /\ In y l) \/ Before x y l.
Proof.
  intros [l1 [l2 [l3 H]]]. destruct l1 as [| b l1]; simpl in H.
  - injection H as -> ->. left. split; [reflexivity |].
    apply in_or_app. right. now left.
  - injection H as -> ->. right. now exists l1, l2, l3.
Qed.

Lemma firstResolvedIndex_Some (unitAssignments : list Assignment.t)
    (uid : Z) (cs : list UserCompletion.t) :
  In uid (userIdsOf (resolved unitAssignments cs)) ->
  exists q, firstResolvedIndex unitAssignments uid cs = Some q.
Proof.
  unfold userIdsOf. rewrite uniq_In.
  induction cs as [| c cs IH]; simpl; [tauto |].
  destruct (resolves unitAssignments c) eqn:Hc; simpl.
  - destruct (UserCompletion.userId c =? uid) eqn:E; [eauto |].
    intros [H | H]; [apply Z.eqb_neq in E; tauto |].
    destruct (IH H) as [q ->]. simpl. eauto.
  - intros H. destruct (IH H) as [q ->]. simpl. eauto.
Qed.

(** The users are grouped in the order of their first resolving row. *)
Lemma userIdsOf_first_order (unitAssignments : list Assignment.t)
    (ka kb : Z) (cs : list UserCompletion.t) :
  Before ka kb (userIdsOf (resolved unitAssignments cs)) ->
  exists p q,
    firstResolvedIndex unitAssignments ka cs = Some p
    /\ firstResolvedIndex unitAssignments kb cs = Some q
    /\ (p < q)%nat.
Proof.
  induction cs as [| c cs IH]; simpl.
  - intros [l1 [l2 [l3 H]]]. destruct l1; discriminate.
  - destruct (resolves unitAssignments c) eqn:Hc; simpl.
    + unfold userIdsOf. simpl. intros H.
      apply Before_cons_inv in H. destruct H as [[-> Hin] | H].
      * rewrite Z.eqb_refl.
        apply filter_In in Hin. destruct Hin as [Hin Hne].
        apply negb_true_iff in Hne. rewrite Z.eqb_sym in Hne. rewrite Hne.
        destruct (firstResolvedIndex_Some unitAssignments kb cs Hin)
          as [q ->].
        exists 0%nat, (S q). simpl. repeat split; lia.
      * pose proof (Before_In_l _ _ _ H) as Ha.
        pose proof (Before_In_r _ _ _ H) as Hb.
        apply filter_In in Ha, Hb.
        destruct Ha as [_ Ha]. destruct Hb as [_ Hb].
        apply negb_true_iff in Ha, Hb.
        rewrite Z.eqb_sym in Ha. rewrite Z.eqb_sym in Hb.
        rewrite Ha, Hb.
        apply Before_filter_inv in H.
        destruct (IH H) as [p [q [-> [-> Hpq]]]].
        exists (S p), (S q). simpl. repeat split; lia.
    + intros H. destruct (IH H) as [p [q [-> [-> Hpq]]]].
      exists (S p), (S q). simpl. repeat split; lia.
Qed.

Section OrderProperties.
Import NumberFacts.

Variable formatDistance : Date -> Date -> string.

Lemma getUnitRankings_rankingsOf (unitCode : string) (db : DB) :
  getUnitRankings formatDistance unitCode db
  = Some (rankingsOf formatDistance (selectUnitAssignments unitCode db)
            (selectUserCompletions unitCode db),
          db).
Proof.
  unfold getUnitRankings, rankingsOf, bind, select, ret.
  now destruct (length (selectUnitAssignments unitCode db) =? 0)%nat.
Qed.

(** C10. The array that [getUnitRankings] returns is a function of the
    rows its two queries fetched; and two entries with equal averages
    stand in the order in which their users' first resolving rows stand
    in the completions input. *)
Theorem rankings_ties_in_input_order :
  (forall unitCode db,
     getUnitRankings formatDistance unitCode db
     = Some (rankingsOf formatDistance (selectUnitAssignments unitCode db)
               (selectUserCompletions unitCode db),
             db))
  /\ (forall unitAssignments userCompletions i j a b,
        nth_error (rankingsOf formatDistance unitAssignments userCompletions) i
          = Some a ->
        nth_error (rankingsOf formatDistance unitAssignments userCompletions) j
          = Some b ->
        (i < j)%nat ->
        (Ranking.totalMilliseconds a == Ranking.totalMilliseconds b)%Q ->
        exists p q,
          firstResolvedIndex unitAssignments (Ranking.userId a)
            userCompletions = Some p
          /\ firstResolvedIndex unitAssignments (Ranking.userId b)
               userCompletions = Some q
          /\ (p < q)%nat).
Proof.
  split; [exact getUnitRankings_rankingsOf |].
  intros unitAssignments userCompletions i j a b Ha Hb Hij Heq.
  rewrite rankingsOf_unsorted, assignPositions_nth in Ha, Hb.
  set (l := unsorted formatDistance unitAssignments userCompletions) in *.
  destruct (nth_error (sort byTotalMilliseconds l) i) as [x |] eqn:Ex;
    [| discriminate].
  destruct (nth_error (sort byTotalMilliseconds l) j) as [y |] eqn:Ey;
    [| discriminate].
  injection Ha as <-. injection Hb as <-. simpl in *.
  pose proof (nth_error_Before _ _ _ _ _ Hij Ex Ey) as B.
  set (v := Ranking.totalMilliseconds x) in *.
  apply (Before_filter
           (fun r => Qeq_bool (Ranking.totalMilliseconds r) v)) in B.
  - rewrite (sort_stable byTotalMilliseconds Ranking.totalMilliseconds
               byTotalMilliseconds_key) in B.
    apply Before_filter_inv in B. unfold l, unsorted in B.
    apply Before_map_inv in B. destruct B as [ka [kb [<- [<- B]]]].
    simpl. now apply userIdsOf_first_order.
  - apply Qeq_bool_iff. reflexivity.
  - apply Qeq_bool_iff. symmetry. exact Heq.
Qed.

(** C6. With no assignment in the unit [getUnitRankings] returns the
    empty array, whatever the completions are: the call succeeds and
    leaves the database as it was. *)
Theorem rankings_empty_unit :
  (forall userCompletions, rankingsOf formatDistance [] userCompletions = [])
  /\ (forall unitCode db,
        selectUnitAssignments unitCode db = [] ->
        getUnitRankings formatDistance unitCode db = Some ([], db)).
Proof.
  split; [reflexivity |].
  intros unitCode db H. unfold getUnitRankings, bind, select.
  now rewrite H.
Qed.

End OrderProperties.

(** * The storage methods and the state of the database *)

Lemma filter_nil_forall {A} (p : A -> bool) (l : list A) :
  filter p l = [] -> forall x, In x l -> p x = false.
Proof.
  induction l as [| a l IH]; simpl; [tauto |].
  destruct (p a) eqn:E; [discriminate |].
  intros H x [<- | Hx]; auto.
Qed.

Lemma filter_cons_In {A} (p : A -> bool) (l : list A) (x : A) :
  In x l -> p x = true -> exists y rest, filter p l = y :: rest.
Proof.
  intros Hx Hp. destruct (filter p l) as [| y rest] eqn:E; [| eauto].
  rewrite (filter_nil_forall p l E x Hx) in Hp. discriminate.
Qed.

(** What a call of [completeAssignment] that returns does to the
    database: nothing, or one new row for the pair. *)
Lemma completeAssignment_cases (now : Date) (assignmentId userId : Z)
    (db db' : DB) (res : CompleteResult) :
  completeAssignment now assignmentId userId db = Some (res, db') ->
  (res = AlreadyCompleted /\ db' = db
   /\ In (assignmentId, userId) (map pairOf (completedAssignments db)))
  \/ (exists row,
        pairOf row = (assignmentId, userId)
        /\ ~ In (assignmentId, userId) (map pairOf (completedAssignments db))
        /\ users db' = users db
        /\ assignments db' = assignments db
        /\ completedAssignments db' = completedAssignments db ++ [row]).
Proof.
  unfold completeAssignment, bind, select, ret, updateUserRank.
  set (p := fun c => (CompletedAssignment.assignmentId c =? assignmentId)
                     && (CompletedAssignment.userId c =? userId)).
  destruct (filter p (completedAssignments db)) as [| c0 rest] eqn:E.
  - unfold insertCompletedAssignment.
    destruct (_ && _ && _); [| discriminate].
    simpl. intros [= <- <-]. right.
    exists (CompletedAssignment.mk (completedAssignments_id_seq db)
              assignmentId userId now).
    split; [reflexivity |]. simpl. split; [| auto].
    intros Hin. apply in_map_iff in Hin. destruct Hin as [c [Hc Hin]].
    pose proof (filter_nil_forall p _ E c Hin) as Hp.
    unfold pairOf in Hc. injection Hc as Ha Hu.
    unfold p in Hp. now rewrite Ha, Hu, !Z.eqb_refl in Hp.
  - intros [= <- <-]. left. split; [reflexivity |]. split; [reflexivity |].
    assert (Hin : In c0 (filter p (completedAssignments db))).
    { rewrite E. now left. }
    apply filter_In in Hin. destruct Hin as [Hin Hp].
    unfold p in Hp. apply andb_true_iff in Hp. destruct Hp as [Ha Hu].
    apply Z.eqb_eq in Ha, Hu. apply in_map_iff. exists c0.
    unfold pairOf. now rewrite Ha, Hu.
Qed.

Lemma completeAssignment_again (now : Date) (assignmentId userId : Z)
    (db : DB) :
  In (assignmentId, userId) (map pairOf (completedAssignments db)) ->
  completeAssignment now assignmentId userId db = Some (AlreadyCompleted, db).
Proof.
  intros Hin. apply in_map_iff in Hin. destruct Hin as [c [Hc Hin]].
  unfold pairOf in Hc. injection Hc as Ha Hu.
  unfold completeAssignment, bind, select, ret.
  set (p := fun c => (CompletedAssignment.assignmentId c =? assignmentId)
                     && (CompletedAssignment.userId c =? userId)).
  assert (Hp : p c = true).
  { unfold p. now rewrite Ha, Hu, !Z.eqb_refl. }
  destruct (filter_cons_In p _ c Hin Hp) as [y [rest ->]]. reflexivity.
Qed.

(** A call of [completeAssignment] that runs alone keeps the completion
    rows unique per (assignment, user) pair, by its own check before the
    insert: a call for a pair that has a row returns [alreadyCompleted]
    and inserts nothing, and so does every call that follows a call that
    returned. *)
Lemma completeAssignment_keeps_pairs_unique
    (now : Date) (assignmentId userId : Z) (db db' : DB)
    (res : CompleteResult) :
  completeAssignment now assignmentId userId db = Some (res, db') ->
  (uniquePairs db -> uniquePairs db')
  /\ (In (assignmentId, userId) (map pairOf (completedAssignments db)) ->
      res = AlreadyCompleted /\ db' = db)
  /\ (forall later,
        completeAssignment later assignmentId userId db'
        = Some (AlreadyCompleted, db')).
Proof.
  intros H. apply completeAssignment_cases in H.
  destruct H as [[-> [-> Hin]] | [row [Hrow [Hnot [_ [_ Hc]]]]]].
  - split; [tauto |]. split; [tauto |].
    intros later. now apply completeAssignment_again.
  - split; [| split].
    + unfold uniquePairs. rewrite Hc, map_app. simpl. rewrite Hrow.
      intros Hnd. apply NoDup_app_remove_l with (l := []). simpl.
      apply Permutation_NoDup with ((assignmentId, userId)
                                    :: map pairOf (completedAssignments db)).
      * apply Permutation_cons_append.
      * now constructor.
    + tauto.
    + intros later. apply completeAssignment_again.
      rewrite Hc, map_app. apply in_or_app. right. simpl. now left.
Qed.

(** The method is its check followed by the rest. *)
Lemma completeAssignment_steps (now : Date) (assignmentId userId : Z) :
  completeAssignment now assignmentId userId
  = (existing <- selectExistingCompletion assignmentId userId ;;
     completeAfterCheck now assignmentId userId existing).
Proof. reflexivity. Qed.

(** X27. When nothing is written between the check of
    [completeAssignment] and the rest of the call, that is, the rest
    runs on the database that the check read, the call keeps the
    completion rows unique per (assignment, user) pair; for a pair that
    has a row it answers [alreadyCompleted] and inserts nothing; and a
    later call that again runs alone inserts nothing. *)
Theorem check_then_insert_keeps_pairs_unique
    (now : Date) (assignmentId userId : Z) (db db' : DB)
    (existing : list CompletedAssignment.t) (res : CompleteResult) :
  selectExistingCompletion assignmentId userId db = Some (existing, db) ->
  completeAfterCheck now assignmentId userId existing db = Some (res, db') ->
  (uniquePairs db -> uniquePairs db')
  /\ (In (assignmentId, userId) (map pairOf (completedAssignments db)) ->
      res = AlreadyCompleted /\ db' = db)
  /\ (forall later existing',
        selectExistingCompletion assignmentId userId db'
        = Some (existing', db') ->
        completeAfterCheck later assignmentId userId existing' db'
        = Some (AlreadyCompleted, db')).
Proof.
  intros Hcheck Hrest.
  assert (H : completeAssignment now assignmentId userId db
              = Some (res, db')).
  { rewrite completeAssignment_steps. unfold bind. now rewrite Hcheck. }
  destruct (completeAssignment_keeps_pairs_unique _ _ _ _ _ _ H)
    as [H1 [H2 H3]].
  split; [exact H1 |]. split; [exact H2 |].
  intros later existing' Hcheck'. specialize (H3 later).
  rewrite completeAssignment_steps in H3. unfold bind in H3.
  now rewrite Hcheck' in H3.
Qed.

(** C9. The ranking logic never writes the [users] table, hence never
    the stored [rank]: [getUnitRankings] returns with the database
    unchanged, [updateUserRank] does nothing, and [completeAssignment]
    leaves [users] as it was. *)
Theorem ranking_logic_leaves_rank :
  (forall formatDistance unitCode db,
     exists rankings,
       getUnitRankings formatDistance unitCode db = Some (rankings, db))
  /\ (forall userId db, updateUserRank userId db = Some (tt, db))
  /\ (forall now assignmentId userId db res db',
        completeAssignment now assignmentId userId db = Some (res, db') ->
        users db' = users db
        /\ map User.rank (users db') = map User.rank (users db)).
Proof.
  split; [| split].
  - intros. eexists. apply getUnitRankings_rankingsOf.
  - reflexivity.
  - intros now assignmentId userId db res db' H.
    apply completeAssignment_cases in H.
    destruct H as [[_ [-> _]] | [row [_ [_ [Hu _]]]]].
    + now split.
    + now rewrite Hu.
Qed.

(** * The properties on the sample data *)

Module SampleFacts.
Import Sample.

(** The rounding agrees with IEEE-754 where the tests below depend on
    it: 1/3 and 1/10 are not doubles, 2^53 + 1 is a tie. *)
Example round53_third :
  Number.round53 (1 # 3) = (6004799503160661 # 18014398509481984)%Q.
Proof. vm_compute. reflexivity. Qed.

Example round53_tenth :
  Number.round53 (1 # 10) = (3602879701896397 # 36028797018963968)%Q.
Proof. vm_compute. reflexivity. Qed.

Example round53_tie :
  Number.round53 (inject_Z (2 ^ 53 + 1)) = inject_Z (2 ^ 53)
  /\ Number.round53 (inject_Z (2 ^ 53 + 3)) = inject_Z (2 ^ 53 + 4).
Proof. split; vm_compute; reflexivity. Qed.

(** Scenarios A, B and D of the specification in one call: X, then Y
    and W in the order of their first rows; the stale row of Z is not
    counted. *)
Example sample_rankings :
  map (fun r => (Ranking.userId r, Ranking.completedAssignments r,
                 Ranking.totalMilliseconds r, Ranking.position r))
      (rankingsOf minutes unitAssignments userCompletions)
  = [(7, 2%nat, inject_Z 4500000, Some 1%nat);
     (8, 1%nat, inject_Z 7200000, Some 2%nat);
     (6, 1%nat, inject_Z 7200000, Some 3%nat)].
Proof. vm_compute. reflexivity. Qed.

Lemma nth_ranked_0 :
  nth_error (rankingsOf minutes unitAssignments userCompletions) 0
  = Some entryX.
Proof. vm_compute. reflexivity. Defined.

Lemma nth_ranked_1 :
  nth_error (rankingsOf minutes unitAssignments userCompletions) 1
  = Some entryY.
Proof. vm_compute. reflexivity. Defined.

Lemma nth_ranked_2 :
  nth_error (rankingsOf minutes unitAssignments userCompletions) 2
  = Some entryW.
Proof. vm_compute. reflexivity. Defined.

Lemma In_ranked_X :
  In entryX (rankingsOf minutes unitAssignments userCompletions).
Proof. vm_compute. left. reflexivity. Defined.

Lemma rankings_sorted_by_average_witness :
  nth_error (rankingsOf minutes unitAssignments userCompletions) 0
    = Some entryX
  /\ nth_error (rankingsOf minutes unitAssignments userCompletions) 1
     = Some entryY
  /\ (Ranking.totalMilliseconds entryX <= Ranking.totalMilliseconds entryY)%Q.
Proof.
  split; [exact nth_ranked_0 |]. split; [exact nth_ranked_1 |].
  exact (rankings_sorted_by_average minutes unitAssignments userCompletions
           0 entryX entryY nth_ranked_0 nth_ranked_1).
Defined.

Lemma rankings_one_entry_per_user_witness :
  In entryX (rankingsOf minutes unitAssignments userCompletions)
  /\ Ranking.completedAssignments entryX
     = length (rowsOfUser (Ranking.userId entryX)
                 (resolved unitAssignments userCompletions)).
Proof.
  split; [exact In_ranked_X |].
  exact (proj2 (proj2 (proj2
           (rankings_one_entry_per_user minutes unitAssignments
              userCompletions))) entryX In_ranked_X).
Defined.

Lemma rankings_skip_unresolved_witness :
  findAssignment unitAssignments (UserCompletion.assignmentId stale) = None
  /\ rankingsOf minutes unitAssignments
       ([done 8 "Y" 1 (T0 + 2 * hour); done 7 "X" 1 (T0 + 2 * hour)]
        ++ stale
        :: [done 7 "X" 2 (T0 + hour + 1800000); done 6 "W" 2 (T0 + 3 * hour)])
     = rankingsOf minutes unitAssignments
         ([done 8 "Y" 1 (T0 + 2 * hour); done 7 "X" 1 (T0 + 2 * hour)]
          ++ [done 7 "X" 2 (T0 + hour + 1800000);
              done 6 "W" 2 (T0 + 3 * hour)]).
Proof.
  assert (H : findAssignment unitAssignments
                (UserCompletion.assignmentId stale) = None)
    by (vm_compute; reflexivity).
  split; [exact H |].
  exact (rankings_skip_unresolved minutes unitAssignments _ _ stale H).
Defined.

Lemma rankings_empty_unit_witness :
  selectUnitAssignments "HED 2101" db = []
  /\ getUnitRankings minutes "HED 2101" db = Some ([], db).
Proof.
  assert (H : selectUnitAssignments "HED 2101" db = [])
    by (vm_compute; reflexivity).
  split; [exact H |].
  exact (proj2 (rankings_empty_unit minutes) "HED 2101"%string db H).
Defined.

Lemma recentCompletions_latest_three_witness :
  In entryX (rankingsOf minutes unitAssignments userCompletions)
  /\ length (Ranking.recentCompletions entryX)
     = Nat.min 3 (Ranking.completedAssignments entryX)
  /\ StronglySorted notEarlier (Ranking.recentCompletions entryX).
Proof.
  split; [exact In_ranked_X |].
  pose proof (recentCompletions_latest_three minutes unitAssignments
                userCompletions entryX In_ranked_X) as H.
  cbv zeta in H. destruct H as [_ [Hlen [Hsorted _]]].
  split; [exact Hlen | exact Hsorted].
Defined.

(** With latencies of 1 s, 1 s and 2 s the exact average is 4000/3 ms;
    the entry holds the nearest double instead. *)
Lemma average_not_exact_quotient :
  In entryV (rankingsOf minutes [A1; A2; A3] thirds)
  /\ Ranking.completedAssignments entryV = 3%nat
  /\ sumLatencyMs
       (entriesOf minutes [A1; A2; A3]
          (rowsOfUser (Ranking.userId entryV)
             (resolved [A1; A2; A3] thirds))) = 4000
  /\ Ranking.totalMilliseconds entryV = (5864062014805333 # 4398046511104)%Q
  /\ ~ (Ranking.totalMilliseconds entryV
        == exactAverage
             (entriesOf minutes [A1; A2; A3]
                (rowsOfUser (Ranking.userId entryV)
                   (resolved [A1; A2; A3] thirds))))%Q.
Proof.
  split; [vm_compute; left; reflexivity |].
  split; [vm_compute; reflexivity |].
  split; [vm_compute; reflexivity |].
  split; [vm_compute; reflexivity |].
  intros H. vm_compute in H. discriminate H.
Qed.

Lemma average_is_rounded_quotient_witness :
  In entryX (rankingsOf minutes unitAssignments userCompletions)
  /\ (magnitude
        (entriesOf minutes unitAssignments
           (rowsOfUser (Ranking.userId entryX)
              (resolved unitAssignments userCompletions)))
      < 2 ^ 53)
  /\ Ranking.totalMilliseconds entryX
     = Number.round53
         (exactAverage
            (entriesOf minutes unitAssignments
               (rowsOfUser (Ranking.userId entryX)
                  (resolved unitAssignments userCompletions)))).
Proof.
  assert (Hm : magnitude
                 (entriesOf minutes unitAssignments
                    (rowsOfUser (Ranking.userId entryX)
                       (resolved unitAssignments userCompletions)))
               < 2 ^ 53) by (vm_compute; reflexivity).
  split; [exact In_ranked_X |]. split; [exact Hm |].
  exact (proj1 (average_is_rounded_quotient minutes unitAssignments
                  userCompletions entryX In_ranked_X Hm)).
Defined.

Lemma rankings_ties_in_input_order_witness :
  nth_error (rankingsOf minutes unitAssignments userCompletions) 1
    = Some entryY
  /\ nth_error (rankingsOf minutes unitAssignments userCompletions) 2
     = Some entryW
  /\ (Ranking.totalMilliseconds entryY == Ranking.totalMilliseconds entryW)%Q
  /\ exists p q,
       firstResolvedIndex unitAssignments (Ranking.userId entryY)
         userCompletions = Some p
       /\ firstResolvedIndex unitAssignments (Ranking.userId entryW)
            userCompletions = Some q
       /\ (p < q)%nat.
Proof.
  assert (Heq : (Ranking.totalMilliseconds entryY
                 == Ranking.totalMilliseconds entryW)%Q)
    by (vm_compute; reflexivity).
  split; [exact nth_ranked_1 |]. split; [exact nth_ranked_2 |].
  split; [exact Heq |].
  exact (proj2 (rankings_ties_in_input_order minutes) unitAssignments
           userCompletions 1%nat 2%nat entryY entryW
           nth_ranked_1 nth_ranked_2 (le_n 2) Heq).
Defined.

(** The table takes a second row for a pair that has one: nothing in
    the persistence layer keeps the pairs unique. *)
Lemma insert_accepts_duplicate_pair :
  exists row1 db1 row2 db2,
    insertCompletedAssignment 1 7 (T0 + hour) db = Some (row1, db1)
    /\ uniquePairs db1
    /\ insertCompletedAssignment 1 7 (T0 + 2 * hour) db1 = Some (row2, db2)
    /\ pairOf row1 = pairOf row2
    /\ ~ uniquePairs db2.
Proof.
  eexists. eexists. eexists. eexists.
  split; [reflexivity |]. split.
  - unfold uniquePairs. simpl. repeat constructor. intros [].
  - split; [reflexivity |]. split; [reflexivity |].
    unfold uniquePairs. simpl. intros H.
    inversion H as [| ? ? Hnot _]. apply Hnot. now left.
Qed.

Lemma check_then_insert_keeps_pairs_unique_witness :
  selectExistingCompletion 1 7 db = Some ([], db)
  /\ completeAfterCheck (T0 + hour) 1 7 [] db = Some (completedOnce, dbOnce)
  /\ uniquePairs db
  /\ uniquePairs dbOnce
  /\ completeAfterCheck (T0 + 2 * hour) 1 7 [rowOnce] dbOnce
     = Some (AlreadyCompleted, dbOnce).
Proof.
  assert (Hc : selectExistingCompletion 1 7 db = Some ([], db))
    by (vm_compute; reflexivity).
  assert (H : completeAfterCheck (T0 + hour) 1 7 [] db
              = Some (completedOnce, dbOnce)) by (vm_compute; reflexivity).
  assert (Hc' : selectExistingCompletion 1 7 dbOnce
                = Some ([rowOnce], dbOnce)) by (vm_compute; reflexivity).
  assert (U : uniquePairs db) by constructor.
  split; [exact Hc |]. split; [exact H |]. split; [exact U |].
  pose proof (check_then_insert_keeps_pairs_unique (T0 + hour) 1 7 db
                dbOnce [] completedOnce Hc H) as K.
  destruct K as [Hkeep [_ Hagain]].
  split; [exact (Hkeep U) | exact (Hagain (T0 + 2 * hour) [rowOnce] Hc')].
Defined.

(** C8.  The code does not keep the invariant: two calls of
    [completeAssignment] for one pair that overlap both pass the check
    and both insert, and the table, which declares no unique index on
    the pair, takes both rows.  From a database with unique pairs, X
    completing assignment 1 twice, a millisecond apart, leaves two
    completion rows for (assignment 1, user 7). *)
Theorem overlapping_calls_duplicate_pair :
  uniquePairs db
  /\ completeAssignmentOverlapping (T0 + hour) (T0 + hour + 1) 1 7 db
     = Some ((Completed rowOnce (Some A1) (Some student),
              Completed rowTwice (Some A1) (Some student)), dbTwice)
  /\ completedAssignments dbTwice = [rowOnce; rowTwice]
  /\ pairOf rowOnce = pairOf rowTwice
  /\ ~ uniquePairs dbTwice.
Proof.
  split; [constructor |]. split; [vm_compute; reflexivity |].
  split; [reflexivity |]. split; [reflexivity |].
  unfold uniquePairs. simpl. intros H.
  inversion H as [| ? ? Hnot _]. apply Hnot. now left.
Qed.

Lemma ranking_logic_leaves_rank_witness :
  completeAssignment (T0 + hour) 1 7 db = Some (completedOnce, dbOnce)
  /\ map User.rank (users dbOnce) = map User.rank (users db).
Proof.
  assert (H : completeAssignment (T0 + hour) 1 7 db
              = Some (completedOnce, dbOnce)) by (vm_compute; reflexivity).
  split; [exact H |].
  exact (proj2 (proj2 (proj2 ranking_logic_leaves_rank)
                  (T0 + hour) 1 7 db completedOnce dbOnce H)).
Defined.

End SampleFacts.

(** * The rankings through the queries *)

Lemma find_Some_exists {A} (p : A -> bool) (l : list A) (x : A) :
  In x l -> p x = true -> exists y, find p l = Some y.
Proof.
  intros Hx Hp. destruct (find p l) as [y |] eqn:E; [eauto |].
  rewrite (find_none p l E x Hx) in Hp. discriminate.
Qed.

Lemma selectUserCompletions_In (unitCode : string) (db : DB)
    (r : UserCompletion.t) :
  In r (selectUserCompletions unitCode db) <->
  exists c u a,
    In c (completedAssignments db) /\ In u (users db)
    /\ In a (assignments db)
    /\ CompletedAssignment.userId c = User.id u
    /\ CompletedAssignment.assignmentId c = Assignment.id a
    /\ Assignment.unitCode a = unitCode
    /\ r = UserCompletion.mk (CompletedAssignment.userId c) (User.name u)
             (User.profileImageUrl u) (CompletedAssignment.assignmentId c)
             (CompletedAssignment.completedAt c).
Proof.
  unfold selectUserCompletions. rewrite in_flat_map. split.
  - intros [c [Hc H]]. apply in_flat_map in H. destruct H as [u [Hu H]].
    apply in_flat_map in H. destruct H as [a [Ha H]].
    destruct (_ && _ && _) eqn:E; [| destruct H].
    destruct H as [<- | []].
    apply andb_true_iff in E. destruct E as [E E3].
    apply andb_true_iff in E. destruct E as [E1 E2].
    apply Z.eqb_eq in E1, E2. apply String.eqb_eq in E3.
    exists c, u, a. repeat split; assumption.
  - intros [c [u [a [Hc [Hu [Ha [E1 [E2 [E3 ->]]]]]]]]].
    exists c. split; [exact Hc |]. apply in_flat_map.
    exists u. split; [exact Hu |]. apply in_flat_map.
    exists a. split; [exact Ha |].
    rewrite E1, E2, E3, !Z.eqb_refl, String.eqb_refl. now left.
Qed.

Lemma selectUnitAssignments_In (unitCode : string) (db : DB)
    (a : Assignment.t) :
  In a (selectUnitAssignments unitCode db) <->
  In a (assignments db) /\ Assignment.unitCode a = unitCode.
Proof.
  unfold selectUnitAssignments. rewrite filter_In.
  now rewrite String.eqb_eq.
Qed.

Lemma filter_all {A} (p : A -> bool) (l : list A) :
  (forall x, In x l -> p x = true) -> filter p l = l.
Proof.
  induction l as [| a l IH]; intros H; simpl; [reflexivity |].
  rewrite (H a (or_introl eq_refl)). f_equal. apply IH.
  intros x Hx. apply H. now right.
Qed.

(** A row fetched from [later] resolves in the assignments fetched from
    [db] when [db] has every assignment of the unit that [later] has. *)
Lemma selectUserCompletions_resolves_across (unitCode : string)
    (db later : DB) (r : UserCompletion.t) :
  (forall a, In a (assignments later) ->
             Assignment.unitCode a = unitCode -> In a (assignments db)) ->
  In r (selectUserCompletions unitCode later) ->
  resolves (selectUnitAssignments unitCode db) r = true.
Proof.
  intros Hsub Hr. apply selectUserCompletions_In in Hr.
  destruct Hr as [c [u [a [_ [_ [Ha [_ [E2 [E3 ->]]]]]]]]].
  unfold resolves, findAssignment. simpl.
  destruct (find_Some_exists
              (fun a' => Assignment.id a' =? CompletedAssignment.assignmentId c)
              (selectUnitAssignments unitCode db) a) as [y ->].
  - apply selectUnitAssignments_In. split; [| exact E3].
    now apply Hsub.
  - rewrite E2. apply Z.eqb_refl.
  - reflexivity.
Qed.

Lemma selectUserCompletions_resolves (unitCode : string) (db : DB)
    (r : UserCompletion.t) :
  In r (selectUserCompletions unitCode db) ->
  resolves (selectUnitAssignments unitCode db) r = true.
Proof.
  apply selectUserCompletions_resolves_across. auto.
Qed.

(** X1. The two queries of [getUnitRankings] are two awaits, so the
    second may read a later database than the first.  When the first
    saw every assignment of the unit that the second sees (as when
    nothing is written in between), every row that the second query
    fetches finds its assignment among the rows of the first, and the
    loop skips no row. *)
Theorem fetched_completions_resolve (unitCode : string) (db later : DB) :
  (forall a, In a (assignments later) ->
             Assignment.unitCode a = unitCode -> In a (assignments db)) ->
  resolved (selectUnitAssignments unitCode db)
    (selectUserCompletions unitCode later)
  = selectUserCompletions unitCode later.
Proof.
  intros Hsub. unfold resolved. apply filter_all. intros r.
  now apply selectUserCompletions_resolves_across.
Qed.

Lemma flat_map_nil {A B} (f : A -> list B) (l : list A) :
  (forall x, In x l -> f x = []) -> flat_map f l = [].
Proof.
  induction l as [| a l IH]; intros H; simpl; [reflexivity |].
  rewrite (H a (or_introl eq_refl)), IH; [reflexivity |].
  intros x Hx. apply H. now right.
Qed.

Lemma rankingsOf_userIds (formatDistance : Date -> Date -> string)
    (unitAssignments : list Assignment.t)
    (userCompletions : list UserCompletion.t) (uid : Z) :
  In uid (map Ranking.userId
            (rankingsOf formatDistance unitAssignments userCompletions))
  <-> In uid (map UserCompletion.userId
                (resolved unitAssignments userCompletions)).
Proof.
  rewrite rankingsOf_unsorted, assignPositions_userId.
  rewrite <- (uniq_In uid
                (map UserCompletion.userId
                   (resolved unitAssignments userCompletions))).
  change (uniq (map UserCompletion.userId
                  (resolved unitAssignments userCompletions)))
    with (userIdsOf (resolved unitAssignments userCompletions)).
  rewrite <- (unsorted_userId formatDistance).
  split; apply Permutation_in; [apply Permutation_sym |];
    apply Permutation_map, sort_perm.
Qed.

(** What a call of [completeAssignment] that inserts has checked and
    done. *)
Lemma completeAssignment_inserted (now : Date) (assignmentId userId : Z)
    (db db' : DB) (completion : CompletedAssignment.t)
    (assignment : option Assignment.t) (user : option User.t) :
  completeAssignment now assignmentId userId db
  = Some (Completed completion assignment user, db') ->
  completion = CompletedAssignment.mk (completedAssignments_id_seq db)
                 assignmentId userId now
  /\ (exists u, In u (users db) /\ User.id u = userId)
  /\ (exists a, In a (assignments db) /\ Assignment.id a = assignmentId)
  /\ db' = mkDB (users db) (assignments db)
             (completedAssignments db ++ [completion])
             (completedAssignments_id_seq db + 1).
Proof.
  unfold completeAssignment, bind, select, ret, updateUserRank.
  destruct (filter _ (completedAssignments db)); [| discriminate].
  unfold insertCompletedAssignment.
  destruct (existsb _ (assignments db)) eqn:Ea; [| discriminate].
  destruct (existsb _ (users db)) eqn:Eu; [| discriminate].
  destruct (negb _); [| discriminate].
  simpl. intros [= <- _ _ <-].
  apply existsb_exists in Ea, Eu.
  destruct Ea as [a [Ha Ea]]. destruct Eu as [u [Hu Eu]].
  apply Z.eqb_eq in Ea, Eu. split; [reflexivity |]. eauto 8.
Qed.

Section ThroughTheQueries.

Variable formatDistance : Date -> Date -> string.

(** X2. No entry of a ranking is empty: each counts at least one
    completion and lists at least one recent completion, so the average
    is always a quotient by a positive count. *)
Theorem rankings_entries_nonempty
    (unitAssignments : list Assignment.t)
    (userCompletions : list UserCompletion.t) (r : Ranking.t) :
  In r (rankingsOf formatDistance unitAssignments userCompletions) ->
  (1 <= Ranking.completedAssignments r)%nat
  /\ (1 <= length (Ranking.recentCompletions r))%nat
  /\ Ranking.totalMilliseconds r
     = Number.div
         (totalTimeMs
            (entriesOf formatDistance unitAssignments
               (rowsOfUser (Ranking.userId r)
                  (resolved unitAssignments userCompletions))))
         (Number.of_Z (Z.of_nat (Ranking.completedAssignments r))).
Proof.
  intros Hr. apply rankingsOf_In in Hr. destruct Hr as [i [Hin Hr]].
  set (rows := rowsOfUser (Ranking.userId r)
                 (resolved unitAssignments userCompletions)) in *.
  set (group := entriesOf formatDistance unitAssignments rows).
  assert (Hlen : (1 <= length group)%nat).
  { unfold group. rewrite entriesOf_length
      by apply rowsOfUser_resolved.
    apply uniq_In, rowsOfUser_cons in Hin.
    destruct Hin as [c [rest Hc]]. fold rows in Hc. rewrite Hc. simpl. lia. }
  assert (Hcount : Ranking.completedAssignments r = length group)
    by (rewrite Hr; reflexivity).
  assert (Hrecent : Ranking.recentCompletions r
                    = firstn 3 (sort byCompletedAtDesc group))
    by (rewrite Hr; reflexivity).
  assert (Htotal : Ranking.totalMilliseconds r = avgTimeMs group)
    by (rewrite Hr; reflexivity).
  rewrite Hrecent, Htotal, Hcount. clear Hr Hrecent Htotal Hcount.
  split; [exact Hlen |]. split.
  - rewrite length_firstn, (sort_length byCompletedAtDesc). lia.
  - unfold avgTimeMs. destruct group; [simpl in Hlen; lia | reflexivity].
Qed.

(** X3. A user who has just completed an assignment is in the ranking
    of the assignment's unit. *)
Theorem completed_user_is_ranked (now : Date) (assignmentId userId : Z)
    (db db' : DB) (completion : CompletedAssignment.t)
    (assignment : option Assignment.t) (user : option User.t)
    (a : Assignment.t) :
  completeAssignment now assignmentId userId db
  = Some (Completed completion assignment user, db') ->
  In a (assignments db) -> Assignment.id a = assignmentId ->
  exists rankings,
    getUnitRankings formatDistance (Assignment.unitCode a) db'
    = Some (rankings, db')
    /\ In userId (map Ranking.userId rankings).
Proof.
  intros H Ha Hid. apply completeAssignment_inserted in H.
  destruct H as [Hc [[u [Hu Eu]] [_ Hdb]]].
  eexists. split; [apply getUnitRankings_rankingsOf |].
  apply rankingsOf_userIds. unfold resolved.
  rewrite (filter_all _ _ (selectUserCompletions_resolves _ db')).
  apply in_map_iff.
  exists (UserCompletion.mk userId (User.name u) (User.profileImageUrl u)
            assignmentId now).
  split; [reflexivity |]. apply selectUserCompletions_In.
  exists completion, u, a. rewrite Hdb, Hc. simpl.
  repeat split; auto. apply in_or_app. right. now left.
Qed.

(** X4. Completing an assignment changes no ranking of a unit that the
    assignment does not belong to. *)
Theorem completeAssignment_other_rankings (now : Date)
    (assignmentId userId : Z) (db db' : DB) (res : CompleteResult)
    (unitCode : string) :
  completeAssignment now assignmentId userId db = Some (res, db') ->
  (forall a, In a (assignments db) -> Assignment.id a = assignmentId ->
             Assignment.unitCode a <> unitCode) ->
  exists rankings,
    getUnitRankings formatDistance unitCode db = Some (rankings, db)
    /\ getUnitRankings formatDistance unitCode db' = Some (rankings, db').
Proof.
  intros H Hother. eexists. split; [apply getUnitRankings_rankingsOf |].
  rewrite getUnitRankings_rankingsOf.
  apply completeAssignment_cases in H.
  destruct H as [[_ [-> _]] | [row [Hrow [_ [Hu [Ha Hc]]]]]];
    [reflexivity |].
  assert (E1 : selectUnitAssignments unitCode db'
               = selectUnitAssignments unitCode db).
  { unfold selectUnitAssignments. now rewrite Ha. }
  assert (E2 : selectUserCompletions unitCode db'
               = selectUserCompletions unitCode db).
  { unfold selectUserCompletions. rewrite Hc, Hu, Ha, flat_map_app.
    simpl. rewrite app_nil_r.
    rewrite (flat_map_nil _ (users db)); [apply app_nil_r |].
    intros u _. apply flat_map_nil. intros a Hin.
    unfold pairOf in Hrow. injection Hrow as Hr1 Hr2.
    destruct (CompletedAssignment.assignmentId row =? Assignment.id a)
      eqn:E; [| now rewrite andb_false_r].
    apply Z.eqb_eq in E.
    assert (Hne : Assignment.unitCode a <> unitCode)
      by (apply Hother; [exact Hin | congruence]).
    apply String.eqb_neq in Hne. now rewrite Hne, andb_false_r. }
  now rewrite E1, E2.
Qed.

End ThroughTheQueries.

(** * Signs of the averages *)

Lemma round53_nonneg (x : Q) : (0 <= x)%Q -> (0 <= Number.round53 x)%Q.
Proof.
  intros H. destruct (Qlt_le_dec 0 x) as [Hp | Hz].
  - apply Qlt_le_weak. now apply NumberFacts.round53_pos.
  - rewrite (NumberFacts.round53_0 x); [apply Qle_refl |].
    now apply Qle_antisym.
Qed.

Lemma latency_nonneg (e : Completion.t) :
  0 <= latencyMs e -> (0 <= latency e)%Q.
Proof.
  intros H. unfold latency, Number.sub, getTime, Number.of_Z.
  apply round53_nonneg. unfold latencyMs in H.
  assert (L : (inject_Z (Completion.createdAt e)
               <= inject_Z (Completion.completedAt e))%Q)
    by (rewrite <- Zle_Qle; lia).
  generalize dependent (inject_Z (Completion.completedAt e)).
  generalize dependent (inject_Z (Completion.createdAt e)).
  intros; lra.
Qed.

Lemma reduce_nonneg (es : list Completion.t) (acc : number) :
  Forall (fun e => 0 <= latencyMs e) es -> (0 <= acc)%Q ->
  (0 <= fold_left (fun sum c => Number.add sum (latency c)) es acc)%Q.
Proof.
  intros H. revert acc. induction H as [| e es He _ IH]; intros acc Hacc.
  - exact Hacc.
  - simpl. apply IH. unfold Number.add. apply round53_nonneg.
    pose proof (latency_nonneg e He) as L.
    generalize dependent (latency e). intros; lra.
Qed.

Lemma avgTimeMs_nonneg (es : list Completion.t) :
  Forall (fun e => 0 <= latencyMs e) es -> (0 <= avgTimeMs es)%Q.
Proof.
  intros H. unfold avgTimeMs.
  destruct (0 <? length es)%nat eqn:E; [| apply Qle_refl].
  apply Nat.ltb_lt in E.
  unfold Number.div, Number.of_Z. apply round53_nonneg.
  apply Qle_shift_div_l.
  - rewrite <- (Zlt_Qlt 0). lia.
  - rewrite Qmult_0_l. unfold totalTimeMs.
    apply reduce_nonneg; [exact H | apply Qle_refl].
Qed.

(** X5. When no fetched completion is earlier than the creation of its
    assignment, no average in the ranking is negative, whatever the
    rounding does. *)
Theorem averages_nonnegative (formatDistance : Date -> Date -> string)
    (unitAssignments : list Assignment.t)
    (userCompletions : list UserCompletion.t) (r : Ranking.t) :
  (forall c a,
     In c userCompletions ->
     findAssignment unitAssignments (UserCompletion.assignmentId c) = Some a ->
     Assignment.createdAt a <= UserCompletion.completedAt c) ->
  In r (rankingsOf formatDistance unitAssignments userCompletions) ->
  (0 <= Ranking.totalMilliseconds r)%Q.
Proof.
  intros Hord Hr. apply rankingsOf_In in Hr. destruct Hr as [i [_ ->]].
  simpl. apply avgTimeMs_nonneg. apply Forall_forall. intros e He.
  apply entriesOf_In in He. destruct He as [c [Hc He]].
  unfold rowsOfUser, resolved in Hc. rewrite !filter_In in Hc.
  destruct Hc as [[Hin _] _]. unfold entryOf in He.
  destruct (findAssignment unitAssignments (UserCompletion.assignmentId c))
    as [a |] eqn:Ea; [| discriminate].
  injection He as <-. unfold latencyMs. simpl.
  specialize (Hord c a Hin Ea). lia.
Qed.

(** * The user methods *)

Lemma firstRow_filter_Some {A} (p : A -> bool) (l : list A) (x : A) :
  firstRow (filter p l) = Some x -> In x l /\ p x = true.
Proof.
  unfold firstRow. destruct (filter p l) as [| y rest] eqn:E;
    [discriminate |].
  intros [= ->]. apply filter_In. rewrite E. now left.
Qed.

Lemma firstRow_filter_None {A} (p : A -> bool) (l : list A) :
  firstRow (filter p l) = None <-> forall x, In x l -> p x = false.
Proof.
  unfold firstRow. split.
  - destruct (filter p l) eqn:E; [| discriminate].
    intros _. now apply filter_nil_forall.
  - intros H. destruct (filter p l) as [| y rest] eqn:E; [reflexivity |].
    assert (Hy : In y (filter p l)) by (rewrite E; now left).
    apply filter_In in Hy. destruct Hy as [Hy Hp].
    rewrite (H y Hy) in Hp. discriminate.
Qed.

(** [getUserByCredentials] never changes the database; the user it
    returns is a stored user with this name and this admission number,
    and it returns [undefined] exactly when no stored user has both. *)
Lemma getUserByCredentials_spec (name admissionNumber : string) (db : DB) :
  exists found,
    getUserByCredentials name admissionNumber db = Some (found, db)
    /\ (forall u, found = Some u ->
          In u (users db) /\ User.name u = name
          /\ User.admissionNumber u = admissionNumber)
    /\ (found = None <->
        forall u, In u (users db) ->
          ~ (User.name u = name /\ User.admissionNumber u = admissionNumber)).
Proof.
  eexists. split; [reflexivity |]. split.
  - intros u H. apply firstRow_filter_Some in H. destruct H as [Hin Hp].
    apply andb_true_iff in Hp. rewrite !String.eqb_eq in Hp. tauto.
  - rewrite firstRow_filter_None. split.
    + intros H u Hu [E1 E2]. specialize (H u Hu).
      rewrite E1, E2, !String.eqb_refl in H. discriminate.
    + intros H u Hu. specialize (H u Hu).
      destruct (String.eqb (User.name u) name) eqn:E1;
        [| reflexivity].
      destruct (String.eqb (User.admissionNumber u) admissionNumber) eqn:E2;
        [| reflexivity].
      apply String.eqb_eq in E1, E2. tauto.
Qed.

Lemma filter_map_update {A} (p : A -> bool) (f : A -> A) (l : list A) :
  (forall x, p (f x) = p x) ->
  filter p (map (fun x => if p x then f x else x) l) = map f (filter p l).
Proof.
  intros H. induction l as [| a l IH]; simpl; [reflexivity |].
  destruct (p a) eqn:E.
  - rewrite H, E. simpl. now rewrite IH.
  - rewrite E. exact IH.
Qed.

Lemma updateUsers_getUser (id : Z) (set : User.t -> User.t) (db db' : DB)
    (rows : list User.t) :
  (forall u, User.id (set u) = User.id u) ->
  updateUsers id set db = Some (rows, db') ->
  rows = map set (filter (fun u => User.id u =? id) (users db))
  /\ filter (fun u => User.id u =? id) (users db') = rows
  /\ assignments db' = assignments db
  /\ completedAssignments db' = completedAssignments db
  /\ completedAssignments_id_seq db' = completedAssignments_id_seq db
  /\ Forall2 (fun u u' => (User.id u <> id /\ u' = u)
                          \/ (User.id u = id /\ u' = set u))
       (users db) (users db').
Proof.
  intros Hid. unfold updateUsers. intros [= <- <-]. simpl.
  split; [reflexivity |]. split.
  - apply (filter_map_update (fun u => User.id u =? id)).
    intros u. now rewrite Hid.
  - repeat split.
    induction (users db) as [| u l IH]; simpl; constructor; [| exact IH].
    destruct (User.id u =? id) eqn:E.
    + right. apply Z.eqb_eq in E. tauto.
    + left. apply Z.eqb_neq in E. tauto.
Qed.

Lemma updateUsers_firstRow (id : Z) (set : User.t -> User.t) (db : DB) :
  (forall u, User.id (set u) = User.id u) ->
  exists rows db',
    updateUsers id set db = Some (rows, db')
    /\ firstRow rows
       = option_map set
           (firstRow (filter (fun u => User.id u =? id) (users db)))
    /\ getUser id db' = Some (firstRow rows, db')
    /\ Forall2 (fun u u' => (User.id u <> id /\ u' = u)
                            \/ (User.id u = id /\ u' = set u))
         (users db) (users db')
    /\ assignments db' = assignments db
    /\ completedAssignments db' = completedAssignments db.
Proof.
  intros Hid.
  destruct (updateUsers id set db) as [[rows db'] |] eqn:E; [| discriminate].
  pose proof (updateUsers_getUser id set db db' rows Hid E)
    as [Hrows [Hget [Ha [Hc [_ Hall]]]]].
  exists rows, db'. split; [reflexivity |].
  split; [| split; [| split; [| split]]].
  - rewrite Hrows. now destruct (filter _ (users db)).
  - unfold getUser, bind, select, ret. now rewrite Hget.
  - exact Hall.
  - exact Ha.
  - exact Hc.
Qed.

(** X6. [updateUserPassword] and [getUser] compose: the row that
    [getUser] finds gets the new hash, is what the update returns and
    what [getUser] finds afterwards.  A user with another id is not
    touched, a user with this id changes in the password only, and the
    other tables stay as they were. *)
Theorem updateUserPassword_getUser (id : Z) (hashedPassword : string)
    (db : DB) :
  exists found db',
    getUser id db = Some (found, db)
    /\ updateUserPassword id hashedPassword db
       = Some (option_map (setPassword hashedPassword) found, db')
    /\ getUser id db'
       = Some (option_map (setPassword hashedPassword) found, db')
    /\ Forall2 (fun u u' => (User.id u <> id /\ u' = u)
                            \/ (User.id u = id
                                /\ u' = setPassword hashedPassword u))
         (users db) (users db')
    /\ assignments db' = assignments db
    /\ completedAssignments db' = completedAssignments db.
Proof.
  destruct (updateUsers_firstRow id (setPassword hashedPassword) db
              (fun u => eq_refl))
    as [rows [db' [E [Hrows [Hget [Hall [Ha Hc]]]]]]].
  exists (firstRow (filter (fun u => User.id u =? id) (users db))), db'.
  split; [reflexivity |]. split; [| split; [| split; [| split]]].
  - unfold updateUserPassword, bind, ret. now rewrite E, Hrows.
  - now rewrite <- Hrows.
  - exact Hall.
  - exact Ha.
  - exact Hc.
Qed.

(** X7. [updateUserProfileImage] sets the image of the user with this
    id and of nobody else, and leaves every password and every stored
    rank as it was; without such a user it returns [undefined] and the
    users are unchanged. *)
Theorem updateUserProfileImage_spec (id : Z) (imageUrl : string) (db : DB) :
  exists updated db',
    updateUserProfileImage id imageUrl db = Some (updated, db')
    /\ getUser id db' = Some (updated, db')
    /\ (forall u, updated = Some u ->
          User.id u = id /\ User.profileImageUrl u = Some imageUrl)
    /\ (updated = None -> users db' = users db)
    /\ map User.password (users db') = map User.password (users db)
    /\ map User.rank (users db') = map User.rank (users db)
    /\ Forall2 (fun u u' => User.id u <> id -> u' = u)
         (users db) (users db').
Proof.
  destruct (updateUsers id (setProfileImageUrl imageUrl) db)
    as [[rows db'] |] eqn:E; [| discriminate].
  pose proof (updateUsers_getUser id (setProfileImageUrl imageUrl) db db'
                rows (fun u => eq_refl) E)
    as [Hrows [Hget [_ [_ [_ Hall]]]]].
  exists (firstRow rows), db'.
  split; [| split; [| split; [| split; [| split; [| split]]]]].
  - unfold updateUserProfileImage, bind, ret. now rewrite E.
  - unfold getUser, bind, select, ret. now rewrite Hget.
  - intros u Hu. rewrite Hrows in Hu. unfold firstRow in Hu.
    destruct (filter _ (users db)) as [| u0 rest] eqn:F; [discriminate |].
    injection Hu as <-. simpl. split; [| reflexivity].
    assert (H0 : In u0 (filter (fun u => User.id u =? id) (users db)))
      by (rewrite F; now left).
    apply filter_In in H0. now apply Z.eqb_eq.
  - intros Hnone. rewrite Hrows in Hnone. unfold firstRow in Hnone.
    destruct (filter _ (users db)) as [| u0 rest] eqn:F; [| discriminate].
    pose proof (filter_nil_forall _ _ F) as Hno.
    clear - Hall Hno. induction Hall as [| u u' l l' H _ IH];
      [reflexivity |].
    rewrite IH by (intros x Hx; apply Hno; now right). f_equal.
    destruct H as [[_ ->] | [Hid _]]; [reflexivity |].
    specialize (Hno u (or_introl eq_refl)). simpl in Hno.
    apply Z.eqb_neq in Hno. contradiction.
  - clear - Hall. induction Hall as [| u u' l l' H _ IH]; [reflexivity |].
    simpl. rewrite IH. f_equal.
    destruct H as [[_ ->] | [_ ->]]; reflexivity.
  - clear - Hall. induction Hall as [| u u' l l' H _ IH]; [reflexivity |].
    simpl. rewrite IH. f_equal.
    destruct H as [[_ ->] | [_ ->]]; reflexivity.
  - eapply Forall2_impl; [| exact Hall]. intros u u' H Hne.
    destruct H as [[_ ->] | [Hid _]]; [reflexivity | contradiction].
Qed.

(** * ORDER BY and the joins *)

Section OrderByFacts.
Context {A : Type}.
Variable key : A -> Z.

Lemma insertBy_perm (x : A) (l : list A) :
  Permutation (x :: l) (insertBy key x l).
Proof.
  induction l as [| y l IH]; simpl; [apply Permutation_refl |].
  destruct (key y <? key x).
  - eapply perm_trans; [apply perm_swap |]. now apply perm_skip.
  - apply Permutation_refl.
Qed.

Lemma orderBy_perm (l : list A) : Permutation l (orderBy key l).
Proof.
  induction l as [| x l IH]; simpl; [apply perm_nil |].
  eapply perm_trans; [apply perm_skip, IH | apply insertBy_perm].
Qed.

Lemma orderBy_In (x : A) (l : list A) : In x (orderBy key l) <-> In x l.
Proof.
  split; apply Permutation_in; [apply Permutation_sym |]; apply orderBy_perm.
Qed.

Lemma insertBy_sorted (x : A) (l : list A) :
  StronglySorted (ascending key) l ->
  StronglySorted (ascending key) (insertBy key x l).
Proof.
  induction 1 as [| y l Hs IH Hy]; simpl.
  - constructor; constructor.
  - destruct (key y <? key x) eqn:E.
    + apply Z.ltb_lt in E. constructor; [exact IH |].
      apply (Permutation_Forall (insertBy_perm x l)).
      constructor; [unfold ascending; lia | exact Hy].
    + apply Z.ltb_ge in E. constructor; [now constructor |].
      constructor; [exact E |].
      eapply Forall_impl; [| exact Hy].
      intros z Hz. unfold ascending in *. lia.
Qed.

Lemma orderBy_sorted (l : list A) :
  StronglySorted (ascending key) (orderBy key l).
Proof.
  induction l as [| x l IH]; simpl; [constructor |].
  now apply insertBy_sorted.
Qed.

End OrderByFacts.

Lemma leftJoin_In {A B} (on : A -> B -> bool) (right : list B) (a a' : A)
    (ob : option B) :
  In (a', ob) (leftJoin on right a) <->
  a' = a
  /\ ((ob = None /\ forall b, In b right -> on a b = false)
      \/ (exists b, ob = Some b /\ In b right /\ on a b = true)).
Proof.
  unfold leftJoin. destruct (filter (on a) right) as [| b0 rest] eqn:E.
  - pose proof (filter_nil_forall _ _ E) as Hno. simpl. split.
    + intros [[= <- <-] | []]. split; [reflexivity |]. now left.
    + intros [-> [[-> _] | [b [_ [Hb Hon]]]]]; [now left |].
      rewrite (Hno b Hb) in Hon. discriminate.
  - rewrite <- E. rewrite in_map_iff. split.
    + intros [b [[= <- <-] Hb]]. apply filter_In in Hb.
      split; [reflexivity |]. right. exists b. tauto.
    + intros [-> [[_ Hno] | [b [-> [Hb Hon]]]]].
      * assert (H0 : In b0 (filter (on a) right)) by (rewrite E; now left).
        apply filter_In in H0. destruct H0 as [H0 H1].
        rewrite (Hno b0 H0) in H1. discriminate.
      * exists b. split; [reflexivity |]. apply filter_In. tauto.
Qed.

(** Where the rows of the assignment listings come from. *)
Lemma joinAssignments_In (userId : Z) (rows : list Assignment.t) (db : DB)
    (r : AssignmentRow.t) :
  In r (joinAssignments userId rows db) <->
  exists a u oc,
    In a rows /\ In u (users db) /\ Assignment.userId a = User.id u
    /\ r = assignmentRow a u oc
    /\ ((oc = None
         /\ forall c, In c (completedAssignments db) ->
                      completionOf userId a c = false)
        \/ (exists c, oc = Some c /\ In c (completedAssignments db)
                      /\ completionOf userId a c = true)).
Proof.
  unfold joinAssignments. rewrite in_flat_map. split.
  - intros [a [Ha H]]. apply in_flat_map in H.
    destruct H as [[a0 u0] [Hau H]].
    unfold innerJoin in Hau. apply in_map_iff in Hau.
    destruct Hau as [u [[= <- <-] Hu]]. apply filter_In in Hu.
    destruct Hu as [Hu Eu]. apply Z.eqb_eq in Eu.
    apply in_map_iff in H. destruct H as [[au oc] [<- H]].
    apply leftJoin_In in H. destruct H as [-> H]. simpl in *.
    exists a, u, oc. repeat split; assumption.
  - intros [a [u [oc [Ha [Hu [Eu [-> H]]]]]]].
    exists a. split; [exact Ha |]. apply in_flat_map. exists (a, u). split.
    + unfold innerJoin. apply in_map. apply filter_In.
      split; [exact Hu | now apply Z.eqb_eq].
    + apply in_map_iff. exists ((a, u), oc). split; [reflexivity |].
      apply leftJoin_In. split; [reflexivity | exact H].
Qed.

Lemma completionOf_true (userId : Z) (a : Assignment.t)
    (c : CompletedAssignment.t) :
  completionOf userId a c = true <->
  CompletedAssignment.assignmentId c = Assignment.id a
  /\ CompletedAssignment.userId c = userId.
Proof.
  unfold completionOf. rewrite andb_true_iff, !Z.eqb_eq.
  split; intros [H1 H2]; split; congruence.
Qed.

(** The [completed] flag of a joined row tells whether the user has a
    completion row for the assignment. *)
Lemma joinAssignments_completed (userId : Z) (rows : list Assignment.t)
    (db : DB) (r : AssignmentRow.t) :
  In r (joinAssignments userId rows db) ->
  (AssignmentRow.completed r = true <->
   exists c, In c (completedAssignments db)
             /\ CompletedAssignment.assignmentId c = AssignmentRow.id r
             /\ CompletedAssignment.userId c = userId)
  /\ (AssignmentRow.completed r = true <-> AssignmentRow.completedAt r <> None)
  /\ exists a, In a rows /\ AssignmentRow.id r = Assignment.id a
               /\ AssignmentRow.unitCode r = Assignment.unitCode a
               /\ AssignmentRow.deadline r = Assignment.deadline a.
Proof.
  intros H. apply joinAssignments_In in H.
  destruct H as [a [u [oc [Ha [_ [_ [-> H]]]]]]].
  split; [| split; [| exists a; simpl; tauto]].
  - destruct H as [[-> Hno] | [c [-> [Hc Hon]]]]; simpl.
    + split; [discriminate |]. intros [c [Hc [E1 E2]]].
      assert (Hon : completionOf userId a c = true)
        by (apply completionOf_true; tauto).
      rewrite (Hno c Hc) in Hon. discriminate.
    + split; [| reflexivity]. intros _. exists c.
      apply completionOf_true in Hon. tauto.
  - destruct oc; simpl; split; congruence.
Qed.

(** X8. [getAssignmentsByUnit] only reads.  Its rows are in ascending
    order of deadline and belong to the unit; a row is flagged completed
    exactly when the user has a completion row for the assignment, and
    exactly then it carries a completion time; and every assignment of
    the unit whose uploader exists has a row. *)
Theorem getAssignmentsByUnit_spec (unitCode : string) (userId : Z) (db : DB) :
  exists rows,
    getAssignmentsByUnit unitCode userId db = Some (rows, db)
    /\ StronglySorted (ascending AssignmentRow.deadline) rows
    /\ (forall r, In r rows ->
          AssignmentRow.unitCode r = unitCode
          /\ (AssignmentRow.completed r = true <->
              exists c, In c (completedAssignments db)
                        /\ CompletedAssignment.assignmentId c
                           = AssignmentRow.id r
                        /\ CompletedAssignment.userId c = userId)
          /\ (AssignmentRow.completed r = true <->
              AssignmentRow.completedAt r <> None))
    /\ (forall a u, In a (assignments db) ->
          Assignment.unitCode a = unitCode ->
          In u (users db) -> Assignment.userId a = User.id u ->
          exists r, In r rows /\ AssignmentRow.id r = Assignment.id a
                    /\ AssignmentRow.uploadedBy r = User.name u).
Proof.
  eexists. split; [reflexivity |]. split; [apply orderBy_sorted |]. split.
  - intros r Hr. apply orderBy_In in Hr.
    destruct (joinAssignments_completed _ _ _ _ Hr)
      as [H1 [H2 [a [Ha [_ [Hu _]]]]]].
    apply selectUnitAssignments_In in Ha. split; [| tauto].
    rewrite Hu. tauto.
  - intros a u Ha Hunit Hu Hid.
    set (matches := filter (completionOf userId a) (completedAssignments db)).
    exists (assignmentRow a u (hd_error matches)).
    split; [| split; reflexivity].
    apply orderBy_In, joinAssignments_In. exists a, u, (hd_error matches).
    split; [apply selectUnitAssignments_In; tauto |].
    split; [exact Hu |]. split; [exact Hid |]. split; [reflexivity |].
    destruct matches as [| c rest] eqn:E; simpl.
    + left. split; [reflexivity |]. now apply filter_nil_forall.
    + right. exists c. split; [reflexivity |].
      assert (Hc : In c matches) by (rewrite E; now left).
      unfold matches in Hc. apply filter_In in Hc. tauto.
Qed.

(** X9. After a call of [completeAssignment] that returns, every row
    of the assignment in the user's listing is flagged completed. *)
Theorem completeAssignment_then_listed (now : Date) (assignmentId userId : Z)
    (db db' : DB) (res : CompleteResult) (unitCode : string)
    (rows : list AssignmentRow.t) (db'' : DB) (r : AssignmentRow.t) :
  completeAssignment now assignmentId userId db = Some (res, db') ->
  getAssignmentsByUnit unitCode userId db' = Some (rows, db'') ->
  In r rows -> AssignmentRow.id r = assignmentId ->
  AssignmentRow.completed r = true /\ db'' = db'.
Proof.
  intros Hc Hl Hr Hid. unfold getAssignmentsByUnit, select in Hl.
  injection Hl as <- <-. split; [| reflexivity].
  apply orderBy_In in Hr.
  apply (proj1 (joinAssignments_completed _ _ _ _ Hr)).
  assert (Hin : In (assignmentId, userId)
                  (map pairOf (completedAssignments db'))).
  { apply completeAssignment_cases in Hc.
    destruct Hc as [[_ [-> Hin]] | [row [Hrow [_ [_ [_ Hrows]]]]]];
      [exact Hin |].
    rewrite Hrows, map_app. apply in_or_app. right. simpl. now left. }
  apply in_map_iff in Hin. destruct Hin as [c [Hp Hin]].
  unfold pairOf in Hp. injection Hp as H1 H2.
  exists c. rewrite Hid. tauto.
Qed.

(** X10. [getUpcomingDeadlines] only reads and returns at most five
    rows: the joined rows with the earliest deadlines, earliest first,
    whether or not the deadline has passed or the assignment is
    completed. *)
Theorem getUpcomingDeadlines_spec (userId : Z) (db : DB) :
  exists rows later,
    getUpcomingDeadlines userId db = Some (rows, db)
    /\ length rows
       = Nat.min 5 (length (joinAssignments userId (assignments db) db))
    /\ Permutation (rows ++ later)
         (joinAssignments userId (assignments db) db)
    /\ StronglySorted (ascending AssignmentRow.deadline) (rows ++ later).
Proof.
  set (joined := joinAssignments userId (assignments db) db).
  exists (firstn 5 (orderBy AssignmentRow.deadline joined)),
         (skipn 5 (orderBy AssignmentRow.deadline joined)).
  split; [reflexivity |]. split.
  - rewrite length_firstn. f_equal. symmetry.
    apply Permutation_length, orderBy_perm.
  - rewrite firstn_skipn. split.
    + apply Permutation_sym, orderBy_perm.
    + apply orderBy_sorted.
Qed.

(** * Views of notes *)

Lemma markNoteAsViewed_cases (now : Date) (noteId userId : Z)
    (p p' : Portal) :
  markNoteAsViewed now noteId userId p = Some (tt, p') ->
  (p' = p /\ In (noteId, userId) (map viewOf (userNoteViews p)))
  \/ (exists row,
        viewOf row = (noteId, userId)
        /\ ~ In (noteId, userId) (map viewOf (userNoteViews p))
        /\ (exists n, In n (notes p) /\ Note.id n = noteId)
        /\ (exists u, In u (users (base p)) /\ User.id u = userId)
        /\ p' = mkPortal (base p) (units p) (notes p) (pastPapers p)
                  (userNoteViews p ++ [row]) (userPaperViews p)
                  (assignments_id_seq p) (userNoteViews_id_seq p + 1)
                  (userPaperViews_id_seq p)).
Proof.
  unfold markNoteAsViewed, andThen, query, done.
  set (q := fun v => (UserNoteView.noteId v =? noteId)
                     && (UserNoteView.userId v =? userId)).
  destruct (firstRow (filter q (userNoteViews p))) as [v |] eqn:E.
  - intros [= <-]. left. split; [reflexivity |].
    apply firstRow_filter_Some in E. destruct E as [Hin Hq].
    unfold q in Hq. apply andb_true_iff in Hq. rewrite !Z.eqb_eq in Hq.
    apply in_map_iff. exists v. unfold viewOf. split; [| exact Hin].
    destruct Hq as [-> ->]. reflexivity.
  - unfold insertUserNoteView.
    destruct (existsb _ (notes p)) eqn:En; [| discriminate].
    destruct (existsb _ (users (base p))) eqn:Eu; [| discriminate].
    match goal with
    | |- context [if ?c then _ else _] => destruct c
    end; [| discriminate].
    simpl. intros [= <-]. right.
    exists (UserNoteView.mk (userNoteViews_id_seq p) noteId userId now).
    split; [reflexivity |]. split.
    + intros Hin. apply in_map_iff in Hin. destruct Hin as [v [Hv Hin]].
      rewrite firstRow_filter_None in E. specialize (E v Hin).
      unfold viewOf in Hv. injection Hv as H1 H2.
      unfold q in E. now rewrite H1, H2, !Z.eqb_refl in E.
    + apply existsb_exists in En, Eu.
      destruct En as [n [Hn En]]. destruct Eu as [u [Hu Eu]].
      apply Z.eqb_eq in En, Eu. eauto 8.
Qed.

Lemma markNoteAsViewed_again (now : Date) (noteId userId : Z) (p : Portal) :
  In (noteId, userId) (map viewOf (userNoteViews p)) ->
  markNoteAsViewed now noteId userId p = Some (tt, p).
Proof.
  intros Hin. apply in_map_iff in Hin. destruct Hin as [v [Hv Hin]].
  unfold viewOf in Hv. injection Hv as H1 H2.
  unfold markNoteAsViewed, andThen, query, done.
  set (q := fun v => (UserNoteView.noteId v =? noteId)
                     && (UserNoteView.userId v =? userId)).
  assert (Hq : q v = true) by (unfold q; now rewrite H1, H2, !Z.eqb_refl).
  destruct (filter_cons_In q _ v Hin Hq) as [y [rest ->]]. reflexivity.
Qed.

(** The state that a returning call leaves. *)
Lemma markNoteAsViewed_state (now : Date) (noteId userId : Z)
    (p p' : Portal) :
  markNoteAsViewed now noteId userId p = Some (tt, p') ->
  p' = p
  \/ p' = mkPortal (base p) (units p) (notes p) (pastPapers p)
            (userNoteViews p
             ++ [UserNoteView.mk (userNoteViews_id_seq p) noteId userId
                   now])
            (userPaperViews p) (assignments_id_seq p)
            (userNoteViews_id_seq p + 1) (userPaperViews_id_seq p).
Proof.
  unfold markNoteAsViewed, andThen, query, done.
  destruct (firstRow _) as [v |].
  - intros [= <-]. now left.
  - unfold insertUserNoteView.
    match goal with
    | |- context [if ?c then _ else _] => destruct c
    end; [| discriminate].
    intros [= <-]. now right.
Qed.

(** X11. [markNoteAsViewed] records a view once: a call that returns
    leaves the pair recorded and the views unique per (note, user); it
    either writes nothing or appends one view row, of this pair and
    time and with the next id of the sequence, and advances that
    sequence, every other table and sequence staying as it was; and any
    later call for the pair changes nothing. *)
Theorem markNoteAsViewed_once (now : Date) (noteId userId : Z)
    (p p' : Portal) :
  markNoteAsViewed now noteId userId p = Some (tt, p') ->
  In (noteId, userId) (map viewOf (userNoteViews p'))
  /\ (uniqueViews p -> uniqueViews p')
  /\ base p' = base p /\ notes p' = notes p
  /\ (forall later, markNoteAsViewed later noteId userId p' = Some (tt, p'))
  /\ units p' = units p /\ pastPapers p' = pastPapers p
  /\ userPaperViews p' = userPaperViews p
  /\ assignments_id_seq p' = assignments_id_seq p
  /\ userPaperViews_id_seq p' = userPaperViews_id_seq p
  /\ ((userNoteViews p' = userNoteViews p
       /\ userNoteViews_id_seq p' = userNoteViews_id_seq p)
      \/ (userNoteViews p'
          = userNoteViews p
            ++ [UserNoteView.mk (userNoteViews_id_seq p) noteId userId now]
          /\ userNoteViews_id_seq p' = userNoteViews_id_seq p + 1)).
Proof.
  intros H. pose proof (markNoteAsViewed_state _ _ _ _ _ H) as Hst.
  apply markNoteAsViewed_cases in H.
  assert (Hframe :
            units p' = units p /\ pastPapers p' = pastPapers p
            /\ userPaperViews p' = userPaperViews p
            /\ assignments_id_seq p' = assignments_id_seq p
            /\ userPaperViews_id_seq p' = userPaperViews_id_seq p
            /\ ((userNoteViews p' = userNoteViews p
                 /\ userNoteViews_id_seq p' = userNoteViews_id_seq p)
                \/ (userNoteViews p'
                    = userNoteViews p
                      ++ [UserNoteView.mk (userNoteViews_id_seq p) noteId
                            userId now]
                    /\ userNoteViews_id_seq p'
                       = userNoteViews_id_seq p + 1))).
  { destruct Hst as [-> | ->]; simpl; repeat split; auto. }
  clear Hst.
  destruct H as [[-> Hin] | [row [Hrow [Hnot [_ [_ ->]]]]]].
  - split; [exact Hin |]. split; [tauto |]. split; [reflexivity |].
    split; [reflexivity |].
    split; [| exact Hframe].
    intros later. now apply markNoteAsViewed_again.
  - assert (Hin : In (noteId, userId)
                    (map viewOf (userNoteViews p ++ [row]))).
    { rewrite map_app. apply in_or_app. right. simpl. now left. }
    split; [exact Hin |]. split; [| split; [reflexivity |]].
    + unfold uniqueViews. simpl. rewrite map_app. simpl. rewrite Hrow.
      intros Hnd.
      apply Permutation_NoDup
        with ((noteId, userId) :: map viewOf (userNoteViews p)).
      * apply Permutation_cons_append.
      * now constructor.
    + split; [reflexivity |].
      split; [| exact Hframe].
      intros later. now apply markNoteAsViewed_again.
Qed.

(** X12. Marking a note that is not in [notes], by a user who has no
    view of it, fails on the foreign key: the call throws. *)
Theorem markNoteAsViewed_missing_note (now : Date) (noteId userId : Z)
    (p : Portal) :
  (forall n, In n (notes p) -> Note.id n <> noteId) ->
  ~ In (noteId, userId) (map viewOf (userNoteViews p)) ->
  markNoteAsViewed now noteId userId p = None.
Proof.
  intros Hno Hnew.
  destruct (markNoteAsViewed now noteId userId p) as [[[] p'] |] eqn:E;
    [| reflexivity].
  apply markNoteAsViewed_cases in E.
  destruct E as [[_ Hin] | [row [_ [_ [[n [Hn En]] _]]]]].
  - contradiction.
  - destruct (Hno n Hn En).
Qed.

Lemma viewOfNote_true (userId : Z) (n : Note.t) (v : UserNoteView.t) :
  viewOfNote userId n v = true <-> viewOf v = (Note.id n, userId).
Proof.
  unfold viewOfNote, viewOf. rewrite andb_true_iff, !Z.eqb_eq.
  split; [intros [-> ->]; reflexivity | intros [= -> ->]; tauto].
Qed.

(** The rows of [getNotesByUnit], and what [viewed] tells. *)
Lemma getNotesByUnit_In (unitCode : string) (userId : Z) (p : Portal)
    (r : NoteRow.t) :
  (exists rows, getNotesByUnit unitCode userId p = Some (rows, p)
                /\ In r rows) ->
  NoteRow.unitCode r = unitCode
  /\ (NoteRow.viewed r = true <->
      In (NoteRow.id r, userId) (map viewOf (userNoteViews p))).
Proof.
  intros [rows [[= <-] Hr]]. unfold orderByDesc in Hr.
  apply orderBy_In in Hr. apply in_flat_map in Hr.
  destruct Hr as [n [Hn Hr]]. apply filter_In in Hn.
  destruct Hn as [_ Hn]. apply String.eqb_eq in Hn.
  apply in_flat_map in Hr. destruct Hr as [[n0 u0] [Hnu Hr]].
  unfold innerJoin in Hnu. apply in_map_iff in Hnu.
  destruct Hnu as [u [[= <- <-] _]].
  apply in_map_iff in Hr. destruct Hr as [[nu ov] [<- Hr]].
  apply leftJoin_In in Hr. destruct Hr as [-> H]. simpl.
  split; [exact Hn |].
  destruct H as [[-> Hno] | [v [-> [Hv Hon]]]]; simpl in *.
  - split; [discriminate |]. intros Hin. apply in_map_iff in Hin.
    destruct Hin as [v [Hv Hin]]. apply viewOfNote_true in Hv.
    rewrite (Hno v Hin) in Hv. discriminate.
  - split; [| reflexivity]. intros _. apply in_map_iff. exists v.
    split; [now apply viewOfNote_true | exact Hv].
Qed.

(** X13. [getNotesByUnit] lists notes of the unit only and flags a row
    viewed exactly when the user has a view row for the note; so after a
    call of [markNoteAsViewed] that returns, every row of the note in the
    user's listing is flagged viewed. *)
Theorem markNoteAsViewed_then_listed (now : Date) (noteId userId : Z)
    (p p' : Portal) (unitCode : string) (rows : list NoteRow.t)
    (p'' : Portal) (r : NoteRow.t) :
  markNoteAsViewed now noteId userId p = Some (tt, p') ->
  getNotesByUnit unitCode userId p' = Some (rows, p'') ->
  In r rows ->
  p'' = p'
  /\ NoteRow.unitCode r = unitCode
  /\ (NoteRow.viewed r = true <->
      In (NoteRow.id r, userId) (map viewOf (userNoteViews p')))
  /\ (NoteRow.id r = noteId -> NoteRow.viewed r = true).
Proof.
  intros Hm Hl Hr.
  assert (E : p'' = p') by (unfold getNotesByUnit, query in Hl; congruence).
  subst p''. split; [reflexivity |].
  destruct (getNotesByUnit_In unitCode userId p' r) as [Hu Hv]; [eauto |].
  split; [exact Hu |]. split; [exact Hv |].
  intros Hid. apply Hv. rewrite Hid.
  apply markNoteAsViewed_cases in Hm.
  destruct Hm as [[-> Hin] | [row [Hrow [_ [_ [_ ->]]]]]]; [exact Hin |].
  simpl. rewrite map_app. apply in_or_app. right. simpl. now left.
Qed.

(** * Creating an assignment *)

Lemma createAssignment_cases (now : Date) (data : InsertAssignment.t)
    (p p' : Portal) (row : CreatedAssignment.t) :
  createAssignment now data p = Some (row, p') ->
  let new :=
    Assignment.mk (assignments_id_seq p) (InsertAssignment.title data)
      (InsertAssignment.description data) (InsertAssignment.deadline data)
      (InsertAssignment.fileUrl data) (InsertAssignment.unitCode data)
      (InsertAssignment.userId data) now in
  (exists u, In u (users (base p))
             /\ User.id u = InsertAssignment.userId data
             /\ row = CreatedAssignment.mk new (User.name u) false)
  /\ (forall a, In a (assignments (base p)) ->
                Assignment.id a <> assignments_id_seq p)
  /\ p' = mkPortal
            (mkDB (users (base p)) (assignments (base p) ++ [new])
               (completedAssignments (base p))
               (completedAssignments_id_seq (base p)))
            (units p) (notes p) (pastPapers p) (userNoteViews p)
            (userPaperViews p) (assignments_id_seq p + 1)
            (userNoteViews_id_seq p) (userPaperViews_id_seq p).
Proof.
  unfold createAssignment, andThen, insertAssignment, onBase, select, done,
    withBase.
  destruct (existsb _ (users (base p))) eqn:Eu; [| discriminate].
  destruct (negb _) eqn:Ea; [| discriminate].
  simpl.
  destruct (firstRow _) as [u |] eqn:Ef; [| discriminate].
  intros [= <- <-]. simpl. split; [| split; [| reflexivity]].
  - apply firstRow_filter_Some in Ef. destruct Ef as [Hu Eid].
    apply Z.eqb_eq in Eid. exists u. auto.
  - intros a Ha Hid. apply negb_true_iff in Ea.
    assert (H : existsb (fun a => Assignment.id a =? assignments_id_seq p)
                  (assignments (base p)) = true).
    { apply existsb_exists. exists a. split; [exact Ha |].
      now apply Z.eqb_eq. }
    congruence.
Qed.

(** X14. A call of [createAssignment] that returns has appended one
    assignment, with the next id of the sequence and the time of the
    insert as [createdAt], and advanced that sequence; every other table
    and sequence is as it was.  What it returns is that row, not
    completed, with the name of a stored user who has the uploader's
    id.  For an uploader who is not in [users] the call throws. *)
Theorem createAssignment_spec (now : Date) (data : InsertAssignment.t)
    (p : Portal) :
  (forall created p',
     createAssignment now data p = Some (created, p') ->
     CreatedAssignment.row created
     = Assignment.mk (assignments_id_seq p) (InsertAssignment.title data)
         (InsertAssignment.description data)
         (InsertAssignment.deadline data) (InsertAssignment.fileUrl data)
         (InsertAssignment.unitCode data) (InsertAssignment.userId data)
         now
     /\ assignments (base p')
        = assignments (base p) ++ [CreatedAssignment.row created]
     /\ users (base p') = users (base p)
     /\ completedAssignments (base p') = completedAssignments (base p)
     /\ notes p' = notes p /\ userNoteViews p' = userNoteViews p
     /\ CreatedAssignment.completed created = false
     /\ (exists u, In u (users (base p))
                   /\ User.id u = InsertAssignment.userId data
                   /\ CreatedAssignment.uploadedBy created = User.name u)
     /\ units p' = units p /\ pastPapers p' = pastPapers p
     /\ userPaperViews p' = userPaperViews p
     /\ completedAssignments_id_seq (base p')
        = completedAssignments_id_seq (base p)
     /\ assignments_id_seq p' = assignments_id_seq p + 1
     /\ userNoteViews_id_seq p' = userNoteViews_id_seq p
     /\ userPaperViews_id_seq p' = userPaperViews_id_seq p)
  /\ ((forall u, In u (users (base p)) ->
                 User.id u <> InsertAssignment.userId data) ->
      createAssignment now data p = None).
Proof.
  split.
  - intros created p' H. apply createAssignment_cases in H. cbv zeta in H.
    destruct H as [[u [Hu [Hid ->]]] [_ ->]]. simpl.
    repeat split; try reflexivity. exists u. auto.
  - intros Hno.
    destruct (createAssignment now data p) as [[created p'] |] eqn:E;
      [| reflexivity].
    apply createAssignment_cases in E. cbv zeta in E.
    destruct E as [[u [Hu [Hid _]]] _]. destruct (Hno u Hu Hid).
Qed.

Lemma fold_left_ext_in {A B} (f g : A -> B -> A) (l : list B) (acc : A) :
  (forall a x, In x l -> f a x = g a x) ->
  fold_left f l acc = fold_left g l acc.
Proof.
  revert acc. induction l as [| x l IH]; intros acc H; simpl; [reflexivity |].
  rewrite (H acc x (or_introl eq_refl)). apply IH.
  intros a y Hy. apply H. now right.
Qed.

Lemma flat_map_ext_in {A B} (f g : A -> list B) (l : list A) :
  (forall x, In x l -> f x = g x) -> flat_map f l = flat_map g l.
Proof.
  induction l as [| x l IH]; intros H; simpl; [reflexivity |].
  rewrite (H x (or_introl eq_refl)), IH; [reflexivity |].
  intros y Hy. apply H. now right.
Qed.

Lemma findAssignment_more (unitAssignments more : list Assignment.t)
    (id : Z) (a : Assignment.t) :
  findAssignment unitAssignments id = Some a ->
  findAssignment (unitAssignments ++ more) id = Some a.
Proof.
  unfold findAssignment. induction unitAssignments as [| x l IH]; simpl;
    [discriminate |].
  destruct (Assignment.id x =? id); [trivial | exact IH].
Qed.

(** Assignments added after the ones that the rows resolve to do not
    change the ranking. *)
Lemma rankingsOf_more_assignments (formatDistance : Date -> Date -> string)
    (unitAssignments more : list Assignment.t)
    (userCompletions : list UserCompletion.t) :
  resolved unitAssignments userCompletions = userCompletions ->
  rankingsOf formatDistance (unitAssignments ++ more) userCompletions
  = rankingsOf formatDistance unitAssignments userCompletions.
Proof.
  intros Hres.
  assert (Hall : forall c, In c userCompletions ->
                   resolves unitAssignments c = true).
  { intros c Hc. rewrite <- Hres in Hc. unfold resolved in Hc.
    apply filter_In in Hc. tauto. }
  destruct unitAssignments as [| a0 l].
  - destruct userCompletions as [| c cs].
    + unfold rankingsOf. simpl. now destruct more.
    + specialize (Hall c (or_introl eq_refl)). discriminate.
  - unfold rankingsOf. simpl length. simpl Nat.eqb. cbv iota.
    unfold rankUsers, groupCompletions. f_equal. f_equal. f_equal. f_equal.
    apply fold_left_ext_in. intros m c Hc. specialize (Hall c Hc).
    unfold resolves in Hall. unfold addCompletion.
    destruct (findAssignment (a0 :: l) (UserCompletion.assignmentId c))
      as [a |] eqn:E; [| discriminate].
    change ((a0 :: l) ++ more) with ((a0 :: l) ++ more).
    now rewrite (findAssignment_more _ more _ _ E).
Qed.

(** X15. Creating an assignment changes no ranking of any unit, as long
    as no completion row already refers to the id that the new
    assignment gets. *)
Theorem createAssignment_keeps_rankings
    (formatDistance : Date -> Date -> string) (now : Date)
    (data : InsertAssignment.t) (p p' : Portal)
    (created : CreatedAssignment.t) (unitCode : string) :
  createAssignment now data p = Some (created, p') ->
  (forall c, In c (completedAssignments (base p)) ->
             CompletedAssignment.assignmentId c <> assignments_id_seq p) ->
  exists rankings,
    getUnitRankings formatDistance unitCode (base p)
    = Some (rankings, base p)
    /\ getUnitRankings formatDistance unitCode (base p')
       = Some (rankings, base p').
Proof.
  intros H Hfresh. apply createAssignment_cases in H. cbv zeta in H.
  destruct H as [_ [_ ->]]. simpl base.
  set (new := Assignment.mk _ _ _ _ _ _ _ _).
  set (db := base p) in *.
  set (db' := mkDB _ _ _ _).
  eexists. split; [apply getUnitRankings_rankingsOf |].
  rewrite getUnitRankings_rankingsOf. f_equal. f_equal.
  assert (E2 : selectUserCompletions unitCode db'
               = selectUserCompletions unitCode db).
  { unfold selectUserCompletions, db'. simpl.
    apply flat_map_ext_in. intros c Hc.
    apply flat_map_ext_in. intros u _.
    rewrite flat_map_app. simpl.
    assert (Hne : (CompletedAssignment.assignmentId c
                   =? assignments_id_seq p) = false)
      by (apply Z.eqb_neq; now apply Hfresh).
    rewrite Hne, andb_false_r. simpl. now rewrite app_nil_r. }
  assert (E1 : exists more,
             selectUnitAssignments unitCode db'
             = selectUnitAssignments unitCode db ++ more).
  { unfold selectUnitAssignments, db'. simpl. rewrite filter_app. eauto. }
  destruct E1 as [more E1]. rewrite E1, E2.
  apply rankingsOf_more_assignments. unfold resolved. apply filter_all.
  apply selectUserCompletions_resolves.
Qed.

(** * The dashboard counts *)

Lemma forallb_negb_filter {A} (f : A -> bool) (l : list A) :
  forallb (fun x => negb (f x)) l = true <-> filter f l = [].
Proof.
  induction l as [| a l IH]; simpl; [tauto |].
  destruct (f a); simpl; [split; discriminate | exact IH].
Qed.




(** * The activity feed *)

Lemma byTimestampDesc_key (x y : Activity.t) :
  Number.ltb 0%Q (byTimestampDesc x y)
  = Number.ltb (- inject_Z (Activity.timestamp y))%Q
               (- inject_Z (Activity.timestamp x))%Q.
Proof.
  unfold byTimestampDesc. rewrite NumberFacts.ltb_0_sub.
  unfold Number.ltb, getTime, Number.of_Z. f_equal.
  set (a := inject_Z (Activity.timestamp x)).
  set (b := inject_Z (Activity.timestamp y)).
  destruct (Qle_bool b a) eqn:E1, (Qle_bool (- a) (- b)) eqn:E2;
    try reflexivity.
  - apply Qle_bool_iff in E1. assert (H : (- a <= - b)%Q) by lra.
    apply Qle_bool_iff in H. congruence.
  - apply Qle_bool_iff in E2. assert (H : (b <= a)%Q) by lra.
    apply Qle_bool_iff in H. congruence.
Qed.

Lemma sort_newerFirst (l : list Activity.t) :
  StronglySorted newerFirst (sort byTimestampDesc l).
Proof.
  apply (StronglySorted_weaken
           (key_le (fun a => (- inject_Z (Activity.timestamp a))%Q))).
  - intros x y. unfold key_le, newerFirst. intros H. rewrite Zle_Qle.
    generalize dependent (inject_Z (Activity.timestamp x)).
    generalize dependent (inject_Z (Activity.timestamp y)).
    intros; lra.
  - apply sort_sorted. exact byTimestampDesc_key.
Qed.

Lemma limit_length {A} (n : nat) (l : list A) : (length (limit n l) <= n)%nat.
Proof. unfold limit. rewrite length_firstn. lia. Qed.

Lemma limit_Forall {A} (P : A -> Prop) (n : nat) (l : list A) :
  Forall P l -> Forall P (limit n l).
Proof.
  intros H. unfold limit. rewrite <- (firstn_skipn n l) in H.
  apply Forall_app in H. tauto.
Qed.

Lemma orderByDesc_Forall {A} (key : A -> Z) (P : A -> Prop) (l : list A) :
  Forall P l -> Forall P (orderByDesc key l).
Proof.
  unfold orderByDesc. apply Permutation_Forall, orderBy_perm.
Qed.

Lemma flat_map_Forall {A B} (P : B -> Prop) (f : A -> list B) (l : list A) :
  (forall x, In x l -> Forall P (f x)) -> Forall P (flat_map f l).
Proof.
  intros H. apply Forall_forall. intros y Hy. apply in_flat_map in Hy.
  destruct Hy as [x [Hx Hy]]. specialize (H x Hx).
  rewrite Forall_forall in H. now apply H.
Qed.

Lemma completedAssignmentsActivity_type (userId : Z) (p : Portal) :
  Forall (fun a => Activity.type a = "assignment"%string)
    (completedAssignmentsActivity userId p).
Proof.
  unfold completedAssignmentsActivity.
  apply limit_Forall, orderByDesc_Forall, flat_map_Forall.
  intros c _. apply Forall_forall. intros a Ha.
  apply in_map_iff in Ha. destruct Ha as [ca [<- _]]. reflexivity.
Qed.

Lemma viewedNotesActivity_type (userId : Z) (p : Portal) :
  Forall (fun a => Activity.type a = "note"%string)
    (viewedNotesActivity userId p).
Proof.
  unfold viewedNotesActivity.
  apply limit_Forall, orderByDesc_Forall, flat_map_Forall.
  intros c _. apply Forall_forall. intros a Ha.
  apply in_map_iff in Ha. destruct Ha as [ca [<- _]]. reflexivity.
Qed.

Lemma viewedPapersActivity_type (userId : Z) (p : Portal) :
  Forall (fun a => Activity.type a = "pastpaper"%string)
    (viewedPapersActivity userId p).
Proof.
  unfold viewedPapersActivity.
  apply limit_Forall, orderByDesc_Forall, flat_map_Forall.
  intros c _. apply Forall_forall. intros a Ha.
  apply in_map_iff in Ha. destruct Ha as [ca [<- _]]. reflexivity.
Qed.

Lemma filter_perm {A} (f : A -> bool) (l l' : list A) :
  Permutation l l' -> Permutation (filter f l) (filter f l').
Proof.
  induction 1 as [| x l l' _ IH | x y l | l l' l'' _ IH1 _ IH2]; simpl.
  - apply perm_nil.
  - destruct (f x); [now apply perm_skip | exact IH].
  - destruct (f x), (f y); try apply Permutation_refl. apply perm_swap.
  - eapply perm_trans; eassumption.
Qed.

Lemma filter_hasType (s t : string) (l : list Activity.t) :
  Forall (fun a => Activity.type a = s) l ->
  (length (filter (hasType t) l)
   <= if String.eqb s t then length l else 0)%nat.
Proof.
  induction 1 as [| a l Ha _ IH]; simpl; [now destruct (String.eqb s t) |].
  unfold hasType at 1. rewrite Ha.
  destruct (String.eqb s t); simpl; lia.
Qed.

(** X17. [getUserActivities] only reads.  It returns the ten latest of
    the up to fifteen activities that its three queries fetch, latest
    first, and so never more than five of one type. *)
Theorem getUserActivities_spec (userId : Z) (p : Portal) :
  let fetched :=
    completedAssignmentsActivity userId p ++ viewedNotesActivity userId p
    ++ viewedPapersActivity userId p in
  exists rows older,
    getUserActivities userId p = Some (rows, p)
    /\ length rows = Nat.min 10 (length fetched)
    /\ (length fetched <= 15)%nat
    /\ Permutation (rows ++ older) fetched
    /\ StronglySorted newerFirst (rows ++ older)
    /\ (forall type, (length (filter (hasType type) rows) <= 5)%nat).
Proof.
  intros fetched.
  exists (firstn 10 (sort byTimestampDesc fetched)),
         (skipn 10 (sort byTimestampDesc fetched)).
  assert (La : (length (completedAssignmentsActivity userId p) <= 5)%nat)
    by apply limit_length.
  assert (Ln : (length (viewedNotesActivity userId p) <= 5)%nat)
    by apply limit_length.
  assert (Lp : (length (viewedPapersActivity userId p) <= 5)%nat)
    by apply limit_length.
  split; [reflexivity |]. split; [| split; [| split; [| split]]].
  - now rewrite length_firstn, (sort_length byTimestampDesc).
  - unfold fetched. rewrite !length_app. lia.
  - rewrite firstn_skipn. apply Permutation_sym, sort_perm.
  - rewrite firstn_skipn. apply sort_newerFirst.
  - intros type.
    assert (H1 : (length (filter (hasType type)
                            (firstn 10 (sort byTimestampDesc fetched)))
                  <= length (filter (hasType type) fetched))%nat).
    { rewrite (Permutation_length
                 (filter_perm (hasType type) _ _
                    (sort_perm byTimestampDesc fetched))).
      rewrite <- (firstn_skipn 10 (sort byTimestampDesc fetched)) at 2.
      rewrite filter_app, length_app. lia. }
    unfold fetched in H1 at 2. rewrite !filter_app, !length_app in H1.
    pose proof (filter_hasType _ type _
                  (completedAssignmentsActivity_type userId p)) as Ha.
    pose proof (filter_hasType _ type _
                  (viewedNotesActivity_type userId p)) as Hn.
    pose proof (filter_hasType _ type _
                  (viewedPapersActivity_type userId p)) as Hp.
    destruct (String.eqb "assignment" type) eqn:Ea;
      destruct (String.eqb "note" type) eqn:En;
      destruct (String.eqb "pastpaper" type) eqn:Ep;
      try lia;
      repeat match goal with
             | H : String.eqb _ type = true |- _ =>
                 apply String.eqb_eq in H
             end; congruence.
Qed.

(** * Passwords and login *)

Module HexFacts.
Import Hex.

Lemma decode_pair (b : Byte.byte) (s : string) :
  decode (String (digit (Byte.to_N b / 16))
            (String (digit (Byte.to_N b mod 16)) s))
  = b :: decode s.
Proof. destruct b; reflexivity. Qed.

(** Decoding gives back the bytes that were encoded. *)
Lemma decode_encode (bytes : list Byte.byte) : decode (encode bytes) = bytes.
Proof.
  induction bytes as [| b rest IH]; [reflexivity |].
  simpl encode. rewrite decode_pair. now rewrite IH.
Qed.

Lemma digits_not_dot (b : Byte.byte) :
  Ascii.eqb (digit (Byte.to_N b / 16)) "." = false
  /\ Ascii.eqb (digit (Byte.to_N b mod 16)) "." = false.
Proof. destruct b; split; reflexivity. Qed.

End HexFacts.

Lemma splitDot_nonempty (s : string) : splitDot s <> [].
Proof.
  destruct s as [| c s]; simpl; [discriminate |].
  destruct (Ascii.eqb c "."); [discriminate |].
  destruct (splitDot s); discriminate.
Qed.

Lemma splitDot_encode (bytes : list Byte.byte) (s : string) :
  splitDot (Hex.encode bytes ++ String "." s) = Hex.encode bytes :: splitDot s.
Proof.
  induction bytes as [| b rest IH]; [reflexivity |].
  destruct (HexFacts.digits_not_dot b) as [H1 H2].
  simpl Hex.encode. simpl append. simpl splitDot.
  rewrite H1, H2. simpl in IH. now rewrite IH.
Qed.

Lemma splitDot_encode_only (bytes : list Byte.byte) :
  splitDot (Hex.encode bytes) = [Hex.encode bytes].
Proof.
  induction bytes as [| b rest IH]; [reflexivity |].
  destruct (HexFacts.digits_not_dot b) as [H1 H2].
  simpl Hex.encode. simpl splitDot. rewrite H1, H2. now rewrite IH.
Qed.

Lemma splitDot_no_dot (s : string) :
  (forall c, In c (list_ascii_of_string s) -> c <> "."%char) ->
  splitDot s = [s].
Proof.
  induction s as [| c s IH]; intros H; [reflexivity |].
  simpl. assert (Hc : Ascii.eqb c "." = false).
  { apply Ascii.eqb_neq. apply H. now left. }
  rewrite Hc, IH; [reflexivity |].
  intros c' Hc'. apply H. now right.
Qed.

Lemma bytes_eqb_true (a b : list Byte.byte) : bytes_eqb a b = true <-> a = b.
Proof.
  unfold bytes_eqb. destruct (list_eq_dec Byte.byte_eq_dec a b);
    split; congruence.
Qed.

Section PasswordFacts.

Variable scrypt : string -> string -> list Byte.byte.

Lemma splitDot_hashPassword (random : list Byte.byte) (password : string) :
  splitDot (hashPassword scrypt random password)
  = [Hex.encode (scrypt password (Hex.encode random)); Hex.encode random].
Proof.
  unfold hashPassword. simpl.
  now rewrite splitDot_encode, splitDot_encode_only.
Qed.

Lemma comparePasswords_hashPassword (random : list Byte.byte)
    (supplied original : string) :
  comparePasswords scrypt supplied (hashPassword scrypt random original)
  = if (length (scrypt original (Hex.encode random))
        =? length (scrypt supplied (Hex.encode random)))%nat
    then Some (bytes_eqb (scrypt original (Hex.encode random))
                 (scrypt supplied (Hex.encode random)))
    else None.
Proof.
  unfold comparePasswords. rewrite splitDot_hashPassword.
  now rewrite HexFacts.decode_encode.
Qed.

(** X18. A password verifies against its own hash: whatever the random
    salt and the key derivation are, [comparePasswords] of a password
    and the string that [hashPassword] made of it is [true]. *)
Theorem hashPassword_then_compare (random : list Byte.byte)
    (password : string) :
  comparePasswords scrypt password (hashPassword scrypt random password)
  = Some true.
Proof.
  rewrite comparePasswords_hashPassword, Nat.eqb_refl. f_equal.
  now apply bytes_eqb_true.
Qed.

(** X19. Against a hash made by [hashPassword], [comparePasswords]
    answers [true] exactly when the supplied password derives the same
    key under the stored salt as the original one. *)
Theorem comparePasswords_same_key (random : list Byte.byte)
    (supplied original : string) :
  comparePasswords scrypt supplied (hashPassword scrypt random original)
  = Some true
  <-> scrypt supplied (Hex.encode random)
      = scrypt original (Hex.encode random).
Proof.
  rewrite comparePasswords_hashPassword. split.
  - destruct (_ =? _)%nat; [| discriminate].
    intros [= H]. apply bytes_eqb_true in H. congruence.
  - intros ->. rewrite Nat.eqb_refl. f_equal. now apply bytes_eqb_true.
Qed.

(** X20. A stored password without a dot has no salt: [comparePasswords]
    throws on it, for every supplied password, instead of answering
    [false]. *)
Theorem comparePasswords_no_salt (supplied stored : string) :
  (forall c, In c (list_ascii_of_string stored) -> c <> "."%char) ->
  comparePasswords scrypt supplied stored = None.
Proof.
  intros H. unfold comparePasswords. now rewrite splitDot_no_dot.
Qed.

Lemma firstRow_unique {A K} (key : A -> K) (p : A -> bool) (l : list A)
    (u v : A) :
  NoDup (map key l) ->
  firstRow (filter p l) = Some u -> In v l -> key v = key u -> v = u.
Proof.
  intros Hnd Hu Hv Hk. apply firstRow_filter_Some in Hu.
  destruct Hu as [Hu _]. clear p.
  induction l as [| x l IH]; [destruct Hu |].
  simpl in Hnd. inversion Hnd as [| ? ? Hnot Hnd']; subst.
  destruct Hu as [-> | Hu], Hv as [-> | Hv]; auto.
  - exfalso. apply Hnot. rewrite <- Hk. now apply in_map.
  - exfalso. apply Hnot. rewrite Hk. now apply in_map.
Qed.

(** With unique admission numbers, the user that the strategy checks
    the password of is the one found by the admission number alone. *)
Lemma verify_user (name admissionNumber : string) (db : DB) :
  uniqueAdmissionNumbers db ->
  match firstRow (filter (fun u => String.eqb (User.name u) name
                                   && String.eqb (User.admissionNumber u)
                                        admissionNumber)
                    (users db)) with
  | Some u => Some u
  | None => firstRow (filter (fun u => String.eqb (User.admissionNumber u)
                                         admissionNumber)
                        (users db))
  end
  = firstRow (filter (fun u => String.eqb (User.admissionNumber u)
                                 admissionNumber)
                (users db)).
Proof.
  intros Hnd.
  destruct (firstRow (filter (fun u => String.eqb (User.name u) name && _)
                        (users db))) as [u |] eqn:E1; [| reflexivity].
  destruct (firstRow_filter_Some _ _ _ E1) as [Hu Hp].
  apply andb_true_iff in Hp. destruct Hp as [_ Hp].
  destruct (firstRow (filter (fun u => String.eqb (User.admissionNumber u)
                                         admissionNumber) (users db)))
    as [v |] eqn:E2.
  - f_equal. apply String.eqb_eq in Hp.
    destruct (firstRow_filter_Some _ _ _ E2) as [Hv Hq].
    apply String.eqb_eq in Hq.
    apply (firstRow_unique User.admissionNumber _ _ _ _ Hnd E2 Hu).
    congruence.
  - rewrite firstRow_filter_None in E2. rewrite (E2 u Hu) in Hp.
    discriminate.
Qed.

(** With unique admission numbers, the verdict is the one of the
    admission number and the password. *)
Lemma verify_by_admissionNumber (name admissionNumber password : string)
    (db : DB) :
  uniqueAdmissionNumbers db ->
  verify scrypt name admissionNumber password db
  = match firstRow (filter (fun u => String.eqb (User.admissionNumber u)
                                       admissionNumber)
                      (users db)) with
    | None => Some (Rejected, db)
    | Some u =>
        match comparePasswords scrypt password (User.password u) with
        | None => Some (Failed, db)
        | Some false => Some (Rejected, db)
        | Some true => Some (Accepted (userSession u), db)
        end
    end.
Proof.
  intros Hnd. rewrite <- (verify_user name admissionNumber db Hnd).
  unfold verify, getUserByCredentials, bind, select, ret.
  destruct (firstRow (filter (fun u => String.eqb (User.name u) name && _)
                        (users db))) as [u |]; simpl.
  - destruct (comparePasswords scrypt password (User.password u))
      as [[|] |]; reflexivity.
  - destruct (firstRow _) as [u |]; [| reflexivity].
    destruct (comparePasswords scrypt password (User.password u))
      as [[|] |]; reflexivity.
Qed.

(** X21. With unique admission numbers the login does not depend on the
    name that was typed: the strategy reaches the same verdict for any
    two names, the one of the admission number and the password
    alone. *)
Theorem verify_ignores_name (name name' admissionNumber password : string)
    (db : DB) :
  uniqueAdmissionNumbers db ->
  verify scrypt name admissionNumber password db
  = verify scrypt name' admissionNumber password db.
Proof.
  intros Hnd.
  now rewrite (verify_by_admissionNumber name),
    (verify_by_admissionNumber name').
Qed.

(** X22. A password change that is answered with the updated user has
    stored a hash that the new password verifies against and put the
    same hash in the session.  It has written nothing but that
    password: every other user's row is as it was, the user's own row
    differs in the password only, and the other tables and the sequence
    are unchanged.  It needs a session, two non-empty passwords and a
    current password that verifies. *)
Theorem patchPassword_updated (sessionUser : option Z)
    (currentPassword newPassword : option string)
    (random : list Byte.byte) (db db' : DB) (updated : option User.t)
    (sessionPassword : string) :
  patchPassword scrypt sessionUser currentPassword newPassword random db
  = Some (Updated updated sessionPassword, db') ->
  exists id current new u,
    sessionUser = Some id
    /\ currentPassword = Some current /\ current <> EmptyString
    /\ newPassword = Some new /\ new <> EmptyString
    /\ getUser id db = Some (Some u, db)
    /\ comparePasswords scrypt current (User.password u) = Some true
    /\ sessionPassword = hashPassword scrypt random new
    /\ updated = Some (setPassword sessionPassword u)
    /\ getUser id db' = Some (updated, db')
    /\ comparePasswords scrypt new sessionPassword = Some true
    /\ assignments db' = assignments db
    /\ completedAssignments db' = completedAssignments db
    /\ map User.rank (users db') = map User.rank (users db)
    /\ Forall2 (fun v v' => (User.id v <> id /\ v' = v)
                            \/ (User.id v = id
                                /\ v' = setPassword sessionPassword v))
         (users db) (users db')
    /\ completedAssignments_id_seq db' = completedAssignments_id_seq db.
Proof.
  unfold patchPassword. intros H.
  destruct sessionUser as [id |]; [| unfold ret in H; discriminate].
  destruct currentPassword as [[| c0 cs] |];
    try (unfold ret in H; discriminate).
  destruct newPassword as [[| n0 ns] |];
    try (unfold ret in H; discriminate).
  change (falsy (Some (String c0 cs)) || falsy (Some (String n0 ns)))
    with false in H.
  cbv iota in H. unfold string_of in H.
  set (current := String c0 cs) in *. set (new := String n0 ns) in *.
  unfold bind at 1 in H.
  destruct (getUser id db) as [[user db0] |] eqn:Eg; [| discriminate].
  assert (E0 : db0 = db) by (unfold getUser, bind, select, ret in Eg;
                             congruence).
  subst db0.
  destruct user as [u |]; [| unfold ret in H; discriminate].
  destruct (comparePasswords scrypt current (User.password u))
    as [[|] |] eqn:Ec;
    [| unfold ret in H; discriminate | unfold ret in H; discriminate].
  assert (Hid : User.id u = id).
  { unfold getUser, bind, select, ret in Eg. injection Eg as Eg.
    apply firstRow_filter_Some in Eg. destruct Eg as [_ Eg].
    now apply Z.eqb_eq in Eg. }
  rewrite Hid in H.
  destruct (updateUsers_firstRow id
              (setPassword (hashPassword scrypt random new)) db
              (fun u => eq_refl))
    as [rows [db1 [Hup [Hrows [Hget [Hall [Ha Hcs]]]]]]].
  assert (Hf : firstRow (filter (fun u => User.id u =? id) (users db))
               = Some u)
    by (unfold getUser, bind, select, ret in Eg; congruence).
  rewrite Hf in Hrows. simpl in Hrows. rewrite Hrows in Hget.
  assert (Hseq : completedAssignments_id_seq db1
                 = completedAssignments_id_seq db)
    by (unfold updateUsers in Hup; injection Hup as _ <-; reflexivity).
  unfold updateUserPassword, bind, ret in H. rewrite Hup, Hrows in H.
  injection H as <- <- <-.
  exists id, current, new, u.
  repeat split; try assumption; try reflexivity; try discriminate.
  - rewrite comparePasswords_hashPassword, Nat.eqb_refl. f_equal.
    now apply bytes_eqb_true.
  - clear - Hall. induction Hall as [| x x' l l' H _ IH]; [reflexivity |].
    simpl. rewrite IH. f_equal.
    destruct H as [[_ ->] | [_ ->]]; reflexivity.
Qed.

(** X23. Any other answer of the password change has written nothing:
    without a session, with an empty or missing password, for a user who
    is gone, or when the current password does not verify or cannot be
    checked, the database is left as it was. *)
Theorem patchPassword_refused (sessionUser : option Z)
    (currentPassword newPassword : option string)
    (random : list Byte.byte) (db db' : DB) (response : PasswordResponse) :
  patchPassword scrypt sessionUser currentPassword newPassword random db
  = Some (response, db') ->
  (forall updated sessionPassword,
     response <> Updated updated sessionPassword) ->
  db' = db.
Proof.
  unfold patchPassword. intros H Hno.
  destruct sessionUser as [id |]; [| unfold ret in H; congruence].
  destruct (falsy currentPassword || falsy newPassword);
    [unfold ret in H; congruence |].
  unfold bind at 1 in H.
  destruct (getUser id db) as [[user db0] |] eqn:Eg; [| discriminate].
  assert (E0 : db0 = db) by (unfold getUser, bind, select, ret in Eg;
                             congruence).
  subst db0.
  destruct user as [u |]; [| unfold ret in H; congruence].
  destruct (comparePasswords scrypt _ (User.password u)) as [[|] |];
    try (unfold ret in H; congruence).
  unfold bind, ret in H.
  destruct (updateUserPassword _ _ db) as [[updated db1] |];
    [| discriminate].
  injection H as <- _. destruct (Hno updated _ eq_refl).
Qed.

End PasswordFacts.

(** * Seeding *)

Lemma existsb_false {A} (f : A -> bool) (l : list A) :
  (forall x, In x l -> f x = false) -> existsb f l = false.
Proof.
  intros H. induction l as [| a l IH]; [reflexivity |]. simpl.
  rewrite (H a (or_introl eq_refl)). apply IH.
  intros x Hx. apply H. now right.
Qed.

(** An insert into [users] goes through when the sequence is ahead of
    the stored ids and the admission numbers are new and distinct. *)
Lemma insertUsers_fresh (rows : list InsertUser.t) :
  forall (id : Z) (db : DB),
    (forall u, In u (users db) -> User.id u < id) ->
    NoDup (map InsertUser.admissionNumber rows) ->
    (forall u r, In u (users db) -> In r rows ->
                 User.admissionNumber u <> InsertUser.admissionNumber r) ->
    insertUsers id rows db
    = Some (tt, mkDB (users db ++ usersFrom id rows) (assignments db)
                  (completedAssignments db)
                  (completedAssignments_id_seq db)).
Proof.
  induction rows as [| r rows IH]; intros id db Hid Hnd Hnew.
  - simpl. rewrite app_nil_r. now destruct db.
  - simpl. inversion Hnd as [| ? ? Hr Hnd']; subst.
    rewrite !existsb_false; simpl.
    + rewrite IH; simpl.
      * now rewrite <- app_assoc.
      * intros u Hu. apply in_app_or in Hu.
        destruct Hu as [Hu | [<- | []]]; [| simpl; lia].
        specialize (Hid u Hu). lia.
      * exact Hnd'.
      * intros u r' Hu Hr'. apply in_app_or in Hu.
        destruct Hu as [Hu | [<- | []]].
        -- apply Hnew; [exact Hu | now right].
        -- simpl. intros E. apply Hr. rewrite E. now apply in_map.
    + intros u Hu. apply String.eqb_neq. apply Hnew; [exact Hu | now left].
    + intros u Hu. apply Z.eqb_neq. specialize (Hid u Hu). lia.
Qed.

Lemma insertUnits_fresh (rows : list InsertUnit.t) :
  forall (id : Z) (p : Portal),
    (forall u, In u (units p) -> Unit.id u < id) ->
    NoDup (map InsertUnit.unitCode rows) ->
    (forall u r, In u (units p) -> In r rows ->
                 Unit.unitCode u <> InsertUnit.unitCode r) ->
    insertUnits id rows p
    = Some (tt, mkPortal (base p) (units p ++ unitsFrom id rows) (notes p)
                  (pastPapers p) (userNoteViews p) (userPaperViews p)
                  (assignments_id_seq p) (userNoteViews_id_seq p)
                  (userPaperViews_id_seq p)).
Proof.
  induction rows as [| r rows IH]; intros id p Hid Hnd Hnew.
  - simpl. rewrite app_nil_r. now destruct p.
  - simpl. inversion Hnd as [| ? ? Hr Hnd']; subst.
    rewrite !existsb_false; simpl.
    + rewrite IH; simpl.
      * now rewrite <- app_assoc.
      * intros u Hu. apply in_app_or in Hu.
        destruct Hu as [Hu | [<- | []]]; [| simpl; lia].
        specialize (Hid u Hu). lia.
      * exact Hnd'.
      * intros u r' Hu Hr'. apply in_app_or in Hu.
        destruct Hu as [Hu | [<- | []]].
        -- apply Hnew; [exact Hu | now right].
        -- simpl. intros E. apply Hr. rewrite E. now apply in_map.
    + intros u Hu. apply String.eqb_neq. apply Hnew; [exact Hu | now left].
    + intros u Hu. apply Z.eqb_neq. specialize (Hid u Hu). lia.
Qed.

Lemma seededUsers_distinct (defaultPassword : string) :
  NoDup (map InsertUser.admissionNumber (seededUsers defaultPassword)).
Proof.
  simpl. repeat constructor; simpl; intuition discriminate.
Qed.

Lemma seededUnits_distinct : NoDup (map InsertUnit.unitCode seededUnits).
Proof.
  simpl. repeat constructor; simpl; intuition discriminate.
Qed.

Section SeedFacts.

Variable scrypt : string -> string -> list Byte.byte.

(** What [seed] does, by the tables it finds empty. *)
Lemma seed_cases (random : list Byte.byte) (users_id_seq units_id_seq : Z)
    (p : Portal) :
  seed scrypt random users_id_seq units_id_seq p
  = Some (tt,
          mkPortal
            (mkDB (match users (base p) with
                   | [] => usersFrom users_id_seq
                             (seededUsers
                                (hashPassword scrypt random "sds#website"))
                   | _ => users (base p)
                   end)
               (assignments (base p)) (completedAssignments (base p))
               (completedAssignments_id_seq (base p)))
            (match units p with
             | [] => unitsFrom units_id_seq seededUnits
             | _ => units p
             end)
            (notes p) (pastPapers p) (userNoteViews p) (userPaperViews p)
            (assignments_id_seq p) (userNoteViews_id_seq p)
            (userPaperViews_id_seq p)).
Proof.
  unfold seed, andThen, onBase, select, query, done.
  destruct p as [[us asg cs cseq] un nt pp nv pv s1 s2 s3].
  cbn -[insertUsers insertUnits usersFrom unitsFrom].
  destruct us as [| u us];
    cbn -[insertUsers insertUnits usersFrom unitsFrom].
  - rewrite insertUsers_fresh;
      [| intros _ [] | apply seededUsers_distinct | intros _ _ []].
    cbn -[insertUsers insertUnits usersFrom unitsFrom].
    destruct un as [| n un];
      cbn -[insertUsers insertUnits usersFrom unitsFrom]; [| reflexivity].
    rewrite insertUnits_fresh;
      [reflexivity | intros _ [] | apply seededUnits_distinct
      | intros _ _ []].
  - destruct un as [| n un];
      cbn -[insertUsers insertUnits usersFrom unitsFrom]; [| reflexivity].
    rewrite insertUnits_fresh;
      [reflexivity | intros _ [] | apply seededUnits_distinct
      | intros _ _ []].
Qed.

(** X24. The seeded accounts can log in: after [seed] has run on a
    database without users, the strategy accepts each seeded admission
    number with the default password, whatever name is typed, and the
    session user is the seeded one. *)
Theorem seed_then_login (random : list Byte.byte)
    (users_id_seq units_id_seq : Z) (p p' : Portal)
    (defaultPassword typed : string) (r : InsertUser.t) :
  users (base p) = [] ->
  seed scrypt random users_id_seq units_id_seq p = Some (tt, p') ->
  In r (seededUsers defaultPassword) ->
  exists u,
    verify scrypt typed (InsertUser.admissionNumber r) "sds#website"
      (base p')
    = Some (Accepted u, base p')
    /\ User.name u = InsertUser.name r
    /\ User.admissionNumber u = InsertUser.admissionNumber r
    /\ User.rank u = InsertUser.rank r.
Proof.
  intros Hu Hs Hr. rewrite seed_cases, Hu in Hs. injection Hs as <-.
  assert (Hc : comparePasswords scrypt "sds#website"
                 (hashPassword scrypt random "sds#website") = Some true).
  { rewrite comparePasswords_hashPassword, Nat.eqb_refl. f_equal.
    now apply bytes_eqb_true. }
  rewrite verify_by_admissionNumber.
  - cbn [base users usersFrom seededUsers].
    destruct Hr as [<- | [<- | [<- | []]]];
      cbn -[comparePasswords hashPassword]; rewrite Hc;
      eexists; (split; [reflexivity |]); simpl; auto.
  - exact (seededUsers_distinct (hashPassword scrypt random "sds#website")).
Qed.

(** X25. [seed] always returns, and it fills only the tables that it
    finds empty: stored users and stored units are never changed, no
    other table is written, and a second run changes nothing at all. *)
Theorem seed_idempotent (random : list Byte.byte)
    (users_id_seq units_id_seq : Z) (p : Portal) :
  exists p',
    seed scrypt random users_id_seq units_id_seq p = Some (tt, p')
    /\ (forall random' users_id_seq' units_id_seq',
          seed scrypt random' users_id_seq' units_id_seq' p'
          = Some (tt, p'))
    /\ (users (base p) <> [] -> users (base p') = users (base p))
    /\ (units p <> [] -> units p' = units p)
    /\ users (base p') <> [] /\ units p' <> []
    /\ assignments (base p') = assignments (base p)
    /\ completedAssignments (base p') = completedAssignments (base p)
    /\ notes p' = notes p /\ pastPapers p' = pastPapers p
    /\ userNoteViews p' = userNoteViews p
    /\ userPaperViews p' = userPaperViews p.
Proof.
  eexists. split; [apply seed_cases |].
  split.
  - intros random' i' j'. rewrite seed_cases. cbn [base users units
      assignments completedAssignments completedAssignments_id_seq notes
      pastPapers userNoteViews userPaperViews assignments_id_seq
      userNoteViews_id_seq userPaperViews_id_seq].
    destruct (users (base p)), (units p); reflexivity.
  - cbn [base users units assignments completedAssignments notes
      pastPapers userNoteViews userPaperViews].
    repeat split.
    + destruct (users (base p)); [intros H; now elim H | reflexivity].
    + destruct (units p); [intros H; now elim H | reflexivity].
    + destruct (users (base p)); discriminate.
    + destruct (units p); discriminate.
Qed.

End SeedFacts.

(** * The card and the dashboard *)

(** X26. The card and the dashboard agree: the card of a listed
    assignment shows Overdue exactly when the assignment is among those
    that the dashboard counts as overdue at the same clock reading,
    Pending exactly when it is among the pending ones, and Completed
    exactly when the user has a completion row for it. *)
Theorem badge_matches_dashboard (now : Date) (unitCode : string)
    (userId : Z) (db db' : DB) (rows : list AssignmentRow.t)
    (r : AssignmentRow.t) :
  getAssignmentsByUnit unitCode userId db = Some (rows, db') ->
  In r rows ->
  exists a,
    In a (assignments db)
    /\ Assignment.id a = AssignmentRow.id r
    /\ Assignment.deadline a = AssignmentRow.deadline r
    /\ (getStatusBadge now r = Badge.Overdue <->
        In a (filter (fun a => Assignment.deadline a <? now)
                (uncompleted userId db)))
    /\ (getStatusBadge now r = Badge.Pending <->
        In a (filter (fun a => now <=? Assignment.deadline a)
                (uncompleted userId db)))
    /\ (getStatusBadge now r = Badge.Completed <->
        ~ In a (uncompleted userId db)).
Proof.
  unfold getAssignmentsByUnit, select. intros [= <- <-] Hr.
  apply orderBy_In, joinAssignments_In in Hr.
  destruct Hr as [a [u [oc [Ha [_ [_ [-> H]]]]]]].
  apply selectUnitAssignments_In in Ha. destruct Ha as [Ha _].
  exists a. split; [exact Ha |]. split; [reflexivity |].
  split; [reflexivity |].
  assert (Hun : In a (uncompleted userId db) <-> oc = None).
  { unfold uncompleted. rewrite filter_In, forallb_negb_filter. split.
    - intros [_ Hf]. destruct H as [[-> _] | [c [-> [Hc Hon]]]];
        [reflexivity |].
      assert (Hin : In c (filter (completionOf userId a)
                            (completedAssignments db)))
        by (apply filter_In; tauto).
      rewrite Hf in Hin. destruct Hin.
    - intros ->. split; [exact Ha |].
      destruct H as [[_ Hno] | [c [[=] _]]].
      destruct (filter _ _) as [| c rest] eqn:E; [reflexivity |].
      assert (Hin : In c (filter (completionOf userId a)
                            (completedAssignments db)))
        by (rewrite E; now left).
      apply filter_In in Hin. destruct Hin as [Hc Hon].
      rewrite (Hno c Hc) in Hon. discriminate. }
  rewrite !filter_In, Hun.
  unfold getStatusBadge, isOverdue, isPast. simpl.
  clear H Hun.
  destruct oc as [c |]; simpl;
    [| rewrite andb_true_r;
       destruct (Assignment.deadline a <? now) eqn:E;
       [apply Z.ltb_lt in E | apply Z.ltb_ge in E]];
    rewrite ?Z.ltb_lt, ?Z.leb_le;
    repeat split; intros;
    repeat match goal with
           | H : _ /\ _ |- _ => destruct H
           end;
    try discriminate; try reflexivity; try lia; try tauto.
Qed.

(** * The further properties on the sample data *)

Module DemoFacts.
Import Sample Demo.

Lemma fetched_completions_resolve_witness :
  (forall a, In a (assignments dbOnce) ->
             Assignment.unitCode a = "MAT 2101"%string ->
             In a (assignments db))
  /\ resolved (selectUnitAssignments "MAT 2101" db)
       (selectUserCompletions "MAT 2101" dbOnce)
     = selectUserCompletions "MAT 2101" dbOnce.
Proof.
  assert (H : forall a, In a (assignments dbOnce) ->
                        Assignment.unitCode a = "MAT 2101"%string ->
                        In a (assignments db))
    by (intros a Ha _; exact Ha).
  split; [exact H |].
  exact (fetched_completions_resolve "MAT 2101" db dbOnce H).
Defined.

(** Without the condition a row is skipped: when assignment 3 is
    created and completed between the two queries, the second query
    fetches a row whose assignment the first did not see. *)
Example row_fetched_after_creation_skipped :
  createAssignment (T0 + 3 * hour) homework portal
  = Some (created, portalCreated)
  /\ (exists res,
        completeAssignment (T0 + 4 * hour) 3 7 (base portalCreated)
        = Some (res, dbLater))
  /\ selectUserCompletions "MAT 2101" dbLater
     = [Sample.done 7 "X" 1 (T0 + hour); Sample.done 7 "X" 3 (T0 + 4 * hour)]
  /\ resolved (selectUnitAssignments "MAT 2101" (base portal))
       (selectUserCompletions "MAT 2101" dbLater)
     = [Sample.done 7 "X" 1 (T0 + hour)].
Proof.
  split; [vm_compute; reflexivity |]. split.
  - eexists. vm_compute. reflexivity.
  - split; vm_compute; reflexivity.
Qed.

Lemma completed_once :
  completeAssignment (T0 + hour) 1 7 db = Some (completedOnce, dbOnce).
Proof. vm_compute. reflexivity. Defined.

Lemma rankings_entries_nonempty_witness :
  In entryX (rankingsOf minutes unitAssignments userCompletions)
  /\ (1 <= Ranking.completedAssignments entryX)%nat.
Proof.
  split; [exact SampleFacts.In_ranked_X |].
  exact (proj1 (rankings_entries_nonempty minutes unitAssignments
                  userCompletions entryX SampleFacts.In_ranked_X)).
Defined.

Lemma completed_user_is_ranked_witness :
  completeAssignment (T0 + hour) 1 7 db
  = Some (Completed rowOnce (Some A1) (Some student), dbOnce)
  /\ In A1 (assignments db) /\ Assignment.id A1 = 1
  /\ exists rankings,
       getUnitRankings minutes (Assignment.unitCode A1) dbOnce
       = Some (rankings, dbOnce)
       /\ In 7 (map Ranking.userId rankings).
Proof.
  assert (Ha : In A1 (assignments db)) by (left; reflexivity).
  split; [exact completed_once |]. split; [exact Ha |].
  split; [reflexivity |].
  exact (completed_user_is_ranked minutes (T0 + hour) 1 7 db dbOnce rowOnce
           (Some A1) (Some student) A1 completed_once Ha eq_refl).
Defined.

Lemma no_assignment_1_in_ethics :
  forall a, In a (assignments db) -> Assignment.id a = 1 ->
            Assignment.unitCode a <> "HED 2101"%string.
Proof.
  intros a [<- | [<- | []]] _; discriminate.
Defined.

Lemma completeAssignment_other_rankings_witness :
  completeAssignment (T0 + hour) 1 7 db = Some (completedOnce, dbOnce)
  /\ exists rankings,
       getUnitRankings minutes "HED 2101" db = Some (rankings, db)
       /\ getUnitRankings minutes "HED 2101" dbOnce
          = Some (rankings, dbOnce).
Proof.
  split; [exact completed_once |].
  exact (completeAssignment_other_rankings minutes (T0 + hour) 1 7 db dbOnce
           completedOnce "HED 2101" completed_once
           no_assignment_1_in_ethics).
Defined.

Lemma sample_completions_after_creation :
  forall c a,
    In c userCompletions ->
    findAssignment unitAssignments (UserCompletion.assignmentId c) = Some a ->
    Assignment.createdAt a <= UserCompletion.completedAt c.
Proof.
  intros c a Hc Hf.
  repeat (destruct Hc as [<- | Hc]; [vm_compute in Hf; try discriminate;
    injection Hf as <-; vm_compute; discriminate |]).
  destruct Hc.
Defined.

Lemma averages_nonnegative_witness :
  In entryX (rankingsOf minutes unitAssignments userCompletions)
  /\ (0 <= Ranking.totalMilliseconds entryX)%Q.
Proof.
  split; [exact SampleFacts.In_ranked_X |].
  exact (averages_nonnegative minutes unitAssignments userCompletions entryX
           sample_completions_after_creation SampleFacts.In_ranked_X).
Defined.

Lemma listed_after_completion :
  getAssignmentsByUnit "MAT 2101" 7 dbOnce = Some (listed, dbOnce).
Proof. vm_compute. reflexivity. Defined.

Lemma completeAssignment_then_listed_witness :
  completeAssignment (T0 + hour) 1 7 db = Some (completedOnce, dbOnce)
  /\ getAssignmentsByUnit "MAT 2101" 7 dbOnce = Some (listed, dbOnce)
  /\ In listedA1 listed /\ AssignmentRow.id listedA1 = 1
  /\ AssignmentRow.completed listedA1 = true.
Proof.
  assert (Hin : In listedA1 listed) by (vm_compute; left; reflexivity).
  split; [exact completed_once |]. split; [exact listed_after_completion |].
  split; [exact Hin |]. split; [reflexivity |].
  exact (proj1 (completeAssignment_then_listed (T0 + hour) 1 7 db dbOnce
                  completedOnce "MAT 2101" listed dbOnce listedA1
                  completed_once listed_after_completion Hin eq_refl)).
Defined.

Lemma viewed_once :
  markNoteAsViewed (T0 + hour) 1 7 portal = Some (tt, portalViewed).
Proof. vm_compute. reflexivity. Defined.

Lemma markNoteAsViewed_once_witness :
  markNoteAsViewed (T0 + hour) 1 7 portal = Some (tt, portalViewed)
  /\ markNoteAsViewed (T0 + 2 * hour) 1 7 portalViewed
     = Some (tt, portalViewed).
Proof.
  split; [exact viewed_once |].
  exact (proj1 (proj2 (proj2 (proj2 (proj2
           (markNoteAsViewed_once (T0 + hour) 1 7 portal portalViewed
              viewed_once))))) (T0 + 2 * hour)).
Defined.

Lemma no_note_9 : forall n, In n (notes portal) -> Note.id n <> 9.
Proof. intros n [<- | []]. discriminate. Defined.

Lemma no_view_of_note_9 : ~ In (9, 7) (map viewOf (userNoteViews portal)).
Proof. intros []. Defined.

Lemma markNoteAsViewed_missing_note_witness :
  (forall n, In n (notes portal) -> Note.id n <> 9)
  /\ ~ In (9, 7) (map viewOf (userNoteViews portal))
  /\ markNoteAsViewed (T0 + hour) 9 7 portal = None.
Proof.
  split; [exact no_note_9 |]. split; [exact no_view_of_note_9 |].
  exact (markNoteAsViewed_missing_note (T0 + hour) 9 7 portal no_note_9
           no_view_of_note_9).
Defined.

Lemma notes_after_view :
  getNotesByUnit "MAT 2101" 7 portalViewed = Some ([lectureRow], portalViewed).
Proof. vm_compute. reflexivity. Defined.

Lemma markNoteAsViewed_then_listed_witness :
  markNoteAsViewed (T0 + hour) 1 7 portal = Some (tt, portalViewed)
  /\ getNotesByUnit "MAT 2101" 7 portalViewed
     = Some ([lectureRow], portalViewed)
  /\ In lectureRow [lectureRow]
  /\ (NoteRow.id lectureRow = 1 -> NoteRow.viewed lectureRow = true).
Proof.
  assert (Hin : In lectureRow [lectureRow]) by (left; reflexivity).
  split; [exact viewed_once |]. split; [exact notes_after_view |].
  split; [exact Hin |].
  exact (proj2 (proj2 (proj2
           (markNoteAsViewed_then_listed (T0 + hour) 1 7 portal portalViewed
              "MAT 2101" [lectureRow] portalViewed lectureRow viewed_once
              notes_after_view Hin)))).
Defined.

Lemma created_homework :
  createAssignment (T0 + 3 * hour) homework portal
  = Some (created, portalCreated).
Proof. vm_compute. reflexivity. Defined.

Lemma createAssignment_spec_witness :
  createAssignment (T0 + 3 * hour) homework portal
  = Some (created, portalCreated)
  /\ assignments (base portalCreated)
     = assignments (base portal) ++ [CreatedAssignment.row created].
Proof.
  split; [exact created_homework |].
  exact (proj1 (proj2
           (proj1 (createAssignment_spec (T0 + 3 * hour) homework portal)
              created portalCreated created_homework))).
Defined.

Lemma no_completion_of_3 :
  forall c, In c (completedAssignments (base portal)) ->
            CompletedAssignment.assignmentId c <> assignments_id_seq portal.
Proof. intros c [<- | []]. discriminate. Defined.

Lemma createAssignment_keeps_rankings_witness :
  createAssignment (T0 + 3 * hour) homework portal
  = Some (created, portalCreated)
  /\ exists rankings,
       getUnitRankings minutes "MAT 2101" (base portal)
       = Some (rankings, base portal)
       /\ getUnitRankings minutes "MAT 2101" (base portalCreated)
          = Some (rankings, base portalCreated).
Proof.
  split; [exact created_homework |].
  exact (createAssignment_keeps_rankings minutes (T0 + 3 * hour) homework
           portal portalCreated created "MAT 2101" created_homework
           no_completion_of_3).
Defined.


Lemma plaintext_has_no_dot :
  forall c, In c (list_ascii_of_string "plaintext") -> c <> "."%char.
Proof.
  intros c H. simpl in H.
  repeat (destruct H as [<- | H]; [discriminate |]). destruct H.
Defined.

Lemma comparePasswords_no_salt_witness :
  (forall c, In c (list_ascii_of_string "plaintext") -> c <> "."%char)
  /\ comparePasswords toyScrypt "plaintext" "plaintext" = None.
Proof.
  split; [exact plaintext_has_no_dot |].
  exact (comparePasswords_no_salt toyScrypt "plaintext" "plaintext"
           plaintext_has_no_dot).
Defined.

Lemma comparePasswords_same_key_witness :
  toyScrypt "sds#website" (Hex.encode random0)
  = toyScrypt "sds#website" (Hex.encode random0)
  /\ comparePasswords toyScrypt "sds#website"
       (hashPassword toyScrypt random0 "sds#website") = Some true.
Proof.
  split; [reflexivity |].
  exact (proj2 (comparePasswords_same_key toyScrypt random0 "sds#website"
                  "sds#website") eq_refl).
Defined.

Lemma accounts_unique : uniqueAdmissionNumbers accounts.
Proof.
  unfold uniqueAdmissionNumbers. simpl. constructor.
  - intros [H | []]. discriminate H.
  - constructor; [intros [] | constructor].
Defined.

Lemma verify_ignores_name_witness :
  uniqueAdmissionNumbers accounts
  /\ verify toyScrypt "X" "S007" "sds#website" accounts
     = verify toyScrypt "Somebody Else" "S007" "sds#website" accounts.
Proof.
  split; [exact accounts_unique |].
  exact (verify_ignores_name toyScrypt "X" "Somebody Else" "S007"
           "sds#website" accounts accounts_unique).
Defined.

(** The login of the witness above is accepted, under either name. *)
Example verify_sample :
  verify toyScrypt "Somebody Else" "S007" "sds#website" accounts
  = Some (Accepted (userSession hashedStudent), accounts).
Proof. vm_compute. reflexivity. Qed.

Lemma updateUserProfileImage_spec_witness :
  exists u db',
    updateUserProfileImage 7 "/uploads/profiles/x.png" accounts
    = Some (Some u, db')
    /\ User.id u = 7
    /\ User.profileImageUrl u = Some "/uploads/profiles/x.png"%string.
Proof.
  destruct (updateUserProfileImage_spec 7 "/uploads/profiles/x.png" accounts)
    as (updated & db' & Hu & _ & Hs & _).
  assert (E : exists u, updated = Some u).
  { vm_compute in Hu. injection Hu as <- _. eexists. reflexivity. }
  destruct E as [u ->]. exists u, db'.
  split; [exact Hu |]. exact (Hs u eq_refl).
Defined.

Lemma getAssignmentsByUnit_spec_witness :
  In listedA1 listed
  /\ exists c, In c (completedAssignments dbOnce)
               /\ CompletedAssignment.assignmentId c = 1
               /\ CompletedAssignment.userId c = 7.
Proof.
  assert (Hin : In listedA1 listed) by (vm_compute; left; reflexivity).
  split; [exact Hin |].
  destruct (getAssignmentsByUnit_spec "MAT 2101" 7 dbOnce)
    as (rows & Hr & _ & Hrows & _).
  rewrite listed_after_completion in Hr. injection Hr as <-.
  destruct (Hrows listedA1 Hin) as (_ & Hc & _).
  exact (proj1 Hc eq_refl).
Defined.

Lemma password_changed :
  patchPassword toyScrypt (Some 7) (Some "sds#website"%string)
    (Some "n"%string) random1 accounts
  = Some (Updated (Some (setPassword newHash hashedStudent)) newHash,
          accountsAfter).
Proof. vm_compute. reflexivity. Defined.

Lemma patchPassword_updated_witness :
  patchPassword toyScrypt (Some 7) (Some "sds#website"%string)
    (Some "n"%string) random1 accounts
  = Some (Updated (Some (setPassword newHash hashedStudent)) newHash,
          accountsAfter)
  /\ comparePasswords toyScrypt "n" newHash = Some true.
Proof.
  split; [exact password_changed |].
  destruct (patchPassword_updated toyScrypt _ _ _ _ _ _ _ _ password_changed)
    as (id & current & new & u & _ & _ & _ & Hn & _ & _ & _ & _ & _ & _
        & Hc & _).
  injection Hn as <-. exact Hc.
Defined.

Lemma password_refused :
  patchPassword toyScrypt (Some 7) (Some "wrong"%string) (Some "n"%string)
    random1 accounts
  = Some (BadRequest "Current password is incorrect", accounts).
Proof. vm_compute. reflexivity. Defined.

Lemma patchPassword_refused_witness :
  patchPassword toyScrypt (Some 7) (Some "wrong"%string) (Some "n"%string)
    random1 accounts
  = Some (BadRequest "Current password is incorrect", accounts)
  /\ accounts = accounts.
Proof.
  split; [exact password_refused |].
  apply (patchPassword_refused toyScrypt _ _ _ _ accounts accounts _
           password_refused).
  intros updated sessionPassword. discriminate.
Defined.

Lemma seeded_fresh : seed toyScrypt random0 1 1 fresh = Some (tt, seeded).
Proof. vm_compute. reflexivity. Defined.

Lemma seed_then_login_witness :
  users (base fresh) = []
  /\ seed toyScrypt random0 1 1 fresh = Some (tt, seeded)
  /\ exists u,
       verify toyScrypt "jane" "SDS002" "sds#website" (base seeded)
       = Some (Accepted u, base seeded)
       /\ User.name u = "Jane Smith"%string.
Proof.
  split; [reflexivity |]. split; [exact seeded_fresh |].
  destruct (seed_then_login toyScrypt random0 1 1 fresh seeded EmptyString
              "jane"
              (InsertUser.mk "Jane Smith" "SDS002" EmptyString None (Some 2))
              eq_refl seeded_fresh (or_intror (or_introl eq_refl)))
    as (u & Hv & Hn & _).
  exists u. split; [exact Hv | exact Hn].
Defined.

Lemma seed_idempotent_witness :
  exists p',
    seed toyScrypt random0 10 10 portal = Some (tt, p')
    /\ users (base p') = users (base portal).
Proof.
  destruct (seed_idempotent toyScrypt random0 10 10 portal)
    as (p' & Hs & _ & Hu & _).
  exists p'. split; [exact Hs |]. apply Hu.
  intros H. vm_compute in H. discriminate H.
Defined.

Lemma badge_matches_dashboard_witness :
  getAssignmentsByUnit "MAT 2101" 7 dbOnce = Some (listed, dbOnce)
  /\ In listedA1 listed
  /\ exists a, In a (assignments dbOnce) /\ Assignment.id a = 1
               /\ ~ In a (uncompleted 7 dbOnce).
Proof.
  assert (Hin : In listedA1 listed) by (vm_compute; left; reflexivity).
  split; [exact listed_after_completion |]. split; [exact Hin |].
  destruct (badge_matches_dashboard T0 "MAT 2101" 7 dbOnce dbOnce listed
              listedA1 listed_after_completion Hin)
    as (a & Ha & Hid & _ & _ & _ & Hc).
  exists a. split; [exact Ha |]. split; [exact Hid |].
  exact (proj1 Hc eq_refl).
Defined.

End DemoFacts.
